(** * antsibull: building the ansible distribution

    A shallow embedding of [antsibull/build_ansible_commands.py]: the
    concurrent download of the collections, the two build commands
    ([build_single_command], [build_multiple_command]) and the helpers that
    assemble the source distributions.

    Conventions.
    - Python strings are [string]; a path is the list of its components, so
      [os.path.join p name] is [p ++ [name]], [os.path.basename] is the last
      component and [os.path.dirname] drops it.
    - A Python [dict] is an association list in insertion order ([PyDict]).
    - An exception is a value of [exn]; a computation that can raise returns
      a sum or one of the outcomes of the command monad.
    - Libraries the module imports but that are not part of it (asyncio,
      asyncio_pool, packaging, semantic_version, shutil, os) are modelled by
      what they do; the collaborators of the repository that the module only
      calls (BuildFile, DepsFile, the changelog, the installers, the galaxy
      downloader, the templates, the sdist build) are fields of [Env]. *)

From Stdlib Require Import Ascii.
From stdpp Require Import base decidable option list strings pretty gmap sorting.
From Stdlib Require Import Lia.

(** ** Exceptions *)

Inductive exn : Type :=
| Exception (msg : string)        (* raise Exception(msg) *)
| ValueError (msg : string)       (* tuple unpacking of the wrong length *)
| OSError (msg : string)          (* FileNotFoundError, FileExistsError, ... *)
| ShutilError (msg : string)      (* shutil.Error *)
| External (msg : string).        (* raised by a collaborator *)

Global Instance exn_eq_dec : EqDecision exn.
Proof. solve_decision. Defined.

(** ** Python strings *)

Module PyStr.

(** [s.startswith(p)] *)
Definition startswith (s p : string) : bool := String.prefix p s.

(** [sep.join(l)] *)
Definition join (sep : string) (l : list string) : string := String.concat sep l.

(** [s.count(c)] for a one-character [c] *)
Fixpoint count (c : ascii) (s : string) : nat :=
  match s with
  | EmptyString => 0
  | String a r => (if Ascii.eqb a c then 1 else 0) + count c r
  end.

(** [s.split(sep, maxsplit)] for a one-character separator: at most
    [maxsplit] cuts, from the left; the last field keeps the rest of the
    string, separators included. *)
Fixpoint split (sep : ascii) (s : string) (maxsplit : nat) {struct s} : list string :=
  match s with
  | EmptyString => [EmptyString]
  | String a r =>
      match maxsplit with
      | 0 => [s]
      | S m =>
          if Ascii.eqb a sep then EmptyString :: split sep r m
          else match split sep r maxsplit with
               | h :: t => String a h :: t
               | [] => [String a EmptyString]
               end
      end
  end.

End PyStr.

(** ** Python dictionaries, in insertion order *)

Module PyDict.
Section Dict.
Context {K V : Type} `{EqDecision K}.

Definition t := list (K * V).

Definition empty : list (K * V) := [].

(** [d[k] = v]: an existing key keeps its position, a new key goes last. *)
Fixpoint set (k : K) (v : V) (d : list (K * V)) : list (K * V) :=
  match d with
  | [] => [(k, v)]
  | (k', v') :: r => if decide (k = k') then (k, v) :: r else (k', v') :: set k v r
  end.

Definition keys (d : list (K * V)) : list K := d.*1.
Definition values (d : list (K * V)) : list V := d.*2.
Definition items (d : list (K * V)) : list (K * V) := d.

Fixpoint get (k : K) (d : list (K * V)) : option V :=
  match d with
  | [] => None
  | (k', v') :: r => if decide (k = k') then Some v' else get k r
  end.

(** A dictionary holds each key once. *)
Definition wf (d : list (K * V)) : Prop := NoDup (keys d).
End Dict.
End PyDict.

(** ** Versions *)

(** [packaging.version.Version]: the release tuple, and the rest of the
    version (pre, post, dev and local parts) as it is printed. *)
Record PypiVer : Type := mkPypiVer {
  epoch : nat;
  release : list nat;
  rest : string
}.

Definition PypiVer_major (v : PypiVer) : nat := nth 0 (release v) 0.
Definition PypiVer_minor (v : PypiVer) : nat := nth 1 (release v) 0.

(** [str(v)] *)
Definition PypiVer_str (v : PypiVer) : string :=
  (if decide (epoch v = 0) then "" else pretty (epoch v) +:+ "!")
  +:+ PyStr.join "." (pretty <$> release v) +:+ rest v.

(** [semantic_version.Version] *)
Record SemVer : Type := mkSemVer {
  major : nat;
  minor : nat;
  patch : nat;
  prerelease : list string;
  build : list string
}.

Global Instance SemVer_eq_dec : EqDecision SemVer.
Proof. solve_decision. Defined.

(** [str(v)] *)
Definition SemVer_str (v : SemVer) : string :=
  pretty (major v) +:+ "." +:+ pretty (minor v) +:+ "." +:+ pretty (patch v)
  +:+ (match prerelease v with [] => "" | p => "-" +:+ PyStr.join "." p end)
  +:+ (match build v with [] => "" | b => "+" +:+ PyStr.join "." b end).

(** [v.next_major()]: a prerelease of X.0.0 is followed by X.0.0 itself. *)
Definition next_major (v : SemVer) : SemVer :=
  match prerelease v, minor v, patch v with
  | _ :: _, 0, 0 => mkSemVer (major v) 0 0 [] []
  | _, _, _ => mkSemVer (S (major v)) 0 0 [] []
  end.


(** ** Paths and the file system *)

Definition path := list string.

Module OsPath.
(** [os.path.join(p, name)] for a relative one-component [name] *)
Definition join (p : path) (name : string) : path := p ++ [name].
(** [os.path.basename(p)] *)
Definition basename (p : path) : string := List.last p "".
(** [os.path.dirname(p)] *)
Definition dirname (p : path) : path := removelast p.
End OsPath.

Inductive node : Type :=
| File (content : string)
| Dir.

Global Instance node_eq_dec : EqDecision node.
Proof. solve_decision. Defined.

(** The file system: every file and directory, by path. The root [[]] is a
    directory of every file system we start from. *)
Abbreviation FS := (gmap path node).

Module Os.

Definition isdir (fs : FS) (p : path) : bool :=
  match fs !! p with Some Dir => true | _ => false end.

Definition isfile (fs : FS) (p : path) : bool :=
  match fs !! p with Some (File _) => true | _ => false end.

Definition exists_ (fs : FS) (p : path) : bool :=
  match fs !! p with Some _ => true | None => false end.

(** The paths of the entries of directory [d]. *)
Definition children (fs : FS) (d : path) : list path :=
  filter (λ q, q ≠ [] ∧ OsPath.dirname q = d) (map_to_list fs).*1.

(** [os.listdir(d)] *)
Definition listdir (d : path) (fs : FS) : exn + list string :=
  if isdir fs d then inr (OsPath.basename <$> children fs d)
  else inl (OSError "listdir: not a directory").

(** [os.mkdir(p)] *)
Definition mkdir (p : path) (fs : FS) : exn + FS :=
  if exists_ fs p then inl (OSError "mkdir: file exists")
  else if isdir fs (OsPath.dirname p) then inr (<[p := Dir]> fs)
  else inl (OSError "mkdir: no such directory").

(** [open(p, 'w')], [f.write(content)] and close *)
Definition write_text (p : path) (content : string) (fs : FS) : exn + FS :=
  if isdir fs p then inl (OSError "open: is a directory")
  else if isdir fs (OsPath.dirname p) then inr (<[p := File content]> fs)
  else inl (OSError "open: no such directory").

(** [os.chmod(p, mode)]: modes are not part of the model. *)
Definition chmod (p : path) (fs : FS) : exn + FS :=
  if exists_ fs p then inr fs else inl (OSError "chmod: no such file").

(** The part of the file system at or below [p]. *)
Definition below (p : path) (q : path) : Prop := p `prefix_of` q.

(** [os.rename(src, dst)]: a file replaces what is at [dst]; a directory
    goes with everything below it. *)
Definition rename (src dst : path) (fs : FS) : FS :=
  match fs !! src with
  | Some (File c) => <[dst := File c]> (delete src fs)
  | _ =>
      list_to_map
        ((λ '(q, n), (dst ++ drop (length src) q, n))
           <$> filter (λ qn, below src qn.1) (map_to_list fs))
      ∪ filter (λ qn, ¬ below src qn.1) fs
  end.

(** [shutil.move(src, dst)]: into [dst] when it is a directory (an entry
    of the same name there is an error), to the name [dst] otherwise. *)
Definition move (src dst : path) (fs : FS) : exn + FS :=
  if negb (exists_ fs src) then inl (OSError "move: no such file")
  else if isdir fs dst then
    let real_dst := OsPath.join dst (OsPath.basename src) in
    if exists_ fs real_dst then inl (ShutilError "Destination path already exists")
    else inr (rename src real_dst fs)
  else if isdir fs (OsPath.dirname dst) then inr (rename src dst fs)
  else inl (OSError "move: no such directory").

(** [shutil.rmtree(p)], as the temporary directory does when it is left *)
Definition rmtree (p : path) (fs : FS) : FS :=
  filter (λ qn, ¬ below p qn.1) fs.

End Os.

(** ** What a run does: the world and its effects *)

Inductive event : Type :=
| EvReadBuildFile (p : path)
| EvPrint (msg : string)
| EvMkdtemp (p : path)
| EvRmtree (p : path)
| EvMkdir (p : path)
| EvWrite (p : path) (content : string)
| EvChmod (p : path)
| EvFetch (name spec : string) (r : exn + SemVer)
| EvLoadChangelog (deps_dir : path)
| EvGetChangelog
| EvInstallTogether (archives : list path) (dest : path)
| EvInstallSeparately (archives : list path) (dest : path)
| EvWriteChangelog (dir : path)
| EvWritePortingGuide (dir : path)
| EvSdist (dir : path)
| EvMove (src dst : path)
| EvWriteDeps (p : path) (ansible_version ansible_base_version : string)
              (deps : list (string * string))
| EvSaveChangelog.

Global Instance event_eq_dec : EqDecision event.
Proof. solve_decision. Defined.

(** The file system, and the effects that took place, oldest first: each
    file-system change, each call of a collaborator that returned, each
    fetch that ran to its end. *)
Record world : Type := mkWorld {
  fs : FS;
  log : list event
}.

Definition emit (ev : event) (w : world) : world :=
  mkWorld (fs w) (log w ++ [ev]).

(** *** Sequential code: state and exceptions *)

Definition E (A : Type) : Type := world → (exn + A) * world.

Definition retE {A} (a : A) : E A := λ w, (inr a, w).
Definition raiseE {A} (e : exn) : E A := λ w, (inl e, w).
Definition bindE {A B} (m : E A) (k : A → E B) : E B :=
  λ w, match m w with
       | (inr a, w') => k a w'
       | (inl e, w') => (inl e, w')
       end.

(** A pure step that can raise. *)
Definition pure {A} (r : exn + A) : E A := λ w, (r, w).

(** A step that reads the file system. *)
Definition reads {A} (ev : option event) (f : FS → exn + A) : E A :=
  λ w, match f (fs w) with
       | inr a => (inr a, match ev with Some ev => emit ev w | None => w end)
       | inl e => (inl e, w)
       end.

(** A step that changes the file system; it is logged when it returns. *)
Definition effect {A} (ev : event) (f : FS → exn + (A * FS)) : E A :=
  λ w, match f (fs w) with
       | inr (a, fs') => (inr a, mkWorld fs' (log w ++ [ev]))
       | inl e => (inl e, w)
       end.

Definition effect_ (ev : event) (f : FS → exn + FS) : E unit :=
  effect ev (λ s, match f s with inr s' => inr (tt, s') | inl e => inl e end).

Definition print (msg : string) : E unit := λ w, (inr tt, emit (EvPrint msg) w).

(** [for x in l: body x] *)
Fixpoint for_each {A} (l : list A) (body : A → E unit) : E unit :=
  match l with
  | [] => retE tt
  | x :: r => bindE (body x) (λ _, for_each r body)
  end.

(** *** Code that waits on a pool: it may also never return *)

Inductive outcome (A : Type) : Type :=
| Ok (a : A) (w : world)
| Raise (e : exn) (w : world)
| Hang (w : world).
Global Arguments Ok {A} a w.
Global Arguments Raise {A} e w.
Global Arguments Hang {A} w.

Definition M (A : Type) : Type := world → outcome A.

Definition retM {A} (a : A) : M A := λ w, Ok a w.
Definition bindM {A B} (m : M A) (k : A → M B) : M B :=
  λ w, match m w with
       | Ok a w' => k a w'
       | Raise e w' => Raise e w'
       | Hang w' => Hang w'
       end.
Definition lift {A} (m : E A) : M A :=
  λ w, match m w with
       | (inr a, w') => Ok a w'
       | (inl e, w') => Raise e w'
       end.

(** The value a run returned, if it returned one. *)
Definition returned {A} (o : outcome A) : option A :=
  match o with Ok a _ => Some a | _ => None end.

Definition final {A} (o : outcome A) : world :=
  match o with Ok _ w | Raise _ w | Hang w => w end.

Declare Scope E_scope.
Delimit Scope E_scope with E.
Declare Scope M_scope.
Delimit Scope M_scope with M.
Notation "x <- m ;; k" := (bindE m (λ x, k))
  (at level 100, m at next level, right associativity) : E_scope.
Notation "m ;; k" := (bindE m (λ _, k))
  (at level 100, right associativity) : E_scope.
Notation "x <- m ;; k" := (bindM (lift m%E) (λ x, k))
  (at level 100, m at next level, right associativity) : M_scope.
Notation "m ;; k" := (bindM (lift m%E) (λ _, k))
  (at level 100, right associativity) : M_scope.
Notation "x <<- m ;; k" := (bindM m (λ x, k))
  (at level 100, m at next level, right associativity) : M_scope.

(** ** asyncio and asyncio_pool

    One event loop runs the tasks of a pool. A task is admitted by
    [spawn] when the pool's semaphore has a free slot, and finishes at a
    moment the event loop chooses: the [picks] of a suspension point say which
    of the running tasks finish while the caller is suspended there, one
    number per finishing task (its position among the running ones, modulo
    their number). A task takes effect on the shared state when it finishes;
    its result, or the exception it raised, is kept in its future. *)

Module Asyncio.
(** A task: the coroutine, run on the shared state when it finishes. *)
Abbreviation task S R := (S → (exn + R) * S)%type.

Section Loop.
Context {S R : Type}.

Record loop : Type := mkLoop {
  running : list (nat * task S R);     (* admitted and not finished, by future *)
  futures : gmap nat (exn + R);    (* what each finished task left *)
  finished : list nat;             (* the finished futures, oldest first *)
  spawned : nat;                   (* the futures created so far *)
  shared : S
}.

Definition new_loop (s : S) : loop := mkLoop [] ∅ [] 0 s.

(** One running task finishes. *)
Definition complete (pick : nat) (l : loop) : option nat * loop :=
  let i := pick mod length (running l) in
  match running l !! i with
  | Some (fut, t) =>
      let '(r, s') := t (shared l) in
      (Some fut,
       mkLoop (delete i (running l)) (<[fut := r]> (futures l))
              (finished l ++ [fut]) (spawned l) s')
  | None => (None, l)
  end.

Definition completes (picks : list nat) (l : loop) : loop :=
  foldl (λ l p, (complete p l).2) l picks.

(** [await pool.spawn(coro)] on a pool of [size] slots: with a free slot
    the task is admitted at once; otherwise the caller waits for a
    running task to finish (at least one does, the oldest if the schedule
    names none). With no slot ever free the caller waits for ever
    ([inl]). *)
Definition spawn (size : nat) (picks : list nat) (t : task S R) (l : loop)
  : loop + (nat * loop) :=
  let l1 :=
    if decide (length (running l) < size) then l
    else completes (match picks with [] => [0] | _ => picks end) l in
  if decide (length (running l1) < size) then
    inr (spawned l1,
         mkLoop (running l1 ++ [(spawned l1, t)]) (futures l1) (finished l1)
                (Datatypes.S (spawned l1)) (shared l1))
  else inl l1.

(** The picks that let every running task finish. *)
Definition to_the_end (picks : list nat) (l : loop) : list nat :=
  picks ++ replicate (length (running l)) 0.

(** [await pool.join()], also run when the [async with] block of the pool
    is left: every running task finishes. *)
Definition join (picks : list nat) (l : loop) : loop :=
  completes (to_the_end picks l) l.

(** [asyncio.gather] of the [children], without [return_exceptions]. *)
Record gathering : Type := mkGathering {
  nfinished : nat;
  outer : option (exn + list R)    (* the result of the gather, once set *)
}.

(** [fut.result()] of every child, in the order of the arguments. *)
Definition results (children : list nat) (l : loop) : option (list R) :=
  mapM (λ c, match futures l !! c with Some (inr r) => Some r | _ => None end)
       children.

(** [_done_callback(fut)]: the first exception seen settles the gather;
    the last child to finish settles it with the list of results. *)
Definition done_callback (children : list nat) (l : loop) (fut : nat)
           (g : gathering) : gathering :=
  let n := Datatypes.S (nfinished g) in
  match outer g with
  | Some _ => mkGathering n (outer g)
  | None =>
      match futures l !! fut with
      | Some (inl e) => mkGathering n (Some (inl e))
      | _ =>
          if decide (n = length children)
          then mkGathering n (inr <$> results children l)
          else mkGathering n None
      end
  end.

Definition gather_step (children : list nat) (gl : gathering * loop)
           (pick : nat) : gathering * loop :=
  match complete pick gl.2 with
  | (Some fut, l') =>
      (if decide (fut ∈ children) then done_callback children l' fut gl.1
       else gl.1, l')
  | (None, l') => (gl.1, l')
  end.

(** [await asyncio.gather] of the [children], followed by the exit of the pool.
    The callbacks of the children that are already done are called first,
    in the order of the arguments ([add_done_callback] on a finished future
    schedules the call at once); the callback of any other child is
    called when it finishes. The tasks still running when the gather is
    settled are not cancelled: the pool waits for them when it is left.
    [None]: the gather is never settled. *)
Definition gather (children : list nat) (picks : list nat) (l : loop)
  : option (exn + list R) * loop :=
  let g0 := mkGathering 0 (match children with [] => Some (inr []) | _ => None end) in
  let done := filter (λ c, is_Some (futures l !! c)) children in
  let g1 := foldl (λ g c, done_callback children l c g) g0 done in
  let gl := foldl (gather_step children) (g1, l) (to_the_end picks l) in
  (outer gl.1, gl.2).

End Loop.
Global Arguments loop : clear implicits.
Global Arguments gathering : clear implicits.
End Asyncio.

(** ** The application context and the collaborators *)

(** [app_context.app_ctx]: the fields of [extra] the build commands read,
    and the galaxy server. *)
Record AppCtx : Type := mkAppCtx {
  build_file : path;
  ansible_version : PypiVer;
  collection_cache : option path;
  debian : bool;
  dest_dir : path;
  deps_file : string;
  galaxy_url : string
}.

(** [app_context.lib_ctx] *)
Record LibCtx : Type := mkLibCtx {
  thread_max : nat
}.

(** The choices of the event loop: the picks of each suspension point of a
    pool, in the order the points are reached (one per [spawn], then the
    [gather]). [fetch_order] is for the pool of the downloads, [dist_order]
    for the pool of the per-collection distributions. *)
Record Scheduler : Type := mkScheduler {
  fetch_order : list (list nat);
  dist_order : list (list nat)
}.

(** What [download_latest_matching] returns. *)
Record DownloadResults : Type := mkDownloadResults {
  version : SemVer
}.

(** [galaxy.CollectionDownloader(aio_session, download_dir, ...)] *)
Record CollectionDownloader : Type := mkCollectionDownloader {
  dl_download_dir : path;
  dl_collection_cache : option path;
  dl_galaxy_server : string
}.

(** [dependency_files.DependencyFileData] *)
Record DependencyFileData : Type := mkDependencyFileData {
  data_ansible_version : string;
  data_ansible_base_version : string;
  data_deps : list (string * string)
}.

Definition path_str (p : path) : string := PyStr.join "/" p.

(** [sorted(d.items())] for a dictionary keyed by strings: the items by key
    (the keys of a dictionary differ, so the values are never compared). *)
Fixpoint insert_item {V} (x : string * V) (l : list (string * V)) : list (string * V) :=
  match l with
  | [] => [x]
  | y :: r => if String.leb x.1 y.1 then x :: y :: r else y :: insert_item x r
  end.

Definition sorted {V} (l : list (string * V)) : list (string * V) :=
  foldr insert_item [] l.

(** [filename.endswith(suffix)] and [filename.replace(old, new)] *)
Module PyStr2.
Definition endswith (s suffix : string) : bool :=
  String.prefix (String.rev suffix) (String.rev s).

Fixpoint replace_go (old new s : string) (skip : nat) {struct s} : string :=
  match s with
  | EmptyString => EmptyString
  | String a r =>
      match skip with
      | Datatypes.S k => replace_go old new r k
      | 0 =>
          if String.prefix old s
          then new +:+ replace_go old new r (String.length old - 1)
          else String a (replace_go old new r 0)
      end
  end.

(** for a non-empty [old] *)
Definition replace (s old new : string) : string := replace_go old new s 0.
End PyStr2.

Section Build.

(** The values of the changelog modules; the build passes them on. *)
Context {ChangelogData Changelog ReleaseNotes : Type}.

(** The collaborators. A collaborator that raises leaves the file system
    as it was. *)
Record Env : Type := mkEnv {
  (* BuildFile(path).parse() *)
  BuildFile_parse : path → FS → exn + (string * string * list (string * string));
  (* PypiVer(s) *)
  PypiVer_of : string → exn + PypiVer;
  (* downloader.download_latest_matching(name, spec): the registry as it
     is during the run, and what a successful download leaves on disk *)
  download_latest_matching :
    CollectionDownloader → string → string → exn + DownloadResults;
  archive_saved : CollectionDownloader → string → string → FS → FS;
  (* ChangelogData.ansible(deps_dir), .add_ansible_release(version, date,
     text), .changes.save() *)
  ChangelogData_ansible : path → FS → exn + ChangelogData;
  add_ansible_release : ChangelogData → string → string → string → exn + ChangelogData;
  changes_save : ChangelogData → FS → exn + FS;
  get_changelog : PypiVer → path → list DependencyFileData → option path →
                  ChangelogData → FS → exn + (Changelog * FS);
  (* ReleaseNotes *)
  ReleaseNotes_build : Changelog → exn + ReleaseNotes;
  changelog_filename : ReleaseNotes → string;
  porting_guide_filename : ReleaseNotes → string;
  write_changelog_to : ReleaseNotes → path → FS → exn + FS;
  write_porting_guide_to : ReleaseNotes → path → FS → exn + FS;
  (* collections.install_together, install_separately *)
  install_together : list path → path → FS → exn + FS;
  install_separately : list path → path → FS → exn + (list path * FS);
  (* get_antsibull_data(name), decoded; Template(text).render(vars) *)
  get_antsibull_data : string → exn + string;
  render : string → list (string * string) → exn + string;
  (* sh.python('setup.py', 'sdist', _cwd=dir) *)
  sdist : path → FS → exn + FS;
  (* DepsFile(path).write(ansible_version, ansible_base_version, deps) *)
  DepsFile_write : path → string → string → list (string * string) → FS → exn + FS;
  (* datetime.date.today(), datetime.datetime.utcnow().strftime(...) *)
  today : string;
  utcnow : string;
  (* the name tempfile chooses *)
  mkdtemp : FS → path
}.

Context (env : Env).

Definition write_file (p : path) (content : string) : E unit :=
  effect_ (EvWrite p content) (Os.write_text p content).

Definition mkdir (p : path) : E unit :=
  effect_ (EvMkdir p) (Os.mkdir p).

(** [with tempfile.TemporaryDirectory() as tmp_dir: body]: the directory
    is removed when the block is left, by a return or by an exception. *)
Definition TemporaryDirectory {A} (body : path → M A) : M A :=
  λ w,
    let tmp_dir := mkdtemp env (fs w) in
    match Os.mkdir tmp_dir (fs w) with
    | inl e => Raise e w
    | inr fs1 =>
        let leave w' :=
          mkWorld (Os.rmtree tmp_dir (fs w')) (log w' ++ [EvRmtree tmp_dir]) in
        match body tmp_dir (mkWorld fs1 (log w ++ [EvMkdtemp tmp_dir])) with
        | Ok a w' => Ok a (leave w')
        | Raise e w' => Raise e (leave w')
        | Hang w' => Hang w'
        end
    end.

(** *** Common code *)

(** What a loop that spawns tasks comes to. *)
Inductive spawn_result (A R : Type) : Type :=
| Blocked (l : Asyncio.loop world R)
| Failed (e : exn) (sched : list (list nat)) (l : Asyncio.loop world R)
| Spawned (a : A) (sched : list (list nat)) (l : Asyncio.loop world R).
Global Arguments Blocked {A R} l.
Global Arguments Failed {A R} e sched l.
Global Arguments Spawned {A R} a sched l.

(** The coroutine [downloader.download_latest_matching(name, spec)]. *)
Definition download_task (downloader : CollectionDownloader) (name spec : string)
  : Asyncio.task world DownloadResults :=
  λ w,
    let r := download_latest_matching env downloader name spec in
    (r,
     mkWorld (match r with
              | inr _ => archive_saved env downloader name spec (fs w)
              | inl _ => fs w
              end)
             (log w ++ [EvFetch name spec
                          (match r with inr x => inr (version x) | inl e => inl e end)])).

(** [for collection_name, version_spec in deps.items():
       requestors[collection_name] = await pool.spawn(...)] *)
Fixpoint spawn_downloads (size : nat) (sched : list (list nat))
         (downloader : CollectionDownloader) (deps : list (string * string))
         (requestors : list (string * nat)) (l : Asyncio.loop world DownloadResults)
  : spawn_result (list (string * nat)) DownloadResults :=
  match deps with
  | [] => Spawned requestors sched l
  | (collection_name, version_spec) :: deps' =>
      match Asyncio.spawn size (hd [] sched)
              (download_task downloader collection_name version_spec) l with
      | inl l' => Blocked l'
      | inr (fut, l') =>
          spawn_downloads size (tl sched) downloader deps'
            (PyDict.set collection_name fut requestors) l'
      end
  end.

(** [for collection_name, results in zip(requestors, responses):
       included_versions[collection_name] = results.version] *)
Definition collect_versions (requestors : list (string * nat))
           (responses : list DownloadResults) : list (string * SemVer) :=
  foldl (λ included_versions nr, PyDict.set nr.1 (version nr.2) included_versions)
        PyDict.empty (zip (PyDict.keys requestors) responses).

Definition download_collections (lib_ctx : LibCtx) (sched : list (list nat))
           (deps : list (string * string)) (galaxy_url : string)
           (download_dir : path) (collection_cache : option path)
  : M (list (string * SemVer)) :=
  λ w,
    let downloader := mkCollectionDownloader download_dir collection_cache galaxy_url in
    match spawn_downloads (thread_max lib_ctx) sched downloader deps
            PyDict.empty (Asyncio.new_loop w) with
    | Blocked l => Hang (Asyncio.shared l)
    | Failed e sched' l => Raise e (Asyncio.shared (Asyncio.join (hd [] sched') l))
    | Spawned requestors sched' l =>
        match Asyncio.gather (PyDict.values requestors) (hd [] sched') l with
        | (None, l') => Hang (Asyncio.shared l')
        | (Some (inl e), l') => Raise e (Asyncio.shared l')
        | (Some (inr responses), l') =>
            Ok (collect_versions requestors responses) (Asyncio.shared l')
        end
    end.

(** *** Single sdist for ansible *)

Definition copy_boilerplate_files (package_dir : path) : E unit :=
  (gpl_license <- pure (get_antsibull_data env "gplv3.txt") ;;
   write_file (OsPath.join package_dir "COPYING") gpl_license ;;
   readme <- pure (get_antsibull_data env "ansible-readme.rst") ;;
   write_file (OsPath.join package_dir "README.rst") readme)%E.

Definition newline : string := String "010"%char EmptyString.

Definition write_manifest (package_dir : path) (release_notes : option ReleaseNotes)
           (debian : bool) : E unit :=
  let manifest_file := OsPath.join package_dir "MANIFEST.in" in
  write_file manifest_file
    ("include COPYING" +:+ newline
     +:+ "include README" +:+ newline
     +:+ "include build-ansible.sh" +:+ newline
     +:+ (match release_notes with
          | Some rn =>
              "include " +:+ changelog_filename env rn +:+ newline
              +:+ "include " +:+ porting_guide_filename env rn +:+ newline
          | None => ""
          end)
     +:+ (if debian then "include debian/*" +:+ newline else "")
     +:+ "recursive-include ansible_collections/ **" +:+ newline).

Definition write_setup (ansible_version ansible_base_version : PypiVer)
           (collection_deps : string) (package_dir : path) : E unit :=
  let setup_filename := OsPath.join package_dir "setup.py" in
  (setup_tmpl <- pure (get_antsibull_data env "ansible-setup_py.j2") ;;
   setup_contents <- pure (render env setup_tmpl
                             [("version", PypiVer_str ansible_version);
                              ("ansible_base_version", PypiVer_str ansible_base_version);
                              ("collection_deps", collection_deps)]) ;;
   write_file setup_filename setup_contents)%E.

Definition write_python_build_files (ansible_version ansible_base_version : PypiVer)
           (collection_deps : string) (package_dir : path)
           (release_notes : option ReleaseNotes) (debian : bool) : E unit :=
  (copy_boilerplate_files package_dir ;;
   write_manifest package_dir release_notes debian ;;
   write_setup ansible_version ansible_base_version collection_deps package_dir)%E.

Definition write_debian_directory (ansible_version : PypiVer) (package_dir : path)
  : E unit :=
  let debian_dir := OsPath.join package_dir "debian" in
  let debian_files := ["changelog.j2"; "control"; "copyright"; "rules"] in
  (mkdir debian_dir ;;
   for_each debian_files (λ filename,
     let src_pkgfile := "debian/" +:+ filename in
     data <- pure (get_antsibull_data env src_pkgfile) ;;
     if PyStr2.endswith filename ".j2" then
       data' <- pure (render env data
                        [("version", PypiVer_str ansible_version);
                         ("date", utcnow env)]) ;;
       write_file (OsPath.join debian_dir (PyStr2.replace filename ".j2" "")) data'
     else
       write_file (OsPath.join debian_dir filename) data))%E.

Definition make_dist (ansible_dir dest_dir : path) : E unit :=
  (effect_ (EvSdist ansible_dir) (sdist env ansible_dir) ;;
   let dist_dir := OsPath.join ansible_dir "dist" in
   files <- reads None (Os.listdir dist_dir) ;;
   match files with
   | [file0] =>
       effect_ (EvMove (OsPath.join dist_dir file0) dest_dir)
               (Os.move (OsPath.join dist_dir file0) dest_dir)
   | _ => raiseE (Exception "python setup.py sdist should only have created one file")
   end)%E.

Definition write_build_script (ansible_version ansible_base_version : PypiVer)
           (package_dir : path) : E unit :=
  let build_ansible_filename := OsPath.join package_dir "build-ansible.sh" in
  (build_ansible_tmpl <- pure (get_antsibull_data env "build-ansible.sh.j2") ;;
   build_ansible_contents <-
     pure (render env build_ansible_tmpl
             [("version", PypiVer_str ansible_version);
              ("ansible_base_version", PypiVer_str ansible_base_version)]) ;;
   write_file build_ansible_filename build_ansible_contents ;;
   effect_ (EvChmod build_ansible_filename) (Os.chmod build_ansible_filename))%E.

(** The message printed when the build file is for another version. *)
Definition mismatch_message (app_ctx : AppCtx) (build_ansible_version : string) : string :=
  path_str (build_file app_ctx) +:+ " is for version " +:+ build_ansible_version
  +:+ " but we need " +:+ pretty (PypiVer_major (ansible_version app_ctx))
  +:+ "." +:+ pretty (PypiVer_minor (ansible_version app_ctx)).

(** [[p for f in os.listdir(download_dir)
       if os.path.isfile(p := os.path.join(download_dir, f))]] *)
Definition downloaded_files (download_dir : path) : E (list path) :=
  reads None (λ s,
    match Os.listdir download_dir s with
    | inr names => inr (filter (λ p, Os.isfile s p) (OsPath.join download_dir <$> names))
    | inl e => inl e
    end).

Definition build_single_command (app_ctx : AppCtx) (lib_ctx : LibCtx)
           (sched : Scheduler) : M Z :=
  (parsed <- reads (Some (EvReadBuildFile (build_file app_ctx)))
                   (BuildFile_parse env (build_file app_ctx)) ;;
   let '(build_ansible_version, ansible_base_version, deps) := parsed in
   ansible_base_version <- pure (PypiVer_of env ansible_base_version) ;;
   if negb (PyStr.startswith (PypiVer_str (ansible_version app_ctx)) build_ansible_version)
   then
     print (mismatch_message app_ctx build_ansible_version) ;;
     retM 1%Z
   else
     carried <<- TemporaryDirectory (λ tmp_dir,
       let download_dir := OsPath.join tmp_dir "collections" in
       mkdir download_dir ;;
       (* Download included collections *)
       included_versions <<-
         download_collections lib_ctx (fetch_order sched) deps (galaxy_url app_ctx)
           download_dir (collection_cache app_ctx) ;;
       let new_dependencies :=
         mkDependencyFileData
           (PypiVer_str (ansible_version app_ctx))
           (PypiVer_str ansible_base_version)
           ((λ cv, (cv.1, SemVer_str cv.2)) <$> included_versions) in
       (* Get Ansible changelog, add new release *)
       let deps_dir := OsPath.dirname (build_file app_ctx) in
       ansible_changelog <- reads (Some (EvLoadChangelog deps_dir))
                                  (ChangelogData_ansible env deps_dir) ;;
       let date := today env in
       ansible_changelog <-
         pure (add_ansible_release env ansible_changelog
                 (PypiVer_str (ansible_version app_ctx)) date
                 ("Release Date: " +:+ date +:+ newline +:+ newline
                  +:+ "`Porting Guide <https://docs.ansible.com/ansible/devel/porting_guides.html>`_")) ;;
       (* Get changelog and porting guide data *)
       changelog <- effect EvGetChangelog
                      (get_changelog env (ansible_version app_ctx) deps_dir
                         [new_dependencies] (collection_cache app_ctx)
                         ansible_changelog) ;;
       (* Create package and collections directories *)
       let package_dir :=
         OsPath.join tmp_dir ("ansible-" +:+ PypiVer_str (ansible_version app_ctx)) in
       mkdir package_dir ;;
       let ansible_collections_dir := OsPath.join package_dir "ansible_collections" in
       mkdir ansible_collections_dir ;;
       (* Install collections *)
       collections_to_install <- downloaded_files download_dir ;;
       effect_ (EvInstallTogether collections_to_install ansible_collections_dir)
               (install_together env collections_to_install ansible_collections_dir) ;;
       (* Compose and write release notes *)
       release_notes <- pure (ReleaseNotes_build env changelog) ;;
       effect_ (EvWriteChangelog package_dir)
               (write_changelog_to env release_notes package_dir) ;;
       effect_ (EvWritePortingGuide package_dir)
               (write_porting_guide_to env release_notes package_dir) ;;
       (* Write build scripts and files *)
       write_build_script (ansible_version app_ctx) ansible_base_version package_dir ;;
       write_python_build_files (ansible_version app_ctx) ansible_base_version ""
         package_dir (Some release_notes) (debian app_ctx) ;;
       (if debian app_ctx
        then write_debian_directory (ansible_version app_ctx) package_dir
        else retE tt) ;;
       make_dist package_dir (dest_dir app_ctx) ;;
       retM (new_dependencies, ansible_changelog, release_notes, deps_dir)) ;;
     let '(new_dependencies, ansible_changelog, release_notes, deps_dir) := carried in
     let deps_filename := OsPath.join (dest_dir app_ctx) (deps_file app_ctx) in
     effect_ (EvWriteDeps deps_filename
                (data_ansible_version new_dependencies)
                (data_ansible_base_version new_dependencies)
                (data_deps new_dependencies))
             (DepsFile_write env deps_filename
                (data_ansible_version new_dependencies)
                (data_ansible_base_version new_dependencies)
                (data_deps new_dependencies)) ;;
     effect_ EvSaveChangelog (changes_save env ansible_changelog) ;;
     (* Write changelog and porting guide also to destination directory *)
     effect_ (EvWriteChangelog deps_dir)
             (write_changelog_to env release_notes deps_dir) ;;
     effect_ (EvWritePortingGuide deps_dir)
             (write_porting_guide_to env release_notes deps_dir) ;;
     retM 0%Z)%M.

(** *** Code to make one sdist per collection *)

Definition write_collection_readme (collection_name : string) (package_dir : path)
  : E unit :=
  (readme_tmpl <- pure (get_antsibull_data env "collection-readme.j2") ;;
   readme_contents <- pure (render env readme_tmpl [("collection_name", collection_name)]) ;;
   let readme_filename := OsPath.join package_dir "README.rst" in
   write_file readme_filename readme_contents)%E.

Definition write_collection_setup (name version : string) (package_dir : path)
  : E unit :=
  let setup_filename := OsPath.join package_dir "setup.py" in
  (setup_tmpl <- pure (get_antsibull_data env "collection-setup_py.j2") ;;
   setup_contents <- pure (render env setup_tmpl [("version", version); ("name", name)]) ;;
   write_file setup_filename setup_contents)%E.

Definition write_collection_manifest (package_dir : path) : E unit :=
  let manifest_file := OsPath.join package_dir "MANIFEST.in" in
  write_file manifest_file
    ("include README.rst" +:+ newline
     +:+ "recursive-include ansible_collections/ **" +:+ newline).

Definition make_collection_dist (name version : string) (package_dir dest_dir : path)
  : E unit :=
  ((* Copy boilerplate into place *)
   write_collection_readme name package_dir ;;
   write_collection_setup name version package_dir ;;
   write_collection_manifest package_dir ;;
   (* Create the python sdist *)
   effect_ (EvSdist package_dir) (sdist env package_dir) ;;
   let dist_dir := OsPath.join package_dir "dist" in
   files <- reads None (Os.listdir dist_dir) ;;
   match files with
   | [file0] =>
       let dist_file := OsPath.join dist_dir file0 in
       effect_ (EvMove dist_file dest_dir) (Os.move dist_file dest_dir)
   | _ => raiseE (Exception "python setup.py sdist should only have created one file")
   end)%E.

(** [dummy_, dummy_, name, version = dir_name_only.split('-', 3)] *)
Definition unpack_name_version (dir_name_only : string) : exn + (string * string) :=
  match PyStr.split "-"%char dir_name_only 3 with
  | [_; _; name; version] => inr (name, version)
  | _ => inl (ValueError "not enough values to unpack (expected 4)")
  end.

(** [for collection_dir in collection_dirs: ...
       dist_creators.append(await pool.spawn(make_collection_dist(...)))] *)
Fixpoint spawn_dists (size : nat) (sched : list (list nat)) (dest_dir : path)
         (collection_dirs : list path) (dist_creators : list nat)
         (l : Asyncio.loop world unit) : spawn_result (list nat) unit :=
  match collection_dirs with
  | [] => Spawned dist_creators sched l
  | collection_dir :: collection_dirs' =>
      let dir_name_only := OsPath.basename collection_dir in
      match unpack_name_version dir_name_only with
      | inl e => Failed e sched l
      | inr (name, version) =>
          match Asyncio.spawn size (hd [] sched)
                  (make_collection_dist name version collection_dir dest_dir) l with
          | inl l' => Blocked l'
          | inr (fut, l') =>
              spawn_dists size (tl sched) dest_dir collection_dirs'
                (dist_creators ++ [fut]) l'
          end
      end
  end.

(** An exception in the loop leaves the [async with] block of the pool,
    which waits for the tasks already spawned. *)
Definition make_collection_dists (lib_ctx : LibCtx) (sched : list (list nat))
           (dest_dir : path) (collection_dirs : list path) : M unit :=
  λ w,
    match spawn_dists (thread_max lib_ctx) sched dest_dir collection_dirs []
            (Asyncio.new_loop w) with
    | Blocked l => Hang (Asyncio.shared l)
    | Failed e sched' l => Raise e (Asyncio.shared (Asyncio.join (hd [] sched') l))
    | Spawned dist_creators sched' l =>
        match Asyncio.gather dist_creators (hd [] sched') l with
        | (None, l') => Hang (Asyncio.shared l')
        | (Some (inl e), l') => Raise e (Asyncio.shared l')
        | (Some (inr _), l') => Ok tt (Asyncio.shared l')
        end
    end.

(** [f"        '{collection}>={version},<{version.next_major()}'"] *)
Definition collection_dep (collection : string) (version : SemVer) : string :=
  "        '" +:+ collection +:+ ">=" +:+ SemVer_str version
  +:+ ",<" +:+ SemVer_str (next_major version) +:+ "'".

(** The list of dependent collection packages, as [build_multiple_command]
    constructs it for the setup script of the ansible package. *)
Definition collection_deps_list (included_versions : list (string * SemVer))
  : list string :=
  (λ cv, collection_dep cv.1 cv.2) <$> sorted (PyDict.items included_versions).

Definition collection_deps (included_versions : list (string * SemVer)) : string :=
  newline +:+ PyStr.join ("," +:+ newline) (collection_deps_list included_versions).

Definition build_multiple_command (app_ctx : AppCtx) (lib_ctx : LibCtx)
           (sched : Scheduler) : M Z :=
  (parsed <- reads (Some (EvReadBuildFile (build_file app_ctx)))
                   (BuildFile_parse env (build_file app_ctx)) ;;
   let '(build_ansible_version, ansible_base_version, deps) := parsed in
   ansible_base_version <- pure (PypiVer_of env ansible_base_version) ;;
   if negb (PyStr.startswith (PypiVer_str (ansible_version app_ctx)) build_ansible_version)
   then
     print (mismatch_message app_ctx build_ansible_version) ;;
     retM 1%Z
   else
     included_versions <<- TemporaryDirectory (λ tmp_dir,
       let download_dir := OsPath.join tmp_dir "collections" in
       mkdir download_dir ;;
       included_versions <<-
         download_collections lib_ctx (fetch_order sched) deps (galaxy_url app_ctx)
           download_dir (collection_cache app_ctx) ;;
       collections_to_install <- downloaded_files download_dir ;;
       collection_dirs <-
         effect (EvInstallSeparately collections_to_install download_dir)
                (install_separately env collections_to_install download_dir) ;;
       _ <<- make_collection_dists lib_ctx (dist_order sched) (dest_dir app_ctx)
               collection_dirs ;;
       (* Create the ansible package that deps on the collections we just wrote *)
       let package_dir :=
         OsPath.join tmp_dir ("ansible-" +:+ PypiVer_str (ansible_version app_ctx)) in
       mkdir package_dir ;;
       let ansible_collections_dir := OsPath.join package_dir "ansible_collections" in
       mkdir ansible_collections_dir ;;
       (* Construct the list of dependent collection packages *)
       let collection_deps := collection_deps included_versions in
       write_build_script (ansible_version app_ctx) ansible_base_version package_dir ;;
       write_python_build_files (ansible_version app_ctx) ansible_base_version
         collection_deps package_dir None false ;;
       make_dist package_dir (dest_dir app_ctx) ;;
       retM included_versions) ;;
     (* Write the deps file *)
     let deps_filename := OsPath.join (dest_dir app_ctx) (deps_file app_ctx) in
     effect_ (EvWriteDeps deps_filename
                (PypiVer_str (ansible_version app_ctx))
                (PypiVer_str ansible_base_version)
                ((λ cv, (cv.1, SemVer_str cv.2)) <$> included_versions))
             (DepsFile_write env deps_filename
                (PypiVer_str (ansible_version app_ctx))
                (PypiVer_str ansible_base_version)
                ((λ cv, (cv.1, SemVer_str cv.2)) <$> included_versions)) ;;
     retM 0%Z)%M.

End Build.

Global Arguments Env : clear implicits.

(** ** A small world to run the code in *)

Module Sample.

(** A registry where the collections [a] and [b] cannot be fetched. *)
Definition registry (name : string) : exn + DownloadResults :=
  if decide (name = "a") then inl (External "a failed")
  else if decide (name = "b") then inl (External "b failed")
  else inr (mkDownloadResults (mkSemVer 1 2 3 [] [])).

(** Collaborators that succeed, but for [changes.save()] when [save_ok] is
    false. The build file declares [declared] and [deps]; the sdist build
    leaves in [dist] one file for each suffix of [outputs], named after
    the package directory. *)
Definition sample_env (declared : string) (deps : list (string * string))
           (save_ok : bool) (outputs : list string) : Env unit unit unit :=
  {| BuildFile_parse := λ _ _, inr (declared, "2.10.1", deps);
     PypiVer_of := λ _, inr (mkPypiVer 0 [2; 10; 1] "");
     download_latest_matching := λ _ name _, registry name;
     archive_saved := λ d name _ s,
       <[OsPath.join (dl_download_dir d) (name +:+ ".tar.gz") := File name]> s;
     ChangelogData_ansible := λ _ _, inr tt;
     add_ansible_release := λ _ _ _ _, inr tt;
     changes_save := λ _ s, if save_ok then inr s else inl (External "save failed");
     get_changelog := λ _ _ _ _ _ s, inr (tt, s);
     ReleaseNotes_build := λ _, inr tt;
     changelog_filename := λ _, "CHANGELOG.rst";
     porting_guide_filename := λ _, "porting_guide.rst";
     write_changelog_to := λ _ d s,
       inr (<[OsPath.join d "CHANGELOG.rst" := File "changelog"]> s);
     write_porting_guide_to := λ _ d s,
       inr (<[OsPath.join d "porting_guide.rst" := File "porting guide"]> s);
     install_together := λ _ _ s, inr s;
     install_separately := λ _ d s,
       inr ([OsPath.join d "ansible-collections-community.general-1.2.3"],
            <[OsPath.join d "ansible-collections-community.general-1.2.3" := Dir]> s);
     get_antsibull_data := λ n, inr n;
     render := λ t _, inr t;
     sdist := λ d s,
       inr (foldr (λ o s,
                     <[OsPath.join (OsPath.join d "dist") (OsPath.basename d +:+ o)
                       := File o]> s)
                  (<[OsPath.join d "dist" := Dir]> s) outputs);
     DepsFile_write := λ p _ _ _ s, inr (<[p := File "deps"]> s);
     today := "2020-09-22";
     utcnow := "Tue, 22 Sep 2020 00:00:00 +0000";
     mkdtemp := λ _, ["tmp"; "build"] |}.

Definition fs0 : FS :=
  list_to_map [([], Dir); (["tmp"], Dir); (["out"], Dir); (["data"], Dir);
               (["data"; "ansible.build"], File "_ansible_version: 2.1")].

Definition w0 : world := mkWorld fs0 [].

(** Building ansible 2.11.0 from [data/ansible.build] into [out]. *)
Definition ctx : AppCtx :=
  mkAppCtx ["data"; "ansible.build"] (mkPypiVer 0 [2; 11; 0] "") None false
           ["out"] "ansible.deps" "https://galaxy.ansible.com".

Definition v123 : SemVer := mkSemVer 1 2 3 [] [].

(** Requests the registry resolves, and requests of which two fail. *)
Definition deps_cd : list (string * string) := [("c", ">=1.0.0"); ("d", "*")].
Definition deps_abc : list (string * string) :=
  [("a", "*"); ("b", "*"); ("c", ">=1.0.0")].
Definition deps_ab : list (string * string) := [("a", "*"); ("b", "*")].

Definition env : Env unit unit unit := sample_env "2.1" deps_cd true [".tar.gz"].

Definition downloader : CollectionDownloader :=
  mkCollectionDownloader ["tmp"; "collections"] None "https://galaxy.ansible.com".

End Sample.

(** ** Vocabulary of the statements *)

(** *** Tasks whose result does not depend on the shared state *)

Section Observed.
Context {St R X : Type}.
(** The result of each future, the trace kept in the shared state, the
    entry a task adds to the trace, and the trace before the loop ran. *)
Context (res : nat → exn + R) (tr : St → list X) (ev : nat → X) (tr0 : list X).

Definition faithful (fut : nat) (t : Asyncio.task St R) : Prop :=
  ∀ s, (t s).1 = res fut ∧ tr (t s).2 = tr s ++ [ev fut].

(** The futures created so far are running or finished, each once; the
    future of a finished task holds its result; the trace has one entry
    for each finished task, in the order they finished. *)
Record loop_inv (l : Asyncio.loop St R) : Prop := mkLoopInv {
  inv_perm :
    (Asyncio.running l).*1 ++ Asyncio.finished l ≡ₚ seq 0 (Asyncio.spawned l);
  inv_running :
    ∀ i fut t, Asyncio.running l !! i = Some (fut, t) → faithful fut t;
  inv_futures :
    ∀ fut, Asyncio.futures l !! fut
           = if decide (fut ∈ Asyncio.finished l) then Some (res fut) else None;
  inv_trace : tr (Asyncio.shared l) = tr0 ++ (ev <$> Asyncio.finished l)
}.

Definition failure (fut : nat) : option exn :=
  match res fut with inl e => Some e | inr _ => None end.

Definition success (fut : nat) : option R :=
  match res fut with inr r => Some r | inl _ => None end.

(** The exception of the first task of [order] that raised. *)
Definition first_failure (order : list nat) : option exn :=
  head (omap failure order).

(** The order in which a gather that starts in [l] and ends in [l'] sees
    its children finish: those already finished when it starts, as they
    come in its arguments; then the others, as they finish. *)
Definition observed (children : list nat) (l l' : Asyncio.loop St R) : list nat :=
  filter (λ c, c ∈ Asyncio.finished l) children
  ++ filter (λ c, c ∈ children)
            (drop (length (Asyncio.finished l)) (Asyncio.finished l')).

(** What a gather that has seen the children of [called] finish holds. *)
Definition gather_state (children called : list nat) : option (exn + list R) :=
  match first_failure called with
  | Some e => Some (inl e)
  | None =>
      if decide (length called = length children)
      then inr <$> mapM success children
      else None
  end.

Definition gather_inv (children called : list nat) (g : Asyncio.gathering R) : Prop :=
  Asyncio.nfinished g = length called
  ∧ Asyncio.outer g = gather_state children called.
End Observed.

(** *** The downloads *)

Section DownloadVocabulary.
Context {ChangelogData Changelog ReleaseNotes : Type}.
Context (env : Env ChangelogData Changelog ReleaseNotes).
Context (downloader : CollectionDownloader) (deps : list (string * string)).

(** What the registry answers to the request of future [fut]: the futures
    are numbered as the requests are spawned, from 0. *)
Definition fetch_result (fut : nat) : exn + DownloadResults :=
  match deps !! fut with
  | Some (name, spec) => download_latest_matching env downloader name spec
  | None => inl (Exception "no such request")
  end.

Definition fetch_event (fut : nat) : event :=
  match deps !! fut with
  | Some (name, spec) =>
      EvFetch name spec
        (match download_latest_matching env downloader name spec with
         | inr x => inr (version x)
         | inl e => inl e
         end)
  | None => EvPrint ""
  end.

(** Every request can be resolved. *)
Definition all_resolved : Prop :=
  ∀ name spec, (name, spec) ∈ deps →
    ∃ r, download_latest_matching env downloader name spec = inr r.

(** The version the registry resolves each request to, by name, in the
    order of the requests. *)
Definition resolved : list (string * SemVer) :=
  omap (λ ns, match download_latest_matching env downloader ns.1 ns.2 with
              | inr r => Some (ns.1, version r)
              | inl _ => None
              end) deps.
End DownloadVocabulary.

(** The exception of the first fetch that failed, in the order in which
    the fetches finished. *)
Definition first_failed_fetch (evs : list event) : option exn :=
  head (omap (λ ev, match ev with EvFetch _ _ (inl e) => Some e | _ => None end) evs).

(** *** The dependency file and the log *)

(** The entries of the log that write the dependency file. *)
Definition is_manifest (ev : event) : bool :=
  match ev with EvWriteDeps _ _ _ _ => true | _ => false end.

(** [w'] comes after [w], and the dependency file was not written in
    between. *)
Definition grows (w w' : world) : Prop :=
  ∃ evs, log w' = log w ++ evs ∧ Forall (λ ev, is_manifest ev = false) evs.

(** Code that does not write the dependency file, however it ends. *)
Definition quietE {A} (m : E A) : Prop := ∀ w, grows w (m w).2.
Definition quietM {A} (m : M A) : Prop := ∀ w, grows w (final (m w)).

Definition quiet_loop {R} (l : Asyncio.loop world R) : Prop :=
  ∀ i fut t, Asyncio.running l !! i = Some (fut, t) → quietE t.

(** The loop a spawning loop has come to. *)
Definition spawn_result_loop {A R} (r : spawn_result A R) : Asyncio.loop world R :=
  match r with Blocked l | Failed _ _ l | Spawned _ _ l => l end.



(** *** The dist directory *)

(** What [make_dist] and [make_collection_dist] do once the sdist is built. *)
Definition collect_dist (dist_dir dest_dir : path) : E unit :=
  (files <- reads None (Os.listdir dist_dir) ;;
   match files with
   | [file0] =>
       effect_ (EvMove (OsPath.join dist_dir file0) dest_dir)
               (Os.move (OsPath.join dist_dir file0) dest_dir)
   | _ => raiseE (Exception "python setup.py sdist should only have created one file")
   end)%E.


(** *** The check of the version *)

(** The [major.minor] of a version, as the message of the check prints it. *)
Definition major_minor (v : PypiVer) : string :=
  pretty (PypiVer_major v) +:+ "." +:+ pretty (PypiVer_minor v).

(** *** The outcome of a run and what it leaves *)

(** A run that has come to an end: it returned or raised. *)
Definition ended {A} (o : outcome A) : Prop :=
  match o with Hang _ => False | _ => True end.

(** Nothing is left in [s] at or below [d]. *)
Definition removed (d : path) (s : FS) : Prop :=
  ∀ p, d `prefix_of` p → s !! p = None.

(** The items of a mapping, by ascending key. *)
Definition by_key {V} (x y : string * V) : Prop := String.leb x.1 y.1 = true.

(** The text of a file written line by line. *)
Definition lines_text (lines : list string) : string :=
  foldr (λ line text, line +:+ newline +:+ text) "" lines.

Section BuildVocabulary.
Context {ChangelogData Changelog ReleaseNotes : Type}.
Context (env : Env ChangelogData Changelog ReleaseNotes).

(** The lines of the [MANIFEST.in] of the ansible package. *)
Definition manifest_lines (release_notes : option ReleaseNotes) (debian : bool)
  : list string :=
  ["include COPYING"; "include README"; "include build-ansible.sh"]
  ++ match release_notes with
     | Some rn => ["include " +:+ changelog_filename env rn;
                   "include " +:+ porting_guide_filename env rn]
     | None => []
     end
  ++ (if debian then ["include debian/*"] else [])
  ++ ["recursive-include ansible_collections/ **"].

(** The entry of the log for the fetch of a request. *)
Definition request_event (d : CollectionDownloader) (ns : string * string) : event :=
  EvFetch ns.1 ns.2
    (match download_latest_matching env d ns.1 ns.2 with
     | inr x => inr (version x)
     | inl e => inl e
     end).
End BuildVocabulary.

(** * Properties *)

Example split_example :
  PyStr.split "-"%char "ansible-collections-community.general-1.2.0-rc1" 3
  = ["ansible"; "collections"; "community.general"; "1.2.0-rc1"].
Proof. reflexivity. Qed.

Example PypiVer_str_example : PypiVer_str (mkPypiVer 0 [2; 11; 0] "") = "2.11.0".
Proof. vm_compute. reflexivity. Qed.

Example SemVer_str_example :
  SemVer_str (mkSemVer 1 2 3 ["rc"; "1"] []) = "1.2.3-rc.1".
Proof. vm_compute. reflexivity. Qed.

(** ** Strings *)

Section Split.
Variable sep : ascii.

Lemma split_nonempty s n : PyStr.split sep s n ≠ [].
Proof.
  revert n. induction s as [|a r IH]; intros n; simpl; [done|].
  destruct n; [done|]. destruct (Ascii.eqb a sep); [done|].
  destruct (PyStr.split sep r (S n)); done.
Qed.

(** The number of fields: one more than the cuts, and there are as many
    cuts as separators, up to [maxsplit]. *)
Lemma split_length s n :
  length (PyStr.split sep s n) = S (PyStr.count sep s `min` n).
Proof.
  revert n. induction s as [|a r IH]; intros n; simpl; [done|].
  destruct n as [|n]; simpl; [by rewrite Nat.min_0_r|].
  destruct (Ascii.eqb a sep); simpl.
  - by rewrite IH.
  - specialize (IH (S n)).
    destruct (PyStr.split sep r (S n)) eqn:Hs; simpl in *; [done|]. done.
Qed.

(** Joining the fields with the separator gives the string back. *)
Lemma split_join s n :
  PyStr.join (String sep EmptyString) (PyStr.split sep s n) = s.
Proof.
  revert n. induction s as [|a r IH]; intros n; simpl; [done|].
  destruct n as [|n]; simpl; [done|].
  destruct (Ascii.eqb a sep) eqn:Ha; simpl.
  - apply Ascii.eqb_eq in Ha as ->.
    specialize (IH n). pose proof (split_nonempty r n) as Hne.
    destruct (PyStr.split sep r n) as [|h t]; [done|].
    unfold PyStr.join in *. simpl in *. by rewrite IH.
  - specialize (IH (S n)). pose proof (split_nonempty r (S n)) as Hne.
    destruct (PyStr.split sep r (S n)) as [|h t]; [done|].
    unfold PyStr.join in *. simpl in *.
    destruct t; simpl in *; by rewrite <- IH.
Qed.

(** No field but the last holds a separator. *)
Lemma split_fields s n :
  Forall (λ f, PyStr.count sep f = 0) (removelast (PyStr.split sep s n)).
Proof.
  revert n. induction s as [|a r IH]; intros n; simpl; [constructor|].
  destruct n as [|n]; simpl; [constructor|].
  destruct (Ascii.eqb a sep) eqn:Ha.
  - pose proof (split_nonempty r n) as Hne. specialize (IH n).
    simpl. destruct (PyStr.split sep r n) eqn:Hs; [done|].
    constructor; [done|]. done.
  - pose proof (split_nonempty r (S n)) as Hne. specialize (IH (S n)).
    destruct (PyStr.split sep r (S n)) as [|h t] eqn:Hs; [done|].
    simpl in *. destruct t; [constructor|].
    inversion IH; subst. constructor; [|done]. simpl. by rewrite Ha.
Qed.
End Split.

(** ** The event loop *)

Section LoopFacts.
Context {St R : Type}.
Implicit Types (l : Asyncio.loop St R) (t : Asyncio.task St R).

Lemma complete_spawned pick l :
  Asyncio.spawned (Asyncio.complete pick l).2 = Asyncio.spawned l.
Proof.
  unfold Asyncio.complete.
  destruct (Asyncio.running l !! _) as [[fut t]|]; [|done].
  by destruct (t (Asyncio.shared l)).
Qed.

(** A finishing task leaves the running ones. *)
Lemma complete_running pick l :
  Asyncio.running l ≠ [] →
  ∃ fut, (Asyncio.complete pick l).1 = Some fut ∧
         S (length (Asyncio.running (Asyncio.complete pick l).2))
         = length (Asyncio.running l).
Proof.
  destruct l as [rs fu fi sp sh]. simpl. intros Hne.
  unfold Asyncio.complete. cbv zeta. simpl.
  assert (0 < length rs) as Hpos by (destruct rs; simpl; [done|lia]).
  assert (pick mod length rs < length rs) as Hlt.
  { apply Nat.mod_upper_bound. lia. }
  destruct (rs !! _) as [[fut t]|] eqn:Hl.
  - destruct (t sh) as [r s']. simpl. exists fut. split; [done|].
    rewrite length_delete; [|eauto]. lia.
  - apply lookup_ge_None in Hl. by apply Nat.lt_nge in Hlt.
Qed.

Lemma complete_idle pick l :
  Asyncio.running l = [] → Asyncio.complete pick l = (None, l).
Proof. intros Hr. unfold Asyncio.complete. cbv zeta. by rewrite Hr. Qed.

Lemma complete_running_le pick l :
  length (Asyncio.running (Asyncio.complete pick l).2) ≤ length (Asyncio.running l).
Proof.
  destruct (decide (Asyncio.running l = [])) as [He|Hne].
  - by rewrite complete_idle.
  - destruct (complete_running pick l Hne) as (? & _ & ?). lia.
Qed.

Lemma completes_running_le picks l :
  length (Asyncio.running (Asyncio.completes picks l)) ≤ length (Asyncio.running l).
Proof.
  revert l. induction picks as [|p picks IH]; intros l; simpl; [done|].
  etrans; [apply IH|]. apply complete_running_le.
Qed.

Lemma completes_spawned picks l :
  Asyncio.spawned (Asyncio.completes picks l) = Asyncio.spawned l.
Proof.
  revert l. induction picks as [|p picks IH]; intros l; simpl; [done|].
  by rewrite IH, complete_spawned.
Qed.

Lemma completes_app picks1 picks2 l :
  Asyncio.completes (picks1 ++ picks2) l
  = Asyncio.completes picks2 (Asyncio.completes picks1 l).
Proof. unfold Asyncio.completes. by rewrite foldl_app. Qed.

(** With one pick for each running task, none is left running. *)
Lemma completes_all n l :
  length (Asyncio.running l) ≤ n →
  Asyncio.running (Asyncio.completes (replicate n 0) l) = [].
Proof.
  revert l. induction n as [|n IH]; intros l Hl; simpl.
  - destruct (Asyncio.running l); [done|simpl in *; lia].
  - apply IH. destruct (decide (Asyncio.running l = [])) as [He|Hne].
    + rewrite complete_idle by done. simpl. rewrite He. simpl. lia.
    + destruct (complete_running 0 l Hne) as (? & _ & ?). lia.
Qed.

Lemma join_running picks l : Asyncio.running (Asyncio.join picks l) = [].
Proof.
  unfold Asyncio.join, Asyncio.to_the_end. rewrite completes_app.
  apply completes_all. apply completes_running_le.
Qed.

(** A pool with a slot to give never blocks a spawn, and never holds more
    tasks than it has slots. *)
Lemma spawn_admits size picks t l :
  0 < size → length (Asyncio.running l) ≤ size →
  ∃ l1, Asyncio.spawn size picks t l
        = inr (Asyncio.spawned l,
               Asyncio.mkLoop (Asyncio.running l1 ++ [(Asyncio.spawned l, t)])
                 (Asyncio.futures l1) (Asyncio.finished l1)
                 (S (Asyncio.spawned l)) (Asyncio.shared l1))
        ∧ length (Asyncio.running l1) < size
        ∧ (l1 = l ∨ ∃ picks', l1 = Asyncio.completes picks' l).
Proof.
  intros Hsize Hle. unfold Asyncio.spawn.
  destruct (decide (length (Asyncio.running l) < size)) as [Hfree|Hfull].
  - rewrite decide_True by done. exists l. eauto.
  - set (picks' := match picks with [] => [0] | _ => picks end).
    assert (length (Asyncio.running (Asyncio.completes picks' l)) < size) as Hlt.
    { assert (Asyncio.running l ≠ []) as Hne.
      { destruct (Asyncio.running l); simpl in *; [lia|done]. }
      assert (∃ p ps, picks' = p :: ps) as (p & ps & ->).
      { unfold picks'. destruct picks; eauto. }
      simpl. destruct (complete_running p l Hne) as (? & _ & Hlen).
      pose proof (completes_running_le ps (Asyncio.complete p l).2). lia. }
    rewrite decide_True by done. rewrite completes_spawned.
    exists (Asyncio.completes picks' l). eauto.
Qed.

End LoopFacts.

(** ** Tasks with a result of their own *)

Section PureTasks.
Context {St R X : Type}.
Context (res : nat → exn + R) (tr : St → list X) (ev : nat → X) (tr0 : list X).
Implicit Types (l : Asyncio.loop St R).

Local Abbreviation inv := (loop_inv res tr ev tr0).

Lemma inv_NoDup l :
  inv l → NoDup ((Asyncio.running l).*1 ++ Asyncio.finished l).
Proof. intros Hi. rewrite (inv_perm _ _ _ _ _ Hi). apply NoDup_seq. Qed.

Lemma inv_new s : tr s = tr0 → inv (Asyncio.new_loop s).
Proof.
  intros Hs. split; simpl; [done| |done|].
  - intros i fut t Hl. by rewrite lookup_nil in Hl.
  - by rewrite app_nil_r.
Qed.

(** A task that finishes was running, leaves its result in its future and
    its entry in the trace. *)
Lemma complete_inv pick l :
  inv l →
  inv (Asyncio.complete pick l).2
  ∧ match (Asyncio.complete pick l).1 with
    | Some fut =>
        Asyncio.finished (Asyncio.complete pick l).2 = Asyncio.finished l ++ [fut]
        ∧ fut ∉ Asyncio.finished l
    | None => Asyncio.complete pick l = (None, l)
    end.
Proof.
  intros Hi. pose proof (inv_NoDup l Hi) as Hnd.
  destruct Hi as [Hperm Hrun Hfut Htr].
  destruct l as [rs fu fi sp sh]. unfold Asyncio.complete. cbv zeta. simpl in *.
  destruct (rs !! _) as [[fut t]|] eqn:Hl; [|done].
  destruct (Hrun _ _ _ Hl sh) as [Hres Htrace].
  destruct (t sh) as [r s'] eqn:Ht. simpl in *. subst r.
  pose proof (delete_Permutation rs _ _ Hl) as Hdel.
  assert (fut ∉ fi) as Hfresh.
  { rewrite Hdel in Hnd. simpl in Hnd. apply NoDup_cons in Hnd as [Hnin _].
    intros Hin. apply Hnin. apply elem_of_app. by right. }
  split; [|done]. split; simpl.
  - rewrite <- Hperm.
    assert (rs.*1 ≡ₚ fut :: (delete (pick mod length rs) rs).*1) as ->.
    { by rewrite Hdel at 1. }
    simpl. rewrite (assoc (++)). symmetry. apply Permutation_cons_append.
  - intros i fut' t' Hl'. rewrite list_lookup_delete in Hl'.
    destruct (decide _); eauto.
  - intros fut'. destruct (decide (fut' = fut)) as [->|Hne].
    + rewrite lookup_insert_eq. rewrite decide_True; [done|].
      apply elem_of_app. right. by apply list_elem_of_singleton.
    + rewrite lookup_insert_ne by done. rewrite Hfut.
      destruct (decide (fut' ∈ fi)) as [Hin|Hnin].
      * rewrite decide_True; [done|]. apply elem_of_app. by left.
      * rewrite decide_False; [done|]. rewrite elem_of_app.
        rewrite list_elem_of_singleton. tauto.
  - rewrite Htrace, Htr, fmap_app. by rewrite (assoc (++)).
Qed.

Lemma completes_inv picks l :
  inv l →
  inv (Asyncio.completes picks l)
  ∧ ∃ newf, Asyncio.finished (Asyncio.completes picks l) = Asyncio.finished l ++ newf.
Proof.
  revert l. induction picks as [|p picks IH]; intros l Hi; simpl.
  - split; [done|]. exists []. by rewrite app_nil_r.
  - destruct (complete_inv p l Hi) as [Hi' Hc].
    destruct (IH _ Hi') as [Hi'' [newf Hnew]]. split; [done|].
    destruct (Asyncio.complete p l) as [[fut|] l1] eqn:Hcomp; simpl in *.
    + destruct Hc as [Hf _]. exists (fut :: newf).
      rewrite Hnew, Hf. by rewrite <- (assoc (++)).
    + inversion Hc; subst l1. eauto.
Qed.

(** Admitting a task whose result is the one of the next future. *)
Lemma admit_inv l t :
  inv l → faithful res tr ev (Asyncio.spawned l) t →
  inv (Asyncio.mkLoop (Asyncio.running l ++ [(Asyncio.spawned l, t)])
         (Asyncio.futures l) (Asyncio.finished l) (S (Asyncio.spawned l))
         (Asyncio.shared l)).
Proof.
  intros [Hperm Hrun Hfut Htr] Ht. split; [| |done|done].
  - cbn [Asyncio.running Asyncio.finished Asyncio.spawned].
    rewrite fmap_app, seq_S. simpl. rewrite <- Hperm.
    rewrite <- !(assoc (++)). apply Permutation_app_head. apply Permutation_app_comm.
  - simpl. intros i fut t' Hl. apply lookup_app_Some in Hl as [Hl|[_ Hl]]; [eauto|].
    apply list_lookup_singleton_Some in Hl as [_ Heq]. by inversion Heq; subst.
Qed.

Lemma spawn_inv size picks t l :
  0 < size → length (Asyncio.running l) ≤ size →
  inv l → faithful res tr ev (Asyncio.spawned l) t →
  ∃ l', Asyncio.spawn size picks t l = inr (Asyncio.spawned l, l')
        ∧ inv l' ∧ Asyncio.spawned l' = S (Asyncio.spawned l)
        ∧ length (Asyncio.running l') ≤ size.
Proof.
  intros Hsize Hle Hi Ht.
  destruct (spawn_admits size picks t l Hsize Hle) as (l1 & Hs & Hlt & Hl1).
  assert (inv l1 ∧ Asyncio.spawned l1 = Asyncio.spawned l) as [Hi1 Hsp].
  { destruct Hl1 as [->|[picks' ->]]; [done|].
    split; [by apply completes_inv|apply completes_spawned]. }
  eexists. split; [exact Hs|]. split; [|split; [done|]].
  - rewrite <- Hsp. apply admit_inv; [done|]. by rewrite Hsp.
  - simpl. rewrite length_app. simpl. lia.
Qed.

End PureTasks.

(** ** The gather *)

Section Gather.
Context {St R X : Type}.
Context (res : nat → exn + R) (tr : St → list X) (ev : nat → X) (tr0 : list X).
Implicit Types (l : Asyncio.loop St R) (children called : list nat).

Local Abbreviation inv := (loop_inv res tr ev tr0).

Lemma first_failure_app order1 order2 :
  first_failure res (order1 ++ order2)
  = match first_failure res order1 with
    | Some e => Some e
    | None => first_failure res order2
    end.
Proof.
  unfold first_failure. rewrite omap_app.
  by destruct (omap (failure res) order1).
Qed.

Lemma first_failure_None order :
  first_failure res order = None ↔ ∀ c, c ∈ order → ∃ r, res c = inr r.
Proof.
  unfold first_failure. induction order as [|c order IH]; simpl.
  - split; [|done]. intros _ c Hc. by apply elem_of_nil in Hc.
  - unfold failure at 1. destruct (res c) as [e|r] eqn:Hc; simpl.
    + split; [done|]. intros H. destruct (H c) as [r Hr]; [left|]. congruence.
    + rewrite IH. split.
      * intros H c' Hc'. apply elem_of_cons in Hc' as [->|?]; eauto.
      * intros H c' Hc'. apply H. by right.
Qed.

Lemma first_failure_Some order e :
  first_failure res order = Some e → ∃ c, c ∈ order ∧ res c = inl e.
Proof.
  unfold first_failure. induction order as [|c order IH]; simpl; [done|].
  unfold failure at 1. destruct (res c) as [e'|r] eqn:Hc; simpl.
  - intros [= ->]. exists c. split; [left|done].
  - intros H. destruct (IH H) as (c' & ? & ?). exists c'. split; [by right|done].
Qed.

Lemma first_failure_Permutation order1 order2 :
  order1 ≡ₚ order2 →
  first_failure res order1 = None → first_failure res order2 = None.
Proof.
  intros Hp. rewrite !first_failure_None. intros H c Hc. apply H. by rewrite Hp.
Qed.

(** Once every child has finished, their futures hold the results. *)
Lemma results_done children l :
  inv l → (∀ c, c ∈ children → c ∈ Asyncio.finished l) →
  Asyncio.results children l = mapM (success res) children.
Proof.
  intros Hi. unfold Asyncio.results.
  induction children as [|c children IH]; intros Hall; [done|].
  simpl. rewrite (inv_futures _ _ _ _ _ Hi), decide_True by (apply Hall; left).
  rewrite IH by (intros; apply Hall; by right). done.
Qed.

Lemma callback_inv children called fut g l :
  inv l → NoDup children → NoDup (called ++ [fut]) →
  (∀ c, c ∈ called ++ [fut] → c ∈ children ∧ c ∈ Asyncio.finished l) →
  gather_inv res children called g →
  gather_inv res children (called ++ [fut])
    (Asyncio.done_callback children l fut g).
Proof.
  intros Hi Hndc Hnd Hin [Hn Ho].
  assert (called ++ [fut] ⊆+ children) as Hsub.
  { apply NoDup_submseteq; [done|]. intros c Hc. by apply Hin. }
  pose proof (submseteq_length _ _ Hsub) as Hlen. rewrite length_app in Hlen.
  simpl in Hlen.
  assert (Asyncio.futures l !! fut = Some (res fut)) as Hfut.
  { rewrite (inv_futures _ _ _ _ _ Hi), decide_True; [done|].
    apply Hin. apply elem_of_app. right. by left. }
  unfold Asyncio.done_callback, gather_inv, gather_state in *. cbv zeta.
  rewrite first_failure_app, length_app. simpl.
  destruct (Asyncio.outer g) as [o|]; simpl.
  - split; [lia|]. destruct (first_failure res called) as [e|]; [done|].
    destruct (decide (length called = length children)); [lia|done].
  - destruct (first_failure res called) as [e|]; [done|].
    rewrite Hfut. unfold first_failure. simpl. unfold failure.
    destruct (res fut) as [e|r] eqn:Hres; simpl; [split; [lia|done]|].
    rewrite Hn. replace (length called + 1) with (S (length called)) by lia.
    destruct (decide (S (length called) = length children)) as [Heq|Hne];
      simpl; [|split; [lia|done]].
    split; [lia|]. f_equal. apply results_done; [done|].
    intros c Hc. apply Hin.
    assert (called ++ [fut] ≡ₚ children) as Hp.
    { apply submseteq_length_Permutation; [done|]. rewrite length_app. simpl. lia. }
    by rewrite Hp.
Qed.

(** The callbacks of the children that are already done. *)
Lemma callbacks_inv children l todo called g :
  inv l → NoDup children → NoDup (called ++ todo) →
  (∀ c, c ∈ called ++ todo → c ∈ children ∧ c ∈ Asyncio.finished l) →
  gather_inv res children called g →
  gather_inv res children (called ++ todo)
    (foldl (λ g c, Asyncio.done_callback children l c g) g todo).
Proof.
  intros Hi Hndc. revert called g.
  induction todo as [|c todo IH]; intros called g Hnd Hin Hg; simpl.
  - by rewrite app_nil_r.
  - rewrite cons_middle, (assoc (++)) in Hnd, Hin |- *.
    apply IH; [done|done|].
    apply callback_inv; [done|done| |..|done].
    + by apply NoDup_app in Hnd as [? _].
    + intros c' Hc'. apply Hin. apply elem_of_app. by left.
Qed.

Lemma gather_steps_loop children picks g l :
  (foldl (Asyncio.gather_step children) (g, l) picks).2 = Asyncio.completes picks l.
Proof.
  revert g l. induction picks as [|p picks IH]; intros g l; simpl; [done|].
  unfold Asyncio.gather_step at 2. simpl.
  destruct (Asyncio.complete p l) as [[fut|] l1]; simpl; apply IH.
Qed.

Lemma NoDup_seen (base newf done0 : list nat) (P : nat → Prop)
      `{∀ x, Decision (P x)} :
  NoDup (base ++ newf) → NoDup done0 → (∀ c, c ∈ done0 → c ∈ base) →
  NoDup (done0 ++ filter P newf).
Proof.
  intros Hnd Hd Hsub. apply NoDup_app in Hnd as (_ & Hdisj & Hn).
  apply NoDup_app. split; [done|]. split; [|by apply NoDup_filter].
  intros c Hc Hf. apply list_elem_of_filter in Hf as [_ Hf]. naive_solver.
Qed.

(** The tasks that finish while the gather waits. *)
Lemma gather_steps_inv children base done0 picks g l newf :
  NoDup children → NoDup done0 →
  (∀ c, c ∈ done0 → c ∈ children ∧ c ∈ base) →
  inv l → Asyncio.finished l = base ++ newf →
  gather_inv res children (done0 ++ filter (λ c, c ∈ children) newf) g →
  ∃ newf',
    inv (foldl (Asyncio.gather_step children) (g, l) picks).2
    ∧ Asyncio.finished (foldl (Asyncio.gather_step children) (g, l) picks).2
      = base ++ newf'
    ∧ gather_inv res children (done0 ++ filter (λ c, c ∈ children) newf')
        (foldl (Asyncio.gather_step children) (g, l) picks).1.
Proof.
  intros Hndc Hndd Hdone. revert g l newf.
  induction picks as [|p picks IH]; intros g l newf Hi Hfin Hg; simpl; [eauto|].
  destruct (complete_inv res tr ev tr0 p l Hi) as [Hi' Hc].
  unfold Asyncio.gather_step at 2 4 6. simpl.
  destruct (Asyncio.complete p l) as [[fut|] l1] eqn:Hcomp; simpl in *.
  - destruct Hc as [Hf Hfresh].
    apply (IH _ _ (newf ++ [fut])); [done|by rewrite Hf, Hfin, (assoc (++))|].
    rewrite filter_app, filter_cons, filter_nil.
    destruct (decide (fut ∈ children)) as [Hin|Hnin];
      [|by rewrite app_nil_r].
    rewrite (assoc (++)). apply callback_inv;
      [done|done| | |done].
    + apply NoDup_app. split; [|split; [|apply NoDup_singleton]].
      * apply NoDup_seen with (base := base); [|done|intros c' Hc'; by apply Hdone].
        rewrite <- Hfin. pose proof (inv_NoDup res tr ev tr0 l Hi) as Hnd.
        by apply NoDup_app in Hnd as (_ & _ & ?).
      * intros c Hc Hs. apply list_elem_of_singleton in Hs as ->.
        apply Hfresh. rewrite Hfin. apply elem_of_app in Hc as [Hc|Hc].
        -- apply elem_of_app. left. by apply Hdone.
        -- apply elem_of_app. right. by apply list_elem_of_filter in Hc as [_ ?].
    + intros c Hc. rewrite Hf, Hfin.
      apply elem_of_app in Hc as [Hc|Hc].
      * apply elem_of_app in Hc as [Hc|Hc].
        -- destruct (Hdone c Hc). split; [done|]. rewrite !elem_of_app. auto.
        -- apply list_elem_of_filter in Hc as [? ?]. split; [done|].
           rewrite !elem_of_app. auto.
      * apply list_elem_of_singleton in Hc as ->. split; [done|].
        rewrite !elem_of_app. right. by apply list_elem_of_singleton.
  - inversion Hc; subst l1. by apply (IH _ _ newf).
Qed.

(** The gather: every task finishes; the gather holds the first failure
    it has seen or, when no child failed, the results of the children in
    the order of its arguments. *)
Lemma gather_spec children picks l :
  inv l → NoDup children → (∀ c, c ∈ children → c < Asyncio.spawned l) →
  ∃ l',
    Asyncio.gather children picks l
    = (match first_failure res (observed children l l') with
       | Some e => Some (inl e)
       | None => inr <$> mapM (success res) children
       end, l')
    ∧ l' = Asyncio.join picks l
    ∧ inv l' ∧ Asyncio.running l' = []
    ∧ Asyncio.spawned l' = Asyncio.spawned l
    ∧ (∃ newf, Asyncio.finished l' = Asyncio.finished l ++ newf)
    ∧ observed children l l' ≡ₚ children.
Proof.
  intros Hi Hndc Hlt. unfold Asyncio.gather. cbv zeta.
  set (g0 := Asyncio.mkGathering 0 _).
  set (done0 := filter (λ c, is_Some (Asyncio.futures l !! c)) children).
  assert (done0 = filter (λ c, c ∈ Asyncio.finished l) children) as Hdone0.
  { unfold done0. apply list_filter_iff. intros c.
    rewrite (inv_futures _ _ _ _ _ Hi). destruct (decide (c ∈ _)).
    - split; [done|eauto].
    - split; [by intros [? ?]|done]. }
  assert (∀ c, c ∈ done0 → c ∈ children ∧ c ∈ Asyncio.finished l) as Hdone.
  { intros c. rewrite Hdone0. intros Hc.
    by apply list_elem_of_filter in Hc as [? ?]. }
  assert (NoDup done0) as Hndd by (by apply NoDup_filter).
  assert (gather_inv res children [] g0) as Hg0.
  { split; [done|]. unfold gather_state, g0. simpl.
    by destruct children. }
  pose proof (callbacks_inv children l done0 [] g0 Hi Hndc Hndd Hdone Hg0)
    as Hg1. simpl in Hg1.
  set (g1 := foldl _ g0 done0) in *.
  destruct (gather_steps_inv children (Asyncio.finished l) done0
              (Asyncio.to_the_end picks l) g1 l [] Hndc Hndd)
    as (newf & Hi' & Hfin & Hg'); [done|done|by rewrite app_nil_r| |].
  { simpl. by rewrite app_nil_r. }
  pose proof (gather_steps_loop children (Asyncio.to_the_end picks l) g1 l) as Hl'.
  set (gl := foldl _ (g1, l) _) in *.
  assert (gl.2 = Asyncio.join picks l) as Hjoin by done.
  assert (Asyncio.running gl.2 = []) as Hrun.
  { rewrite Hjoin. apply join_running. }
  assert (Asyncio.spawned gl.2 = Asyncio.spawned l) as Hsp.
  { rewrite Hl'. apply completes_spawned. }
  assert (observed children l gl.2 = done0 ++ filter (λ c, c ∈ children) newf) as Hobs.
  { unfold observed. rewrite Hfin, drop_app_length. by rewrite Hdone0. }
  assert (observed children l gl.2 ≡ₚ children) as Hperm.
  { rewrite Hobs. apply NoDup_Permutation; [|done|].
    - apply NoDup_seen with (base := Asyncio.finished l); [|done|intros c' Hc'; by apply Hdone].
      rewrite <- Hfin. pose proof (inv_NoDup res tr ev tr0 _ Hi') as Hnd.
      by apply NoDup_app in Hnd as (_ & _ & ?).
    - intros c. split.
      + intros Hc. apply elem_of_app in Hc as [Hc|Hc]; [by apply Hdone|].
        by apply list_elem_of_filter in Hc as [? _].
      + intros Hc. assert (c ∈ Asyncio.finished gl.2) as Hcf.
        { pose proof (inv_perm _ _ _ _ _ Hi') as Hp. rewrite Hrun in Hp.
          simpl in Hp. rewrite Hp, Hsp. apply elem_of_seq.
          specialize (Hlt c Hc). lia. }
        rewrite Hfin in Hcf. apply elem_of_app.
        apply elem_of_app in Hcf as [Hcf|Hcf].
        * left. rewrite Hdone0. by apply list_elem_of_filter.
        * right. by apply list_elem_of_filter. }
  exists gl.2. split; [|eauto 10].
  f_equal. destruct Hg' as [_ ->]. unfold gather_state. rewrite <- Hobs.
  destruct (first_failure res _); [done|].
  rewrite decide_True; [done|]. by rewrite Hperm.
Qed.

End Gather.

(** ** Dictionaries *)

Section DictFacts.
Context {K V : Type} `{EqDecision K}.
Implicit Types (d : list (K * V)).

Lemma set_fresh k v d : k ∉ PyDict.keys d → PyDict.set k v d = d ++ [(k, v)].
Proof.
  unfold PyDict.keys. induction d as [|[k' v'] r IH]; simpl; [done|].
  intros Hk. apply not_elem_of_cons in Hk as [Hne Hk].
  destruct (decide (k = k')); [done|]. by rewrite IH.
Qed.

(** Filling a dictionary with keys that all differ appends the items. *)
Lemma foldl_set {A} (f : A → V) (l : list (K * A)) d :
  NoDup (PyDict.keys d ++ l.*1) →
  foldl (λ acc kv, PyDict.set kv.1 (f kv.2) acc) d l
  = d ++ ((λ kv, (kv.1, f kv.2)) <$> l).
Proof.
  revert d. induction l as [|[k a] l IH]; intros d Hnd; simpl.
  - by rewrite app_nil_r.
  - simpl in Hnd. rewrite set_fresh.
    + rewrite IH.
      * by rewrite <- (assoc (++)).
      * unfold PyDict.keys. rewrite fmap_app. simpl.
        by rewrite <- (assoc (++)).
    + apply NoDup_app in Hnd as (_ & Hdisj & _). intros Hk.
      apply (Hdisj k Hk). left.
Qed.

Lemma get_In k v d :
  NoDup (PyDict.keys d) → (k, v) ∈ d → PyDict.get k d = Some v.
Proof.
  unfold PyDict.keys. induction d as [|[k' v'] r IH]; simpl; intros Hnd Hin.
  - by apply elem_of_nil in Hin.
  - apply NoDup_cons in Hnd as [Hnin Hnd].
    apply elem_of_cons in Hin as [[= -> ->]|Hin].
    + by rewrite decide_True.
    + rewrite decide_False; [by apply IH|]. intros ->. apply Hnin.
      apply list_elem_of_fmap. by exists (k', v).
Qed.
End DictFacts.

(** ** The downloads *)

Section Downloads.
Context {ChangelogData Changelog ReleaseNotes : Type}.
Context (env : Env ChangelogData Changelog ReleaseNotes).
Context (downloader : CollectionDownloader) (deps : list (string * string)).
Context (w0 : world).

Local Abbreviation res := (fetch_result env downloader deps).
Local Abbreviation inv := (loop_inv res log (fetch_event env downloader deps) (log w0)).

Lemma download_task_faithful fut name spec :
  deps !! fut = Some (name, spec) →
  faithful res log (fetch_event env downloader deps) fut
    (download_task env downloader name spec).
Proof.
  intros Hfut w. unfold fetch_result, fetch_event, download_task. by rewrite Hfut.
Qed.

(** Every request is spawned, the futures are numbered in the order of
    the requests, and each name is bound to the future of its request. *)
Lemma spawn_downloads_spec size sched pre rest requestors l :
  0 < size → deps = pre ++ rest → NoDup (PyDict.keys deps) →
  inv l → Asyncio.spawned l = length pre →
  length (Asyncio.running l) ≤ size →
  requestors = zip pre.*1 (seq 0 (length pre)) →
  ∃ sched' l',
    spawn_downloads env size sched downloader rest requestors l
    = Spawned (zip deps.*1 (seq 0 (length deps))) sched' l'
    ∧ inv l' ∧ Asyncio.spawned l' = length deps
    ∧ length (Asyncio.running l') ≤ size.
Proof.
  intros Hsize. revert sched pre requestors l.
  induction rest as [|[name spec] rest IH];
    intros sched pre requestors l Hdeps Hnd Hi Hsp Hlen Hreq; simpl.
  - rewrite app_nil_r in Hdeps. subst pre requestors. by exists sched, l.
  - assert (deps !! Asyncio.spawned l = Some (name, spec)) as Hfut.
    { rewrite Hsp, Hdeps. by rewrite list_lookup_middle. }
    destruct (spawn_inv res log _ (log w0) size (hd [] sched) _ l Hsize Hlen Hi
                (download_task_faithful _ _ _ Hfut))
      as (l' & -> & Hi' & Hsp' & Hlen').
    apply (IH _ (pre ++ [(name, spec)])); try done.
    + by rewrite <- (assoc (++)).
    + rewrite Hsp', Hsp, length_app. simpl. lia.
    + rewrite set_fresh.
      * subst requestors. rewrite fmap_app, length_app. simpl.
        rewrite Nat.add_1_r, seq_S. simpl.
        rewrite zip_with_app by (by rewrite length_fmap, length_seq).
        by rewrite Hsp.
      * subst requestors deps. unfold PyDict.keys in *.
        rewrite fst_zip by (by rewrite length_fmap, length_seq).
        rewrite fmap_app in Hnd. apply NoDup_app in Hnd as (_ & Hdisj & _).
        intros Hin. apply (Hdisj _ Hin). simpl. left.
Qed.

Lemma fetch_successes pre rest rs :
  deps = pre ++ rest →
  mapM (success res) (seq (length pre) (length rest)) = Some rs →
  (λ nr, (nr.1, version nr.2)) <$> zip rest.*1 rs = resolved env downloader rest.
Proof.
  revert pre rs. induction rest as [|[name spec] rest IH]; intros pre rs Hdeps Hrs.
  - simpl in Hrs. by inversion Hrs.
  - assert (success res (length pre)
            = match download_latest_matching env downloader name spec with
              | inr r => Some r
              | inl _ => None
              end) as Hhere.
    { unfold success, fetch_result. rewrite Hdeps. by rewrite list_lookup_middle. }
    cbn [length seq mapM] in Hrs. rewrite Hhere in Hrs.
    unfold resolved. simpl.
    destruct (download_latest_matching env downloader name spec) as [e|r];
      simpl in *; [done|].
    destruct (mapM _ _) as [rs'|] eqn:Hrs'; simpl in *; [|done].
    inversion Hrs; subst rs. simpl. f_equal.
    apply (IH (pre ++ [(name, spec)])).
    + by rewrite <- (assoc (++)).
    + rewrite length_app. simpl. by rewrite Nat.add_1_r.
Qed.

Lemma all_resolved_success :
  all_resolved env downloader deps ↔
  ∀ c, c ∈ seq 0 (length deps) → ∃ r, res c = inr r.
Proof.
  unfold all_resolved, fetch_result. split.
  - intros Hall c Hc. apply elem_of_seq in Hc as [_ Hc]. simpl in Hc.
    destruct (lookup_lt_is_Some_2 deps c Hc) as [[name spec] Hl]. rewrite Hl.
    apply Hall. by apply list_elem_of_lookup_2 in Hl.
  - intros Hall name spec Hin. apply list_elem_of_lookup_1 in Hin as [c Hl].
    specialize (Hall c). rewrite Hl in Hall. apply Hall.
    apply elem_of_seq. apply lookup_lt_Some in Hl. lia.
Qed.

Lemma resolved_keys :
  all_resolved env downloader deps →
  PyDict.keys (resolved env downloader deps) = PyDict.keys deps.
Proof.
  unfold all_resolved, resolved, PyDict.keys.
  induction deps as [|[name spec] rest IH]; intros Hall; [done|]. simpl.
  destruct (Hall name spec) as [r ->]; [left|]. simpl. f_equal. apply IH.
  intros n s Hin. apply Hall. by right.
Qed.

Lemma resolved_In name spec r :
  all_resolved env downloader deps → (name, spec) ∈ deps →
  download_latest_matching env downloader name spec = inr r →
  (name, version r) ∈ resolved env downloader deps.
Proof.
  intros _ Hin Hr. unfold resolved. apply list_elem_of_omap.
  exists (name, spec). split; [done|]. simpl. by rewrite Hr.
Qed.

End Downloads.

Section DownloadCollections.
Context {ChangelogData Changelog ReleaseNotes : Type}.
Context (env : Env ChangelogData Changelog ReleaseNotes).

(** What [download_collections] comes to on a pool with at least one slot:
    it raises the first failure its gather sees, or returns the resolved
    versions by name; either way every fetch has run to its end. *)
Lemma download_collections_spec lib_ctx sched deps galaxy_url download_dir
      collection_cache w :
  0 < thread_max lib_ctx → NoDup (PyDict.keys deps) →
  let d := mkCollectionDownloader download_dir collection_cache galaxy_url in
  let children := seq 0 (length deps) in
  ∃ sched' l l',
    spawn_downloads env (thread_max lib_ctx) sched d deps PyDict.empty
      (Asyncio.new_loop w)
    = Spawned (zip deps.*1 children) sched' l
    ∧ l' = Asyncio.join (hd [] sched') l
    ∧ loop_inv (fetch_result env d deps) log (fetch_event env d deps) (log w) l'
    ∧ Asyncio.running l' = []
    ∧ Asyncio.finished l' ≡ₚ children
    ∧ observed children l l' ≡ₚ children
    ∧ download_collections env lib_ctx sched deps galaxy_url download_dir
        collection_cache w
      = match first_failure (fetch_result env d deps) (observed children l l') with
        | Some e => Raise e (Asyncio.shared l')
        | None => Ok (resolved env d deps) (Asyncio.shared l')
        end.
Proof.
  intros Hsize Hnd d children. subst children.
  set (children := seq 0 (length deps)).
  destruct (spawn_downloads_spec env d deps w (thread_max lib_ctx) sched [] deps
              PyDict.empty (Asyncio.new_loop w))
    as (sched' & l & Hspawn & Hi & Hsp & Hlen); try done.
  { by apply inv_new. }
  { simpl. lia. }
  fold children in Hspawn.
  assert (PyDict.values (zip deps.*1 children) = children) as Hvalues.
  { unfold PyDict.values, children. apply snd_zip.
    by rewrite length_fmap, length_seq. }
  destruct (gather_spec (fetch_result env d deps) log (fetch_event env d deps)
              (log w) children (hd [] sched') l Hi)
    as (l' & Hgather & Hjoin & Hi' & Hrun & Hsp' & _ & Hobs).
  { apply NoDup_seq. }
  { intros c Hc. apply elem_of_seq in Hc. lia. }
  exists sched', l, l'. split; [done|]. split; [done|]. split; [done|].
  split; [done|]. split.
  { pose proof (inv_perm _ _ _ _ _ Hi') as Hp. rewrite Hrun in Hp. simpl in Hp.
    by rewrite Hp, Hsp', Hsp. }
  split; [done|].
  unfold download_collections. fold d. rewrite Hspawn. cbv beta iota.
  rewrite Hvalues, Hgather.
  destruct (first_failure _ _) as [e|] eqn:Hff; [done|].
  assert (∀ c, c ∈ children → ∃ r, fetch_result env d deps c = inr r) as Hall.
  { intros c Hc. eapply first_failure_None; [exact Hff|]. by rewrite Hobs. }
  destruct (mapM _ children) as [rs|] eqn:Hrs; simpl.
  - f_equal. unfold collect_versions, PyDict.empty.
    pose proof (length_mapM _ _ _ Hrs) as Hlenrs.
    assert (PyDict.keys (zip deps.*1 children) = deps.*1) as ->.
    { unfold PyDict.keys, children. apply fst_zip.
      by rewrite length_fmap, length_seq. }
    rewrite (foldl_set version).
    + simpl. apply (fetch_successes env d deps [] deps rs); done.
    + simpl. rewrite fst_zip; [done|].
      rewrite <- Hlenrs. unfold children. by rewrite length_fmap, length_seq.
  - exfalso. assert (is_Some (mapM (success (fetch_result env d deps)) children))
      as [? ?]; [|congruence].
    apply mapM_is_Some. apply Forall_forall. intros c Hc.
    destruct (Hall c Hc) as [r Hr]. unfold success. simpl. rewrite Hr. eauto.
Qed.

End DownloadCollections.

Section DownloadClaims.
Context {ChangelogData Changelog ReleaseNotes : Type}.
Context (env : Env ChangelogData Changelog ReleaseNotes).

Lemma no_failure_all_resolved d deps order :
  order ≡ₚ seq 0 (length deps) →
  first_failure (fetch_result env d deps) order = None ↔ all_resolved env d deps.
Proof.
  intros Hp. rewrite first_failure_None, all_resolved_success.
  split; intros H c Hc; apply H; [by rewrite Hp|by rewrite <- Hp].
Qed.

(** C1. For a mapping of names to version constraints (each name once),
    [download_collections], on a pool with at least one slot, returns the
    names of the input in the order of the input, each with the version
    resolved for the request of that name, whatever the order in which the
    event loop lets the fetches finish ([sched]): when every request can
    be resolved it returns that mapping, and it never returns another one. *)
Theorem download_collections_by_name lib_ctx sched deps galaxy_url download_dir
        collection_cache w :
  0 < thread_max lib_ctx → NoDup (PyDict.keys deps) →
  let d := mkCollectionDownloader download_dir collection_cache galaxy_url in
  (all_resolved env d deps →
     ∃ w', download_collections env lib_ctx sched deps galaxy_url download_dir
             collection_cache w = Ok (resolved env d deps) w'
           ∧ PyDict.keys (resolved env d deps) = PyDict.keys deps
           ∧ ∀ name spec r,
               (name, spec) ∈ deps →
               download_latest_matching env d name spec = inr r →
               PyDict.get name (resolved env d deps) = Some (version r))
  ∧ (∀ m w', download_collections env lib_ctx sched deps galaxy_url download_dir
               collection_cache w = Ok m w' →
             all_resolved env d deps ∧ m = resolved env d deps).
Proof.
  intros Hsize Hnd d.
  destruct (download_collections_spec env lib_ctx sched deps galaxy_url
              download_dir collection_cache w Hsize Hnd)
    as (sched' & l & l' & _ & _ & _ & _ & _ & Hobs & Hrun).
  fold d in Hrun. split.
  - intros Hall. rewrite Hrun.
    rewrite (proj2 (no_failure_all_resolved d deps _ Hobs) Hall).
    eexists. split; [done|]. split; [by apply resolved_keys|].
    intros name spec r Hin Hr. apply get_In.
    + rewrite resolved_keys by done. done.
    + by apply (resolved_In env d deps name spec).
  - intros m w' Hok. rewrite Hrun in Hok.
    destruct (first_failure _ _) eqn:Hff; [done|]. inversion Hok; subst.
    split; [|done]. by apply (no_failure_all_resolved d deps _ Hobs).
Qed.

(** C2. Two runs of [download_collections] on the same requests and the
    same registry, on pools of different sizes (each with at least one
    slot) and with any two orders of completion, return the same mapping
    of names to versions, or both return none. *)
Theorem download_collections_pool_size lib_ctx1 lib_ctx2 sched1 sched2 deps
        galaxy_url download_dir collection_cache w :
  0 < thread_max lib_ctx1 → 0 < thread_max lib_ctx2 →
  thread_max lib_ctx1 ≠ thread_max lib_ctx2 →
  NoDup (PyDict.keys deps) →
  let d := mkCollectionDownloader download_dir collection_cache galaxy_url in
  returned (download_collections env lib_ctx1 sched1 deps galaxy_url download_dir
              collection_cache w)
  = returned (download_collections env lib_ctx2 sched2 deps galaxy_url
                download_dir collection_cache w)
  ∧ (all_resolved env d deps →
     returned (download_collections env lib_ctx1 sched1 deps galaxy_url
                 download_dir collection_cache w)
     = Some (resolved env d deps)).
Proof.
  intros Hsize1 Hsize2 _ Hnd d.
  destruct (download_collections_spec env lib_ctx1 sched1 deps galaxy_url
              download_dir collection_cache w Hsize1 Hnd)
    as (? & l1 & l1' & _ & _ & _ & _ & _ & Hobs1 & ->).
  destruct (download_collections_spec env lib_ctx2 sched2 deps galaxy_url
              download_dir collection_cache w Hsize2 Hnd)
    as (? & l2 & l2' & _ & _ & _ & _ & _ & Hobs2 & ->).
  fold d. split.
  - destruct (first_failure _ (observed _ l1 l1')) eqn:Hff1;
      destruct (first_failure _ (observed _ l2 l2')) eqn:Hff2; simpl; try done.
    + apply (no_failure_all_resolved d deps _ Hobs2) in Hff2.
      apply (no_failure_all_resolved d deps _ Hobs1) in Hff2. congruence.
    + apply (no_failure_all_resolved d deps _ Hobs1) in Hff1.
      apply (no_failure_all_resolved d deps _ Hobs2) in Hff1. congruence.
  - intros Hall. by rewrite (proj2 (no_failure_all_resolved d deps _ Hobs1) Hall).
Qed.

(** C3, as the code has it. If a fetch fails, [download_collections] (on a
    pool with at least one slot) fails: it raises the exception of a
    fetch that failed, namely the first failure its gather sees (the
    fetches that had already finished when the gather started, in the
    order of the requests, then the others in the order they finish); it
    returns no mapping; and every fetch runs to its end, none is
    cancelled: each request has its entry in the log. *)
Theorem download_collections_fail_together lib_ctx sched deps galaxy_url
        download_dir collection_cache w :
  0 < thread_max lib_ctx → NoDup (PyDict.keys deps) →
  let d := mkCollectionDownloader download_dir collection_cache galaxy_url in
  let children := seq 0 (length deps) in
  (∃ name spec e0,
      (name, spec) ∈ deps ∧ download_latest_matching env d name spec = inl e0) →
  ∃ sched' l l' e,
    spawn_downloads env (thread_max lib_ctx) sched d deps PyDict.empty
      (Asyncio.new_loop w)
    = Spawned (zip deps.*1 children) sched' l
    ∧ l' = Asyncio.join (hd [] sched') l
    ∧ download_collections env lib_ctx sched deps galaxy_url download_dir
        collection_cache w = Raise e (Asyncio.shared l')
    ∧ first_failure (fetch_result env d deps) (observed children l l') = Some e
    ∧ (∃ name spec,
          (name, spec) ∈ deps ∧ download_latest_matching env d name spec = inl e)
    ∧ Asyncio.running l' = []
    ∧ Asyncio.finished l' ≡ₚ children
    ∧ log (Asyncio.shared l')
      = log w ++ (fetch_event env d deps <$> Asyncio.finished l')
    ∧ ∀ name spec,
        (name, spec) ∈ deps →
        EvFetch name spec
          (match download_latest_matching env d name spec with
           | inr x => inr (version x)
           | inl e => inl e
           end) ∈ log (Asyncio.shared l').
Proof.
  intros Hsize Hnd d children (name0 & spec0 & e0 & Hin0 & Hfail0).
  destruct (download_collections_spec env lib_ctx sched deps galaxy_url
              download_dir collection_cache w Hsize Hnd)
    as (sched' & l & l' & Hspawn & Hjoin & Hi & Hrun & Hfin & Hobs & Hdc).
  fold d children in Hspawn, Hi, Hfin, Hobs, Hdc.
  destruct (first_failure (fetch_result env d deps) (observed children l l'))
    as [e|] eqn:Hff.
  - exists sched', l, l', e. repeat (split; [done|]).
    split; [|split; [exact Hrun|split; [exact Hfin|split]]].
    + apply first_failure_Some in Hff as (c & Hc & Hres). rewrite Hobs in Hc.
      unfold fetch_result in Hres.
      apply elem_of_seq in Hc as [_ Hc]. simpl in Hc.
      destruct (lookup_lt_is_Some_2 deps c Hc) as [[name spec] Hl].
      rewrite Hl in Hres.
      exists name, spec. split; [|done]. by apply list_elem_of_lookup_2 in Hl.
    + apply (inv_trace _ _ _ _ _ Hi).
    + intros name spec Hin. rewrite (inv_trace _ _ _ _ _ Hi).
      apply elem_of_app. right. apply list_elem_of_lookup_1 in Hin as [c Hl].
      apply list_elem_of_fmap. exists c. split.
      * unfold fetch_event. by rewrite Hl.
      * rewrite Hfin. apply elem_of_seq. apply lookup_lt_Some in Hl. lia.
  - apply (no_failure_all_resolved d deps _ Hobs) in Hff.
    destruct (Hff name0 spec0 Hin0) as [r Hr]. congruence.
Qed.

End DownloadClaims.

Lemma download_collections_by_name_witness :
  0 < thread_max (mkLibCtx 2) ∧ NoDup (PyDict.keys Sample.deps_cd)
  ∧ ∃ w', download_collections Sample.env (mkLibCtx 2) [[]; [1]] Sample.deps_cd
            "https://galaxy.ansible.com" ["tmp"; "collections"] None Sample.w0
          = Ok [("c", Sample.v123); ("d", Sample.v123)] w'.
Proof.
  split; [simpl; lia|]. split; [apply (bool_decide_unpack _); vm_compute; exact I|].
  destruct (download_collections_by_name Sample.env (mkLibCtx 2) [[]; [1]]
              Sample.deps_cd "https://galaxy.ansible.com" ["tmp"; "collections"]
              None Sample.w0) as [Hall _].
  - simpl; lia.
  - apply (bool_decide_unpack _); vm_compute; exact I.
  - destruct Hall as (w' & Hw & _).
    + intros name spec Hin. apply list_elem_of_In in Hin. simpl in Hin.
      destruct Hin as [[= <- <-]|[[= <- <-]|[]]]; eexists; reflexivity.
    + exists w'. exact Hw.
Defined.

Lemma download_collections_pool_size_witness :
  0 < thread_max (mkLibCtx 1) ∧ 0 < thread_max (mkLibCtx 2)
  ∧ thread_max (mkLibCtx 1) ≠ thread_max (mkLibCtx 2)
  ∧ NoDup (PyDict.keys Sample.deps_cd)
  ∧ returned (download_collections Sample.env (mkLibCtx 1) [] Sample.deps_cd
                "https://galaxy.ansible.com" ["tmp"; "collections"] None Sample.w0)
    = returned (download_collections Sample.env (mkLibCtx 2) [[]; []; [1; 0]]
                  Sample.deps_cd "https://galaxy.ansible.com"
                  ["tmp"; "collections"] None Sample.w0).
Proof.
  split; [simpl; lia|]. split; [simpl; lia|]. split; [simpl; discriminate|].
  split; [apply (bool_decide_unpack _); vm_compute; exact I|].
  destruct (download_collections_pool_size Sample.env (mkLibCtx 1) (mkLibCtx 2)
              [] [[]; []; [1; 0]] Sample.deps_cd "https://galaxy.ansible.com"
              ["tmp"; "collections"] None Sample.w0) as [Heq _].
  - simpl; lia.
  - simpl; lia.
  - simpl; discriminate.
  - apply (bool_decide_unpack _); vm_compute; exact I.
  - exact Heq.
Defined.

Lemma download_collections_fail_together_witness :
  0 < thread_max (mkLibCtx 2) ∧ NoDup (PyDict.keys Sample.deps_abc)
  ∧ (∃ name spec e0,
        (name, spec) ∈ Sample.deps_abc
        ∧ download_latest_matching Sample.env Sample.downloader name spec = inl e0)
  ∧ ∃ e w', download_collections Sample.env (mkLibCtx 2) [[]; []; [1; 0]]
              Sample.deps_abc "https://galaxy.ansible.com" ["tmp"; "collections"]
              None Sample.w0 = Raise e w'.
Proof.
  assert (∃ name spec e0,
             (name, spec) ∈ Sample.deps_abc
             ∧ download_latest_matching Sample.env Sample.downloader name spec = inl e0)
    as Hfails.
  { exists "a", "*", (External "a failed"). split; [left|reflexivity]. }
  split; [simpl; lia|]. split; [apply (bool_decide_unpack _); vm_compute; exact I|].
  split; [exact Hfails|].
  destruct (download_collections_fail_together Sample.env (mkLibCtx 2)
              [[]; []; [1; 0]] Sample.deps_abc "https://galaxy.ansible.com"
              ["tmp"; "collections"] None Sample.w0)
    as (sched' & l & l' & e & _ & _ & Hraise & _).
  - simpl; lia.
  - apply (bool_decide_unpack _); vm_compute; exact I.
  - exact Hfails.
  - exists e, (Asyncio.shared l'). exact Hraise.
Defined.

(** C3 as it is stated fails: the exception that is raised is not always
    the one of the fetch that failed first, and not always the one of the
    first request that failed. With two slots and the requests [a], [b],
    [c], where [b] fails, then [a], while the third spawn waits, [a]'s
    exception is raised; with the requests [a], [b], where [b] fails, then
    [a], while the gather waits, [b]'s exception is raised. *)
Lemma download_collections_first_error_counterexample :
  (∃ e w', download_collections Sample.env (mkLibCtx 2) [[]; []; [1; 0]]
             Sample.deps_abc "https://galaxy.ansible.com" ["tmp"; "collections"]
             None Sample.w0 = Raise e w'
           ∧ first_failed_fetch (log w') = Some (External "b failed")
           ∧ e = External "a failed")
  ∧ (∃ e w', download_collections Sample.env (mkLibCtx 2) [[]; []; [1; 0]]
               Sample.deps_ab "https://galaxy.ansible.com" ["tmp"; "collections"]
               None Sample.w0 = Raise e w'
             ∧ first_failure (fetch_result Sample.env Sample.downloader Sample.deps_ab)
                 (seq 0 (length Sample.deps_ab)) = Some (External "a failed")
             ∧ e = External "b failed").
Proof.
  split; eexists _, _; (split; [vm_compute; reflexivity|]);
    split; vm_compute; reflexivity.
Qed.

(** ** Code that leaves the dependency file alone *)

Section Quiet.

Lemma grows_refl w : grows w w.
Proof. exists []. by rewrite app_nil_r. Qed.

Lemma grows_trans w1 w2 w3 : grows w1 w2 → grows w2 w3 → grows w1 w3.
Proof.
  intros (evs1 & H1 & F1) (evs2 & H2 & F2). exists (evs1 ++ evs2).
  rewrite H2, H1, (assoc (++)). split; [done|]. by apply Forall_app.
Qed.

Lemma grows_emit ev w s :
  is_manifest ev = false → grows w (mkWorld s (log w ++ [ev])).
Proof. intros Hev. exists [ev]. split; [done|]. by constructor. Qed.

Lemma grows_elem_of ev w w' : grows w w' → ev ∈ log w → ev ∈ log w'.
Proof. intros (evs & -> & _) Hin. apply elem_of_app. by left. Qed.

Lemma quiet_retE {A} (a : A) : quietE (retE a).
Proof. intros w. apply grows_refl. Qed.

Lemma quiet_raiseE {A} e : quietE (@raiseE A e).
Proof. intros w. apply grows_refl. Qed.

Lemma quiet_pure {A} (r : exn + A) : quietE (pure r).
Proof. intros w. apply grows_refl. Qed.

Lemma quiet_bindE {A B} (m : E A) (k : A → E B) :
  quietE m → (∀ a, quietE (k a)) → quietE (bindE m k).
Proof.
  intros Hm Hk w. unfold bindE. specialize (Hm w).
  destruct (m w) as [[e|a] w']; simpl in *; [done|].
  eapply grows_trans; [done|apply Hk].
Qed.

Lemma quiet_reads {A} (ev : option event) (f : FS → exn + A) :
  from_option is_manifest false ev = false → quietE (reads ev f).
Proof.
  intros Hev w. unfold reads. destruct (f (fs w)); simpl; [apply grows_refl|].
  destruct ev as [ev|]; [|apply grows_refl]. destruct w. by apply grows_emit.
Qed.

Lemma quiet_effect {A} (ev : event) (f : FS → exn + (A * FS)) :
  is_manifest ev = false → quietE (effect ev f).
Proof.
  intros Hev w. unfold effect. destruct (f (fs w)) as [e|[a s]]; simpl.
  - apply grows_refl.
  - by apply grows_emit.
Qed.

Lemma quiet_effect_ (ev : event) (f : FS → exn + FS) :
  is_manifest ev = false → quietE (effect_ ev f).
Proof. intros Hev. by apply quiet_effect. Qed.

Lemma quiet_print msg : quietE (print msg).
Proof. intros [s evs]. by apply grows_emit. Qed.

Lemma quiet_for_each {A} (l : list A) (body : A → E unit) :
  (∀ x, quietE (body x)) → quietE (for_each l body).
Proof.
  intros Hb. induction l as [|x l IH]; simpl; [apply quiet_retE|].
  apply quiet_bindE; [apply Hb|done].
Qed.

Lemma quiet_retM {A} (a : A) : quietM (retM a).
Proof. intros w. apply grows_refl. Qed.

Lemma quiet_lift {A} (m : E A) : quietE m → quietM (lift m).
Proof.
  intros Hm w. unfold lift. specialize (Hm w).
  by destruct (m w) as [[e|a] w'].
Qed.

Lemma quiet_bindM {A B} (m : M A) (k : A → M B) :
  quietM m → (∀ a, quietM (k a)) → quietM (bindM m k).
Proof.
  intros Hm Hk w. unfold bindM. specialize (Hm w).
  destruct (m w) as [a w'|e w'|w']; simpl in *; [|done|done].
  eapply grows_trans; [done|apply Hk].
Qed.

(** *** The pools *)

Context {R : Type}.
Implicit Types (l : Asyncio.loop world R).

Lemma quiet_new w : quiet_loop (@Asyncio.new_loop world R w).
Proof. intros i fut t Hl. simpl in Hl. by rewrite lookup_nil in Hl. Qed.

Lemma complete_quiet pick l :
  quiet_loop l →
  quiet_loop (Asyncio.complete pick l).2
  ∧ grows (Asyncio.shared l) (Asyncio.shared (Asyncio.complete pick l).2).
Proof.
  intros Hq. unfold Asyncio.complete. cbv zeta.
  destruct (Asyncio.running l !! _) as [[fut t]|] eqn:Hl; simpl.
  - pose proof (Hq _ _ _ Hl (Asyncio.shared l)) as Hg.
    destruct (t (Asyncio.shared l)) as [r s']. simpl in *. split; [|done].
    intros i fut' t' Hl'. simpl in Hl'. rewrite list_lookup_delete in Hl'.
    destruct (decide _); eapply Hq; eauto.
  - split; [done|apply grows_refl].
Qed.

Lemma completes_quiet picks l :
  quiet_loop l →
  quiet_loop (Asyncio.completes picks l)
  ∧ grows (Asyncio.shared l) (Asyncio.shared (Asyncio.completes picks l)).
Proof.
  revert l. induction picks as [|p picks IH]; intros l Hq; simpl.
  - split; [done|apply grows_refl].
  - destruct (complete_quiet p l Hq) as [Hq' Hg'].
    destruct (IH _ Hq') as [Hq'' Hg'']. split; [done|].
    by eapply grows_trans.
Qed.

Lemma spawn_quiet size picks (t : Asyncio.task world R) l :
  quiet_loop l → quietE t →
  match Asyncio.spawn size picks t l with
  | inl l' => quiet_loop l' ∧ grows (Asyncio.shared l) (Asyncio.shared l')
  | inr fl => quiet_loop fl.2 ∧ grows (Asyncio.shared l) (Asyncio.shared fl.2)
  end.
Proof.
  intros Hq Ht. unfold Asyncio.spawn.
  set (l1 := if decide _ then l else _).
  assert (quiet_loop l1 ∧ grows (Asyncio.shared l) (Asyncio.shared l1)) as [Hq1 Hg1].
  { unfold l1. destruct (decide _); [split; [done|apply grows_refl]|].
    by apply completes_quiet. }
  clearbody l1.
  destruct (decide (length (Asyncio.running l1) < size)); simpl; [|by split].
  split; [|done].
  intros i fut t' Hl. simpl in Hl. apply lookup_app_Some in Hl as [Hl|[_ Hl]]; [by eapply Hq1|].
  apply list_lookup_singleton_Some in Hl as [_ Heq]. by inversion Heq; subst.
Qed.

Lemma join_quiet picks l :
  quiet_loop l → grows (Asyncio.shared l) (Asyncio.shared (Asyncio.join picks l)).
Proof. intros Hq. by apply completes_quiet. Qed.

Lemma gather_loop children picks l :
  (Asyncio.gather children picks l).2 = Asyncio.join picks l.
Proof. unfold Asyncio.gather. cbv zeta. simpl. apply gather_steps_loop. Qed.

Lemma gather_quiet children picks l :
  quiet_loop l →
  grows (Asyncio.shared l) (Asyncio.shared (Asyncio.gather children picks l).2).
Proof. intros Hq. rewrite gather_loop. by apply join_quiet. Qed.

End Quiet.

Create HintDb quiet.

Ltac quiet_step :=
  first
    [ apply quiet_retE | apply quiet_raiseE | apply quiet_pure | apply quiet_print
    | apply quiet_reads; reflexivity
    | apply quiet_effect_; reflexivity
    | apply quiet_effect; reflexivity
    | apply quiet_for_each; intros
    | apply quiet_bindE; [|intros]
    | apply quiet_retM
    | apply quiet_lift
    | apply quiet_bindM; [|intros]
    | match goal with
      | |- quietE (if ?b then _ else _) => destruct b
      | |- quietM (if ?b then _ else _) => destruct b
      | |- quietE (match ?x with _ => _ end) => destruct x
      | |- quietM (match ?x with _ => _ end) => destruct x
      end ].

Ltac quiet := repeat first [ solve [eauto with quiet nocore] | quiet_step ].

Section QuietBuild.
Context {ChangelogData Changelog ReleaseNotes : Type}.
Context (env : Env ChangelogData Changelog ReleaseNotes).

Lemma quiet_write_file p content : quietE (write_file p content).
Proof. unfold write_file. quiet. Qed.

Lemma quiet_mkdir p : quietE (mkdir p).
Proof. unfold mkdir. quiet. Qed.

Hint Resolve quiet_write_file quiet_mkdir : quiet.

Lemma quiet_copy_boilerplate_files package_dir :
  quietE (copy_boilerplate_files env package_dir).
Proof. unfold copy_boilerplate_files. quiet. Qed.

Lemma quiet_write_manifest package_dir release_notes debian :
  quietE (write_manifest env package_dir release_notes debian).
Proof. unfold write_manifest. quiet. Qed.

Lemma quiet_write_setup v bv collection_deps package_dir :
  quietE (write_setup env v bv collection_deps package_dir).
Proof. unfold write_setup. quiet. Qed.

Hint Resolve quiet_copy_boilerplate_files quiet_write_manifest quiet_write_setup
  : quiet.

Lemma quiet_write_python_build_files v bv collection_deps package_dir rn debian :
  quietE (write_python_build_files env v bv collection_deps package_dir rn debian).
Proof. unfold write_python_build_files. quiet. Qed.

Lemma quiet_write_debian_directory v package_dir :
  quietE (write_debian_directory env v package_dir).
Proof. unfold write_debian_directory. quiet. Qed.

Lemma quiet_make_dist ansible_dir dest_dir : quietE (make_dist env ansible_dir dest_dir).
Proof. unfold make_dist. quiet. Qed.

Lemma quiet_write_build_script v bv package_dir :
  quietE (write_build_script env v bv package_dir).
Proof. unfold write_build_script. quiet. Qed.

Lemma quiet_downloaded_files download_dir : quietE (downloaded_files download_dir).
Proof. unfold downloaded_files. quiet. Qed.

Lemma quiet_make_collection_dist name version package_dir dest_dir :
  quietE (make_collection_dist env name version package_dir dest_dir).
Proof.
  unfold make_collection_dist, write_collection_readme, write_collection_setup,
    write_collection_manifest. quiet.
Qed.

Lemma quiet_download_task downloader name spec :
  quietE (download_task env downloader name spec).
Proof. intros [s evs]. unfold download_task. simpl. by apply grows_emit. Qed.


Lemma spawn_downloads_quiet size sched downloader deps requestors l :
  quiet_loop l →
  quiet_loop (spawn_result_loop
                (spawn_downloads env size sched downloader deps requestors l))
  ∧ grows (Asyncio.shared l)
      (Asyncio.shared (spawn_result_loop
         (spawn_downloads env size sched downloader deps requestors l))).
Proof.
  revert sched requestors l.
  induction deps as [|[name spec] deps IH]; intros sched requestors l Hq; simpl.
  - split; [done|apply grows_refl].
  - pose proof (spawn_quiet size (hd [] sched)
                  (download_task env downloader name spec) l Hq
                  (quiet_download_task _ _ _)) as Hs.
    destruct (Asyncio.spawn _ _ _ l) as [l'|[fut l']]; simpl in *; [done|].
    destruct Hs as [Hq' Hg'].
    destruct (IH (tl sched) (PyDict.set name fut requestors) l' Hq') as [Hq'' Hg''].
    split; [done|]. by eapply grows_trans.
Qed.

Lemma quiet_download_collections lib_ctx sched deps galaxy_url download_dir cache :
  quietM (download_collections env lib_ctx sched deps galaxy_url download_dir cache).
Proof.
  intros w. unfold download_collections. cbv zeta.
  pose proof (spawn_downloads_quiet (thread_max lib_ctx) sched
                (mkCollectionDownloader download_dir cache galaxy_url) deps
                PyDict.empty (Asyncio.new_loop w) (quiet_new w)) as [Hq Hg].
  destruct (spawn_downloads _ _ _ _ _ _ _) as [l|e sched' l|requestors sched' l];
    simpl in Hq, Hg; cbv beta iota; [done| |].
  - eapply grows_trans; [done|]. by apply join_quiet.
  - pose proof (gather_quiet (PyDict.values requestors) (hd [] sched') l Hq) as Hg'.
    destruct (Asyncio.gather _ _ l) as [[[e|rs]|] l']; simpl in Hg' |- *;
      exact (grows_trans _ _ _ Hg Hg').
Qed.

Lemma spawn_dists_quiet size sched dest_dir dirs dist_creators l :
  quiet_loop l →
  quiet_loop (spawn_result_loop
                (spawn_dists env size sched dest_dir dirs dist_creators l))
  ∧ grows (Asyncio.shared l)
      (Asyncio.shared (spawn_result_loop
         (spawn_dists env size sched dest_dir dirs dist_creators l))).
Proof.
  revert sched dist_creators l.
  induction dirs as [|dir dirs IH]; intros sched dist_creators l Hq; simpl.
  - split; [done|apply grows_refl].
  - destruct (unpack_name_version _) as [e|[name version]]; simpl.
    { split; [done|apply grows_refl]. }
    pose proof (spawn_quiet size (hd [] sched)
                  (make_collection_dist env name version dir dest_dir) l Hq
                  (quiet_make_collection_dist _ _ _ _)) as Hs.
    destruct (Asyncio.spawn _ _ _ l) as [l'|[fut l']]; simpl in *; [done|].
    destruct Hs as [Hq' Hg'].
    destruct (IH (tl sched) (dist_creators ++ [fut]) l' Hq') as [Hq'' Hg''].
    split; [done|]. by eapply grows_trans.
Qed.

Lemma quiet_make_collection_dists lib_ctx sched dest_dir dirs :
  quietM (make_collection_dists env lib_ctx sched dest_dir dirs).
Proof.
  intros w. unfold make_collection_dists.
  pose proof (spawn_dists_quiet (thread_max lib_ctx) sched dest_dir dirs []
                (Asyncio.new_loop w) (quiet_new w)) as [Hq Hg].
  destruct (spawn_dists _ _ _ _ _ _ _) as [l|e sched' l|creators sched' l];
    simpl in Hq, Hg; cbv beta iota; [done| |].
  - eapply grows_trans; [done|]. by apply join_quiet.
  - pose proof (gather_quiet creators (hd [] sched') l Hq) as Hg'.
    destruct (Asyncio.gather _ _ l) as [[[e|rs]|] l']; simpl in Hg' |- *;
      exact (grows_trans _ _ _ Hg Hg').
Qed.

End QuietBuild.

Global Hint Resolve quiet_write_file quiet_mkdir quiet_copy_boilerplate_files
  quiet_write_manifest quiet_write_setup quiet_write_python_build_files
  quiet_write_debian_directory quiet_make_dist quiet_write_build_script
  quiet_downloaded_files quiet_make_collection_dist quiet_download_collections
  quiet_make_collection_dists : quiet.

(** ** Steps that returned *)

Section Returned.
Context {ChangelogData Changelog ReleaseNotes : Type}.
Context (env : Env ChangelogData Changelog ReleaseNotes).

Lemma bindM_lift_Ok {A B} (m : E A) (k : A → M B) w b w' :
  bindM (lift m) k w = Ok b w' →
  ∃ a w1, m w = (inr a, w1) ∧ k a w1 = Ok b w'.
Proof.
  unfold bindM, lift. destruct (m w) as [[e|a] w1]; [done|]. eauto.
Qed.

Lemma bindM_Ok {A B} (m : M A) (k : A → M B) w b w' :
  bindM m k w = Ok b w' → ∃ a w1, m w = Ok a w1 ∧ k a w1 = Ok b w'.
Proof. unfold bindM. destruct (m w) as [a w1|e w1|w1]; [eauto|done|done]. Qed.

Lemma bindE_ok {A B} (m : E A) (k : A → E B) w b w' :
  bindE m k w = (inr b, w') → ∃ a w1, m w = (inr a, w1) ∧ k a w1 = (inr b, w').
Proof. unfold bindE. destruct (m w) as [[e|a] w1]; [done|]. eauto. Qed.

Lemma quietE_grows {A} (m : E A) w r w' : quietE m → m w = (r, w') → grows w w'.
Proof. intros Hq Hm. specialize (Hq w). by rewrite Hm in Hq. Qed.

Lemma quietM_grows {A} (m : M A) w a w' : quietM m → m w = Ok a w' → grows w w'.
Proof. intros Hq Hm. specialize (Hq w). by rewrite Hm in Hq. Qed.

Lemma effect_ok {A} (ev : event) (f : FS → exn + (A * FS)) w a w' :
  effect ev f w = (inr a, w') →
  ∃ s, f (fs w) = inr (a, s) ∧ w' = mkWorld s (log w ++ [ev]).
Proof.
  unfold effect. destruct (f (fs w)) as [e|[a' s]]; [done|].
  intros [= <- <-]. eauto.
Qed.

Lemma effect_logged {A} (ev : event) (f : FS → exn + (A * FS)) w a w' :
  effect ev f w = (inr a, w') → ev ∈ log w'.
Proof.
  intros (s & _ & ->)%effect_ok. simpl. apply elem_of_app. right. left.
Qed.

Lemma effect__ok (ev : event) (f : FS → exn + FS) w (u : unit) w' :
  effect_ ev f w = (inr u, w') →
  ∃ s, f (fs w) = inr s ∧ w' = mkWorld s (log w ++ [ev]).
Proof.
  unfold effect_. intros (s & Hf & ->)%effect_ok.
  destruct (f (fs w)); [done|]. inversion Hf; subst. eauto.
Qed.


Lemma TemporaryDirectory_Ok {A} (body : path → M A) w a w' :
  TemporaryDirectory env body w = Ok a w' →
  ∃ fs1 w2,
    Os.mkdir (mkdtemp env (fs w)) (fs w) = inr fs1
    ∧ body (mkdtemp env (fs w))
           (mkWorld fs1 (log w ++ [EvMkdtemp (mkdtemp env (fs w))])) = Ok a w2
    ∧ w' = mkWorld (Os.rmtree (mkdtemp env (fs w)) (fs w2))
                   (log w2 ++ [EvRmtree (mkdtemp env (fs w))]).
Proof.
  unfold TemporaryDirectory. cbv zeta.
  destruct (Os.mkdir _ _) as [e|fs1]; [done|].
  destruct (body _ _) as [a' w2|e w2|w2] eqn:Hb; [|done|done].
  intros [= <- <-]. eauto.
Qed.

(** With no slot in the pool, a download that has a request never returns. *)
Lemma download_collections_no_slot lib_ctx sched deps galaxy_url download_dir cache
      w iv w' :
  thread_max lib_ctx = 0 →
  download_collections env lib_ctx sched deps galaxy_url download_dir cache w
  = Ok iv w' →
  deps = [].
Proof.
  intros Hsize. unfold download_collections. cbv zeta. rewrite Hsize.
  destruct deps as [|[name spec] deps]; [done|].
  cbn [spawn_downloads].
  destruct (Asyncio.spawn 0 _ _ _) as [l|[fut l]] eqn:Hs; [done|].
  unfold Asyncio.spawn in Hs.
  repeat (destruct (decide _) as [Hlt|_] in Hs; [lia|]). done.
Qed.

(** A download that returns has fetched every request, and returns the
    resolved versions. *)
Lemma download_collections_Ok lib_ctx sched deps galaxy_url download_dir cache
      w iv w' :
  NoDup (PyDict.keys deps) →
  download_collections env lib_ctx sched deps galaxy_url download_dir cache w
  = Ok iv w' →
  let d := mkCollectionDownloader download_dir cache galaxy_url in
  iv = resolved env d deps
  ∧ ∀ name spec, (name, spec) ∈ deps →
      ∃ r, download_latest_matching env d name spec = inr r
           ∧ EvFetch name spec (inr (version r)) ∈ log w'.
Proof.
  intros Hnd Hok d.
  destruct (decide (thread_max lib_ctx = 0)) as [Hz|Hnz].
  { pose proof (download_collections_no_slot _ _ _ _ _ _ _ _ _ Hz Hok) as ->.
    unfold download_collections in Hok. simpl in Hok.
    destruct (Asyncio.outer _) as [[e|rs]|]; inversion Hok; subst.
    split; [reflexivity|]. intros ? ? Hin. by apply elem_of_nil in Hin. }
  destruct (download_collections_spec env lib_ctx sched deps galaxy_url
              download_dir cache w) as (sched' & l & l' & _ & _ & Hi & _ & Hfin & Hobs & Hdc);
    [lia|done|].
  fold d in Hi, Hdc. rewrite Hdc in Hok.
  destruct (first_failure _ _) eqn:Hff; [done|]. inversion Hok; subst.
  split; [done|]. intros name spec Hin.
  apply (no_failure_all_resolved env d deps _ Hobs) in Hff.
  destruct (Hff name spec Hin) as [r Hr]. exists r. split; [done|].
  rewrite (inv_trace _ _ _ _ _ Hi). apply elem_of_app. right.
  apply list_elem_of_lookup_1 in Hin as [c Hl]. apply list_elem_of_fmap.
  exists c. split.
  - unfold fetch_event. rewrite Hl. by rewrite Hr.
  - rewrite Hfin. apply elem_of_seq. apply lookup_lt_Some in Hl. lia.
Qed.

End Returned.

Ltac invert_ok H :=
  repeat (first [ apply bindM_lift_Ok in H as (? & ? & ? & H)
                | apply bindM_Ok in H as (? & ? & ? & H) ];
          cbv beta zeta in H).

Ltac grow_steps :=
  repeat match goal with
    | H : ?m ?w = (inr _, ?w') |- _ =>
        lazymatch goal with
        | _ : grows w w' |- _ => fail
        | _ => assert (grows w w') by (eapply (quietE_grows m); [quiet|exact H])
        end
    | H : ?m ?w = Ok _ ?w' |- _ =>
        lazymatch goal with
        | _ : grows w w' |- _ => fail
        | _ => assert (grows w w') by (eapply (quietM_grows m); [quiet|exact H])
        end
    end.

Ltac grows_chain :=
  repeat first
    [ apply grows_refl
    | eassumption
    | match goal with
      | H : grows ?a ?b |- grows ?a _ =>
          assert_fails (unify a b); eapply grows_trans; [exact H|]
      end ].

Section Shapes.
Context {ChangelogData Changelog ReleaseNotes : Type}.
Context (env : Env ChangelogData Changelog ReleaseNotes).

Lemma bindM_lift_eq {A B} (m : E A) (k : A → M B) w :
  bindM (lift m) k w
  = match m w with (inr a, w') => k a w' | (inl e, w') => Raise e w' end.
Proof. unfold bindM, lift. by destruct (m w) as [[e|a] w']. Qed.

Lemma bindM_eq {A B} (m : M A) (k : A → M B) w :
  bindM m k w
  = match m w with Ok a w' => k a w' | Raise e w' => Raise e w' | Hang w' => Hang w' end.
Proof. done. Qed.





End Shapes.

Section ManifestClaims.
Context {ChangelogData Changelog ReleaseNotes : Type}.
Context (env : Env ChangelogData Changelog ReleaseNotes).


End ManifestClaims.



Section FileSystemFacts.

Lemma basename_join (d : path) f : OsPath.basename (OsPath.join d f) = f.
Proof. unfold OsPath.basename, OsPath.join. apply last_last. Qed.

Lemma dirname_join (d : path) f : OsPath.dirname (OsPath.join d f) = d.
Proof. unfold OsPath.dirname, OsPath.join. apply removelast_last. Qed.



End FileSystemFacts.

Section DistClaims.
Context {ChangelogData Changelog ReleaseNotes : Type}.
Context (env : Env ChangelogData Changelog ReleaseNotes).


Lemma make_collection_dist_collect name version package_dir dest_dir :
  make_collection_dist env name version package_dir dest_dir
  = (write_collection_readme env name package_dir ;;
     write_collection_setup env name version package_dir ;;
     write_collection_manifest package_dir ;;
     effect_ (EvSdist package_dir) (sdist env package_dir) ;;
     collect_dist (OsPath.join package_dir "dist") dest_dir)%E.
Proof. reflexivity. Qed.


End DistClaims.



Section Unpack.

Lemma unpack_short b :
  PyStr.count "-"%char b < 3 →
  unpack_name_version b = inl (ValueError "not enough values to unpack (expected 4)").
Proof.
  intros Hlt. unfold unpack_name_version.
  pose proof (split_length "-"%char b 3) as Hlen.
  destruct (PyStr.split "-"%char b 3) as [|f0 [|f1 [|f2 [|f3 [|f4 r]]]]]; try done.
  simpl in Hlen. lia.
Qed.

Lemma unpack_long b :
  3 ≤ PyStr.count "-"%char b →
  ∃ f0 f1 name version,
    PyStr.split "-"%char b 3 = [f0; f1; name; version]
    ∧ unpack_name_version b = inr (name, version)
    ∧ PyStr.count "-"%char f0 = 0 ∧ PyStr.count "-"%char f1 = 0
    ∧ PyStr.count "-"%char name = 0
    ∧ b = f0 +:+ "-" +:+ f1 +:+ "-" +:+ name +:+ "-" +:+ version.
Proof.
  intros Hge. unfold unpack_name_version.
  pose proof (split_length "-"%char b 3) as Hlen.
  pose proof (split_join "-"%char b 3) as Hjoin.
  pose proof (split_fields "-"%char b 3) as Hfields.
  destruct (PyStr.split "-"%char b 3) as [|f0 [|f1 [|f2 [|f3 [|f4 r]]]]];
    simpl in Hlen; try lia.
  exists f0, f1, f2, f3. split; [done|]. split; [done|].
  simpl in Hfields.
  apply Forall_cons in Hfields as [H0 Hfields].
  apply Forall_cons in Hfields as [H1 Hfields].
  apply Forall_cons in Hfields as [H2 _].
  split; [done|]. split; [done|]. split; [done|].
  rewrite <- Hjoin. unfold PyStr.join. simpl.
  done.
Qed.

End Unpack.

Section DistsClaims.
Context {ChangelogData Changelog ReleaseNotes : Type}.
Context (env : Env ChangelogData Changelog ReleaseNotes).

(** The loop over the collection directories stops at the first basename
    that has not four fields. *)
Lemma spawn_dists_short size sched dest_dir collection_dirs dist_creators l :
  0 < size → length (Asyncio.running l) ≤ size →
  Exists (λ d, PyStr.count "-"%char (OsPath.basename d) < 3) collection_dirs →
  ∃ sched' l',
    spawn_dists env size sched dest_dir collection_dirs dist_creators l
    = Failed (ValueError "not enough values to unpack (expected 4)") sched' l'.
Proof.
  intros Hsize. revert sched dist_creators l.
  induction collection_dirs as [|d dirs IH]; intros sched dist_creators l Hle Hex.
  { by apply Exists_nil in Hex. }
  cbn [spawn_dists].
  destruct (decide (PyStr.count "-"%char (OsPath.basename d) < 3)) as [Hshort|Hlong].
  { rewrite (unpack_short _ Hshort). eauto. }
  apply Exists_cons in Hex as [Hd|Hex]; [done|].
  destruct (unpack_long (OsPath.basename d)) as (f0 & f1 & name & version & _ & -> & _);
    [lia|].
  destruct (spawn_admits size (hd [] sched)
              (make_collection_dist env name version d dest_dir) l Hsize Hle)
    as (l1 & -> & Hlt & _).
  apply IH; [|done]. simpl. rewrite length_app. simpl. lia.
Qed.

(** C10. [make_collection_dists] takes the name and the version of a
    collection from the basename of its directory, split at most three
    times at ['-']: a basename with fewer than three ['-'] has fewer than
    four fields, and unpacking it raises [ValueError]; a basename with at
    least three has exactly four fields, of which the first three hold no
    ['-'], and the name and the version are the third and the fourth. So
    the function raises [ValueError] as soon as one of the directories has
    a basename with fewer than three ['-']. *)
Theorem make_collection_dists_basenames :
  (∀ b, PyStr.count "-"%char b < 3 →
        unpack_name_version b
        = inl (ValueError "not enough values to unpack (expected 4)"))
  ∧ (∀ b, 3 ≤ PyStr.count "-"%char b →
          ∃ f0 f1 name version,
            PyStr.split "-"%char b 3 = [f0; f1; name; version]
            ∧ unpack_name_version b = inr (name, version)
            ∧ PyStr.count "-"%char f0 = 0 ∧ PyStr.count "-"%char f1 = 0
            ∧ PyStr.count "-"%char name = 0
            ∧ b = f0 +:+ "-" +:+ f1 +:+ "-" +:+ name +:+ "-" +:+ version)
  ∧ (∀ lib_ctx sched dest_dir collection_dirs w,
        0 < thread_max lib_ctx →
        Exists (λ d, PyStr.count "-"%char (OsPath.basename d) < 3) collection_dirs →
        ∃ w', make_collection_dists env lib_ctx sched dest_dir collection_dirs w
              = Raise (ValueError "not enough values to unpack (expected 4)") w').
Proof.
  split; [exact unpack_short|]. split; [exact unpack_long|].
  intros lib_ctx sched dest_dir collection_dirs w Hsize Hex.
  unfold make_collection_dists.
  destruct (spawn_dists_short (thread_max lib_ctx) sched dest_dir collection_dirs []
              (Asyncio.new_loop w) Hsize) as (sched' & l' & ->); [simpl; lia|done|].
  eauto.
Qed.
End DistsClaims.

Lemma make_collection_dists_basenames_witness :
  PyStr.count "-"%char "community.general-1.2.3" < 3
  ∧ unpack_name_version "community.general-1.2.3"
    = inl (ValueError "not enough values to unpack (expected 4)")
  ∧ 3 ≤ PyStr.count "-"%char "ansible-collections-community.general-1.2.3-rc1"
  ∧ unpack_name_version "ansible-collections-community.general-1.2.3-rc1"
    = inr ("community.general", "1.2.3-rc1")
  ∧ ∃ w', make_collection_dists Sample.env (mkLibCtx 2) [] ["out"]
            [["tmp"; "ansible-collections-community.general-1.2.3"];
             ["tmp"; "community.general-1.2.3"]] Sample.w0
          = Raise (ValueError "not enough values to unpack (expected 4)") w'.
Proof.
  destruct (make_collection_dists_basenames Sample.env) as (Hshort & Hlong & Hraise).
  split; [vm_compute; lia|]. split; [apply Hshort; vm_compute; lia|].
  split; [vm_compute; lia|]. split.
  - destruct (Hlong "ansible-collections-community.general-1.2.3-rc1")
      as (f0 & f1 & name & version & Hsplit & -> & _); [vm_compute; lia|].
    vm_compute in Hsplit. by inversion Hsplit.
  - apply Hraise; [simpl; lia|]. apply Exists_cons. right. apply Exists_cons. left.
    vm_compute. lia.
Defined.

Section Sorted.
Context {V : Type}.

Lemma insert_item_Permutation (x : string * V) l : insert_item x l ≡ₚ x :: l.
Proof.
  induction l as [|y r IH]; simpl; [done|].
  destruct (String.leb x.1 y.1); [done|]. rewrite IH. apply Permutation_swap.
Qed.

Lemma sorted_Permutation (l : list (string * V)) : sorted l ≡ₚ l.
Proof.
  induction l as [|x r IH]; simpl; [done|].
  rewrite insert_item_Permutation. by rewrite IH.
Qed.
End Sorted.

Section DependencyClaims.
Context {ChangelogData Changelog ReleaseNotes : Type}.
Context (env : Env ChangelogData Changelog ReleaseNotes).

Lemma pure_ok {A} (r : exn + A) w a w' : pure r w = (inr a, w') → r = inr a ∧ w' = w.
Proof. unfold pure. by intros [= -> ->]. Qed.

(** The setup script that [write_setup] has written. *)
Lemma write_setup_ok ansible_version ansible_base_version collection_deps
      package_dir w (u : unit) w' :
  write_setup env ansible_version ansible_base_version collection_deps package_dir w
  = (inr u, w') →
  ∃ tmpl contents,
    get_antsibull_data env "ansible-setup_py.j2" = inr tmpl
    ∧ render env tmpl [("version", PypiVer_str ansible_version);
                       ("ansible_base_version", PypiVer_str ansible_base_version);
                       ("collection_deps", collection_deps)] = inr contents
    ∧ EvWrite (OsPath.join package_dir "setup.py") contents ∈ log w'.
Proof.
  unfold write_setup. cbv zeta.
  intros (tmpl & w1 & [Ht ->]%pure_ok & Hk)%bindE_ok.
  apply bindE_ok in Hk as (contents & w2 & [Hc ->]%pure_ok & Hk).
  exists tmpl, contents. split; [done|]. split; [done|].
  unfold write_file in Hk. apply effect__ok in Hk as (s' & _ & ->). simpl.
  apply elem_of_app. right. left.
Qed.

(** C6. When [build_multiple_command] returns 0, the setup script of the
    ansible package has been rendered with a [collection_deps] that holds
    one line for each collection of the build file, which are the
    resolved collections: the line of a collection resolved to [version]
    is ['collection>=version,<next'], indented by eight spaces, where
    [next] is [version.next_major()]; the lines are joined by a comma and
    a newline, after a first newline. *)
Theorem collection_deps_ranges app_ctx lib_ctx sched s bav abv deps :
  BuildFile_parse env (build_file app_ctx) s = inr (bav, abv, deps) →
  NoDup (PyDict.keys deps) →
  let o := build_multiple_command env app_ctx lib_ctx sched (mkWorld s []) in
  returned o = Some 0%Z →
  let tmp_dir := mkdtemp env s in
  let d := mkCollectionDownloader (OsPath.join tmp_dir "collections")
             (collection_cache app_ctx) (galaxy_url app_ctx) in
  let included_versions := resolved env d deps in
  let lines := collection_deps_list included_versions in
  PyDict.keys included_versions = PyDict.keys deps
  ∧ lines ≡ₚ (λ cv, "        '" +:+ cv.1 +:+ ">=" +:+ SemVer_str cv.2
                     +:+ ",<" +:+ SemVer_str (next_major cv.2) +:+ "'")
              <$> included_versions
  ∧ length lines = length deps
  ∧ ∃ abv' tmpl contents,
      PypiVer_of env abv = inr abv'
      ∧ get_antsibull_data env "ansible-setup_py.j2" = inr tmpl
      ∧ render env tmpl
          [("version", PypiVer_str (ansible_version app_ctx));
           ("ansible_base_version", PypiVer_str abv');
           ("collection_deps", newline +:+ PyStr.join ("," +:+ newline) lines)]
        = inr contents
      ∧ EvWrite (OsPath.join
                   (OsPath.join tmp_dir
                      ("ansible-" +:+ PypiVer_str (ansible_version app_ctx)))
                   "setup.py") contents ∈ log (final o).
Proof.
  intros Hparse Hnd o Hret tmp_dir d included_versions lines.
  destruct o as [z w'|e w'|w'] eqn:Ho; [|done|done].
  simpl in Hret. injection Hret as ->. subst o.
  unfold build_multiple_command in Ho.
  apply bindM_lift_Ok in Ho as ([[bav' abv''] deps'] & w1 & Hread & Ho).
  unfold reads in Hread. cbn [fs] in Hread. rewrite Hparse in Hread.
  injection Hread as <- <- <- <-.
  apply bindM_lift_Ok in Ho as (abv' & w1 & [Habv ->]%pure_ok & Ho).
  destruct (negb _).
  { apply bindM_lift_Ok in Ho as (? & ? & _ & Ho). done. }
  apply bindM_Ok in Ho as (iv & w2 & Htd & Ho).
  apply bindM_lift_Ok in Ho as (u & w3 & Hdeps & Hfin).
  assert (w' = w3) as -> by (by inversion Hfin). clear Hfin.
  apply effect__ok in Hdeps as (s3 & _ & ->).
  apply TemporaryDirectory_Ok in Htd as (fs1 & w2' & _ & Hbody & ->).
  invert_ok Hbody.
  match goal with
  | H : download_collections _ _ _ _ _ _ _ _ = Ok _ _ |- _ =>
      pose proof (download_collections_Ok env _ _ _ _ _ _ _ _ _ Hnd H) as [Hiv Hfetched]
  end.
  match goal with
  | H : write_python_build_files _ _ _ _ _ _ _ _ = (inr _, _) |- _ =>
      unfold write_python_build_files in H;
      apply bindE_ok in H as (? & ? & _ & H);
      apply bindE_ok in H as (? & ? & _ & H);
      apply write_setup_ok in H as (tmpl & contents & Htmpl & Hrender & Hlog)
  end.
  match goal with
  | H : make_dist ?e ?a ?b ?w = (inr _, ?w2) |- _ =>
      assert (grows w w2) as Hgrow
        by (eapply (quietE_grows (make_dist e a b)); [quiet|exact H])
  end.
  inversion Hbody; subst.
  split; [|split; [|split]].
  - apply resolved_keys. intros name spec Hin.
    destruct (Hfetched name spec Hin) as (r & Hr & _). eauto.
  - unfold lines, collection_deps_list, PyDict.items. by rewrite sorted_Permutation.
  - unfold lines, collection_deps_list, PyDict.items.
    rewrite length_fmap, sorted_Permutation.
    transitivity (length (PyDict.keys included_versions)).
    { unfold PyDict.keys. by rewrite length_fmap. }
    unfold included_versions. rewrite resolved_keys.
    + unfold PyDict.keys. by rewrite length_fmap.
    + intros name spec Hin. destruct (Hfetched name spec Hin) as (r & Hr & _). eauto.
  - exists abv', tmpl, contents. split; [done|]. split; [done|]. split; [done|].
    simpl. rewrite !elem_of_app. left. left.
    eapply grows_elem_of; [exact Hgrow|exact Hlog].
Qed.
End DependencyClaims.

Lemma collection_deps_ranges_witness :
  let d := mkCollectionDownloader ["tmp"; "build"; "collections"] None
             "https://galaxy.ansible.com" in
  NoDup (PyDict.keys Sample.deps_cd)
  ∧ returned (build_multiple_command Sample.env Sample.ctx (mkLibCtx 2)
                (mkScheduler [] []) Sample.w0) = Some 0%Z
  ∧ collection_deps_list (resolved Sample.env d Sample.deps_cd)
    ≡ₚ ["        'c>=1.2.3,<2.0.0'"; "        'd>=1.2.3,<2.0.0'"].
Proof.
  intros d.
  assert (NoDup (PyDict.keys Sample.deps_cd)) as Hnd
    by (apply (bool_decide_unpack _); vm_compute; exact I).
  assert (returned (build_multiple_command Sample.env Sample.ctx (mkLibCtx 2)
                      (mkScheduler [] []) Sample.w0) = Some 0%Z) as Hret
    by (vm_compute; reflexivity).
  split; [exact Hnd|]. split; [exact Hret|].
  destruct (collection_deps_ranges Sample.env Sample.ctx (mkLibCtx 2)
              (mkScheduler [] []) Sample.fs0 "2.1" "2.10.1" Sample.deps_cd
              eq_refl Hnd Hret) as (_ & Hperm & _).
  exact Hperm.
Defined.

Section VersionCheck.
Context {ChangelogData Changelog ReleaseNotes : Type}.
Context (env : Env ChangelogData Changelog ReleaseNotes).

(** A block that is entered logs the temporary directory first. *)
Lemma TemporaryDirectory_entered {A} (body : path → M A) w fs1 :
  (∀ tmp_dir, quietM (body tmp_dir)) →
  Os.mkdir (mkdtemp env (fs w)) (fs w) = inr fs1 →
  ∃ evs, log (final (TemporaryDirectory env body w))
         = log w ++ EvMkdtemp (mkdtemp env (fs w)) :: evs.
Proof.
  intros Hq Hmk. unfold TemporaryDirectory. cbv zeta. rewrite Hmk.
  specialize (Hq (mkdtemp env (fs w))
                (mkWorld fs1 (log w ++ [EvMkdtemp (mkdtemp env (fs w))]))).
  destruct Hq as (evs & Hlog & _). simpl in Hlog.
  destruct (body _ _) as [a w'|e w'|w']; simpl in *; rewrite Hlog;
    rewrite <- ?app_assoc; simpl; eauto.
Qed.

Lemma build_multiple_command_proceeds app_ctx lib_ctx sched s bav abv abv' deps fs1 :
  BuildFile_parse env (build_file app_ctx) s = inr (bav, abv, deps) →
  PypiVer_of env abv = inr abv' →
  PyStr.startswith (PypiVer_str (ansible_version app_ctx)) bav = true →
  Os.mkdir (mkdtemp env s) s = inr fs1 →
  let o := build_multiple_command env app_ctx lib_ctx sched (mkWorld s []) in
  returned o ≠ Some 1%Z
  ∧ ∃ evs, log (final o)
           = EvReadBuildFile (build_file app_ctx) :: EvMkdtemp (mkdtemp env s) :: evs.
Proof.
  intros Hparse Habv Hstart Hmk o.
  assert (o = build_multiple_command env app_ctx lib_ctx sched (mkWorld s []))
    as Ho by done.
  clearbody o. unfold build_multiple_command in Ho.
  rewrite bindM_lift_eq in Ho. unfold reads at 1 in Ho. cbn [fs] in Ho.
  rewrite Hparse in Ho. cbv beta iota in Ho.
  rewrite bindM_lift_eq in Ho. unfold pure at 1 in Ho. rewrite Habv, Hstart in Ho.
  cbn [negb] in Ho. cbv beta iota in Ho.
  rewrite bindM_eq in Ho.
  match type of Ho with context [TemporaryDirectory env ?b ?w] =>
    set (body := b) in Ho; set (w1 := w) in Ho end.
  assert (∀ tmp_dir, quietM (body tmp_dir)) as Hquiet.
  { intros tmp_dir. unfold body. quiet. }
  destruct (TemporaryDirectory_entered body w1 fs1 Hquiet Hmk) as (evs & Hlog).
  simpl in Hlog.
  destruct (TemporaryDirectory env body w1) as [iv w2|e w2|w2];
    simpl in Hlog.
  2,3: subst o; simpl; split; [done|]; eauto.
  rewrite bindM_lift_eq in Ho. unfold effect_, effect in Ho.
  destruct (DepsFile_write _ _ _ _ _ _) as [e|s3]; subst o; simpl;
    (split; [done|]); rewrite Hlog; simpl; eauto.
Qed.

Lemma build_single_command_proceeds app_ctx lib_ctx sched s bav abv abv' deps fs1 :
  BuildFile_parse env (build_file app_ctx) s = inr (bav, abv, deps) →
  PypiVer_of env abv = inr abv' →
  PyStr.startswith (PypiVer_str (ansible_version app_ctx)) bav = true →
  Os.mkdir (mkdtemp env s) s = inr fs1 →
  let o := build_single_command env app_ctx lib_ctx sched (mkWorld s []) in
  returned o ≠ Some 1%Z
  ∧ ∃ evs, log (final o)
           = EvReadBuildFile (build_file app_ctx) :: EvMkdtemp (mkdtemp env s) :: evs.
Proof.
  intros Hparse Habv Hstart Hmk o.
  assert (o = build_single_command env app_ctx lib_ctx sched (mkWorld s []))
    as Ho by done.
  clearbody o. unfold build_single_command in Ho.
  rewrite bindM_lift_eq in Ho. unfold reads at 1 in Ho. cbn [fs] in Ho.
  rewrite Hparse in Ho. cbv beta iota in Ho.
  rewrite bindM_lift_eq in Ho. unfold pure at 1 in Ho. rewrite Habv, Hstart in Ho.
  cbn [negb] in Ho. cbv beta iota in Ho.
  rewrite bindM_eq in Ho.
  match type of Ho with context [TemporaryDirectory env ?b ?w] =>
    set (body := b) in Ho; set (w1 := w) in Ho end.
  assert (∀ tmp_dir, quietM (body tmp_dir)) as Hquiet.
  { intros tmp_dir. unfold body. quiet. }
  destruct (TemporaryDirectory_entered body w1 fs1 Hquiet Hmk) as (evs & Hlog).
  simpl in Hlog.
  destruct (TemporaryDirectory env body w1) as [[[[nd cl] rn] dd] w2|e w2|w2];
    simpl in Hlog.
  2,3: subst o; simpl; split; [done|]; eauto.
  cbv beta iota in Ho.
  rewrite bindM_lift_eq in Ho. unfold effect_ at 1, effect at 1 in Ho.
  destruct (DepsFile_write _ _ _ _ _ _) as [e|s3].
  { subst o; simpl. split; [done|]. eauto. }
  cbn [log fs] in Ho.
  rewrite bindM_lift_eq in Ho. unfold effect_ at 1, effect at 1 in Ho.
  cbn [log fs] in Ho.
  destruct (changes_save env cl s3) as [e|s4].
  { subst o; simpl. split; [done|]. rewrite Hlog. simpl. eauto. }
  rewrite bindM_lift_eq in Ho. unfold effect_ at 1, effect at 1 in Ho.
  cbn [log fs] in Ho.
  destruct (write_changelog_to env rn _ s4) as [e|s5].
  { subst o; simpl. split; [done|]. rewrite Hlog. simpl. eauto. }
  rewrite bindM_lift_eq in Ho. unfold effect_ at 1, effect at 1 in Ho.
  cbn [log fs] in Ho.
  destruct (write_porting_guide_to env rn _ s5) as [e|s6].
  { subst o; simpl. split; [done|]. rewrite Hlog. simpl. eauto. }
  subst o; simpl. split; [done|]. rewrite Hlog. simpl. eauto.
Qed.

(** C9. The check is a test of prefixes on strings: [2.11.0] starts with
    [2.1], which is not its [major.minor]; and for every target version
    whose string starts with the version the build file declares, neither
    command returns 1: both go on after the check and enter the block of
    the temporary directory, when it can be made. *)
Theorem version_check_accepts_prefix :
  (PyStr.startswith (PypiVer_str (mkPypiVer 0 [2; 11; 0] "")) "2.1" = true
   ∧ major_minor (mkPypiVer 0 [2; 11; 0] "") = "2.11")
  ∧ ∀ app_ctx lib_ctx sched s bav abv abv' deps fs1,
      BuildFile_parse env (build_file app_ctx) s = inr (bav, abv, deps) →
      PypiVer_of env abv = inr abv' →
      PyStr.startswith (PypiVer_str (ansible_version app_ctx)) bav = true →
      Os.mkdir (mkdtemp env s) s = inr fs1 →
      ∀ o, o = build_single_command env app_ctx lib_ctx sched (mkWorld s [])
           ∨ o = build_multiple_command env app_ctx lib_ctx sched (mkWorld s []) →
           returned o ≠ Some 1%Z
           ∧ ∃ evs, log (final o)
                    = EvReadBuildFile (build_file app_ctx)
                      :: EvMkdtemp (mkdtemp env s) :: evs.
Proof.
  split; [split; vm_compute; reflexivity|].
  intros app_ctx lib_ctx sched s bav abv abv' deps fs1 Hparse Habv Hstart Hmk o [->| ->].
  - by eapply build_single_command_proceeds.
  - by eapply build_multiple_command_proceeds.
Qed.

(** C5. When the string of the target version does not start with the
    version the build file declares, both commands print the message and
    return 1; they have read the build file and done nothing else: the
    file system is as it was. The test is on prefixes, not on
    [major.minor]. *)
Theorem version_check_rejects app_ctx lib_ctx sched s bav abv abv' deps :
  BuildFile_parse env (build_file app_ctx) s = inr (bav, abv, deps) →
  PypiVer_of env abv = inr abv' →
  PyStr.startswith (PypiVer_str (ansible_version app_ctx)) bav = false →
  ∀ o, o = build_single_command env app_ctx lib_ctx sched (mkWorld s [])
       ∨ o = build_multiple_command env app_ctx lib_ctx sched (mkWorld s []) →
       o = Ok 1%Z (mkWorld s [EvReadBuildFile (build_file app_ctx);
                              EvPrint (mismatch_message app_ctx bav)]).
Proof.
  intros Hparse Habv Hstart o [->| ->].
  - unfold build_single_command.
    rewrite bindM_lift_eq. unfold reads at 1. cbn [fs]. rewrite Hparse.
    cbv beta iota. rewrite bindM_lift_eq. unfold pure at 1.
    rewrite Habv, Hstart. reflexivity.
  - unfold build_multiple_command.
    rewrite bindM_lift_eq. unfold reads at 1. cbn [fs]. rewrite Hparse.
    cbv beta iota. rewrite bindM_lift_eq. unfold pure at 1.
    rewrite Habv, Hstart. reflexivity.
Qed.
End VersionCheck.

Lemma version_check_accepts_prefix_witness :
  let single := build_single_command Sample.env Sample.ctx (mkLibCtx 2)
                  (mkScheduler [] []) Sample.w0 in
  let multiple := build_multiple_command Sample.env Sample.ctx (mkLibCtx 2)
                    (mkScheduler [] []) Sample.w0 in
  PyStr.startswith (PypiVer_str (ansible_version Sample.ctx)) "2.1" = true
  ∧ major_minor (ansible_version Sample.ctx) ≠ "2.1"
  ∧ returned single ≠ Some 1%Z ∧ returned multiple ≠ Some 1%Z
  ∧ (∃ evs, log (final single)
            = EvReadBuildFile ["data"; "ansible.build"] :: EvMkdtemp ["tmp"; "build"] :: evs)
  ∧ (∃ evs, log (final multiple)
            = EvReadBuildFile ["data"; "ansible.build"] :: EvMkdtemp ["tmp"; "build"] :: evs).
Proof.
  intros single multiple.
  destruct (version_check_accepts_prefix Sample.env) as [_ Hgo].
  specialize (Hgo Sample.ctx (mkLibCtx 2) (mkScheduler [] []) Sample.fs0
                "2.1" "2.10.1" _ Sample.deps_cd _ eq_refl eq_refl eq_refl eq_refl).
  destruct (Hgo single) as [Hs1 Hs2]; [by left|].
  destruct (Hgo multiple) as [Hm1 Hm2]; [by right|].
  split; [vm_compute; reflexivity|]. split; [vm_compute; discriminate|].
  split; [exact Hs1|]. split; [exact Hm1|]. split; [exact Hs2|exact Hm2].
Defined.

Lemma version_check_rejects_witness :
  let env := Sample.sample_env "2.12" Sample.deps_cd true [".tar.gz"] in
  let w := mkWorld Sample.fs0 [EvReadBuildFile ["data"; "ansible.build"];
                               EvPrint "data/ansible.build is for version 2.12 but we need 2.11"] in
  PyStr.startswith (PypiVer_str (ansible_version Sample.ctx)) "2.12" = false
  ∧ build_single_command env Sample.ctx (mkLibCtx 2) (mkScheduler [] []) Sample.w0
    = Ok 1%Z w
  ∧ build_multiple_command env Sample.ctx (mkLibCtx 2) (mkScheduler [] []) Sample.w0
    = Ok 1%Z w.
Proof.
  intros env w.
  pose proof (version_check_rejects env Sample.ctx (mkLibCtx 2) (mkScheduler [] [])
                Sample.fs0 "2.12" "2.10.1" _ Sample.deps_cd eq_refl eq_refl eq_refl)
    as Hno.
  split; [vm_compute; reflexivity|]. split.
  - symmetry. apply Hno. by left.
  - symmetry. apply Hno. by right.
Defined.

(** The build file declares [2.1], which is not the [major.minor] of the
    target [2.11.0]: both commands go on, fetch the collections and return
    0. *)
Lemma version_check_major_minor_counterexample :
  let single := build_single_command Sample.env Sample.ctx (mkLibCtx 2)
                  (mkScheduler [] []) Sample.w0 in
  let multiple := build_multiple_command Sample.env Sample.ctx (mkLibCtx 2)
                    (mkScheduler [] []) Sample.w0 in
  BuildFile_parse Sample.env (build_file Sample.ctx) Sample.fs0
  = inr ("2.1", "2.10.1", Sample.deps_cd)
  ∧ major_minor (ansible_version Sample.ctx) = "2.11"
  ∧ returned single = Some 0%Z ∧ returned multiple = Some 0%Z
  ∧ EvFetch "c" ">=1.0.0" (inr Sample.v123) ∈ log (final single)
  ∧ EvFetch "c" ">=1.0.0" (inr Sample.v123) ∈ log (final multiple)
  ∧ fs (final single) !! ["out"; "ansible-2.11.0.tar.gz"] = Some (File ".tar.gz")
  ∧ fs (final multiple) !! ["out"; "ansible-2.11.0.tar.gz"] = Some (File ".tar.gz").
Proof.
  intros single multiple.
  split; [reflexivity|]. split; [vm_compute; reflexivity|].
  split; [vm_compute; reflexivity|]. split; [vm_compute; reflexivity|].
  split; [apply (bool_decide_unpack _); vm_compute; exact I|].
  split; [apply (bool_decide_unpack _); vm_compute; exact I|].
  split; vm_compute; reflexivity.
Qed.

Section ReleaseNotesClaims.
Context {ChangelogData Changelog ReleaseNotes : Type}.
Context (env : Env ChangelogData Changelog ReleaseNotes).

(** C8. When [build_single_command] returns 0, the changelog and the
    porting guide have been written to the package directory, inside the
    temporary directory, and then, after the dependency file has been
    written to the destination directory, to the directory of the build
    file. *)
Theorem release_notes_destinations app_ctx lib_ctx sched s :
  let o := build_single_command env app_ctx lib_ctx sched (mkWorld s []) in
  returned o = Some 0%Z →
  let package_dir :=
    OsPath.join (mkdtemp env s) ("ansible-" +:+ PypiVer_str (ansible_version app_ctx)) in
  let deps_dir := OsPath.dirname (build_file app_ctx) in
  EvWriteChangelog package_dir ∈ log (final o)
  ∧ EvWritePortingGuide package_dir ∈ log (final o)
  ∧ ∃ pre av abv deps,
      log (final o)
      = pre ++ [EvWriteDeps (OsPath.join (dest_dir app_ctx) (deps_file app_ctx))
                  av abv deps;
                EvSaveChangelog;
                EvWriteChangelog deps_dir;
                EvWritePortingGuide deps_dir]
      ∧ EvWriteChangelog package_dir ∈ pre
      ∧ EvWritePortingGuide package_dir ∈ pre.
Proof.
  intros o Hret package_dir deps_dir.
  destruct o as [z w'|e w'|w'] eqn:Ho; [|done|done].
  simpl in Hret. injection Hret as ->. subst o.
  unfold build_single_command in Ho.
  apply bindM_lift_Ok in Ho as ([[bav abv] deps] & w1 & Hread & Ho).
  unfold reads in Hread. cbn [fs] in Hread.
  destruct (BuildFile_parse _ _ _); [done|]. injection Hread as -> <-.
  apply bindM_lift_Ok in Ho as (abv' & w1 & Habv & Ho).
  unfold pure in Habv. injection Habv as Habv <-.
  destruct (negb _).
  { apply bindM_lift_Ok in Ho as (? & ? & _ & Ho). done. }
  apply bindM_Ok in Ho as ([[[nd cl] rn] dd] & w2 & Htd & Ho).
  apply bindM_lift_Ok in Ho as (u1 & w3 & (s3 & _ & ->)%effect__ok & Ho).
  apply bindM_lift_Ok in Ho as (u2 & w4 & (s4 & _ & ->)%effect__ok & Ho).
  apply bindM_lift_Ok in Ho as (u3 & w5 & (s5 & _ & ->)%effect__ok & Ho).
  apply bindM_lift_Ok in Ho as (u4 & w6 & (s6 & _ & ->)%effect__ok & Ho).
  assert (w' = mkWorld s6
                 ((((log w2 ++ [EvWriteDeps
                                 (OsPath.join (dest_dir app_ctx) (deps_file app_ctx))
                                 (data_ansible_version nd)
                                 (data_ansible_base_version nd) (data_deps nd)])
                    ++ [EvSaveChangelog]) ++ [EvWriteChangelog dd])
                  ++ [EvWritePortingGuide dd])) as -> by (by inversion Ho).
  clear Ho.
  apply TemporaryDirectory_Ok in Htd as (fs1 & w2' & _ & Hbody & ->).
  invert_ok Hbody. grow_steps.
  match goal with
  | H : effect_ (EvWriteChangelog _) _ _ = (inr _, _) |- _ =>
      pose proof (effect_logged _ _ _ _ _ H) as Hcl
  end.
  match goal with
  | H : effect_ (EvWritePortingGuide _) _ _ = (inr _, _) |- _ =>
      pose proof (effect_logged _ _ _ _ _ H) as Hpg
  end.
  inversion Hbody as [[Hnd Hcl' Hrn Hdd Hw2]].
  assert (EvWriteChangelog package_dir ∈ log w2'
          ∧ EvWritePortingGuide package_dir ∈ log w2') as [Hcl2 Hpg2].
  { rewrite <- Hw2. split.
    - eapply grows_elem_of; [|exact Hcl]. grows_chain.
    - eapply grows_elem_of; [|exact Hpg]. grows_chain. }
  cbn [log final]. rewrite <- !app_assoc. cbn [app].
  split; [rewrite !elem_of_app; auto|]. split; [rewrite !elem_of_app; auto|].
  eexists (log w2' ++ [EvRmtree _]), _, _, _. rewrite <- !app_assoc. cbn [app].
  split; [reflexivity|]. rewrite !elem_of_app. auto.
Qed.
End ReleaseNotesClaims.

Lemma release_notes_destinations_witness :
  let o := build_single_command Sample.env Sample.ctx (mkLibCtx 2)
             (mkScheduler [] []) Sample.w0 in
  returned o = Some 0%Z
  ∧ EvWriteChangelog ["tmp"; "build"; "ansible-2.11.0"] ∈ log (final o)
  ∧ EvWritePortingGuide ["tmp"; "build"; "ansible-2.11.0"] ∈ log (final o)
  ∧ ∃ pre av abv deps,
      log (final o)
      = pre ++ [EvWriteDeps ["out"; "ansible.deps"] av abv deps; EvSaveChangelog;
                EvWriteChangelog ["data"]; EvWritePortingGuide ["data"]].
Proof.
  intros o.
  assert (returned o = Some 0%Z) as Hret by (vm_compute; reflexivity).
  split; [exact Hret|].
  destruct (release_notes_destinations Sample.env Sample.ctx (mkLibCtx 2)
              (mkScheduler [] []) Sample.fs0 Hret)
    as (Hcl & Hpg & pre & av & abv & deps & Hlog & _).
  split; [exact Hcl|]. split; [exact Hpg|]. exists pre, av, abv, deps. exact Hlog.
Defined.

(** The build file is [data/ansible.build] and the destination directory
    is [out]: the dependency file is written to [out], the second copies of
    the changelog and of the porting guide to [data], and [out] has
    neither. *)
Lemma release_notes_destination_counterexample :
  let o := build_single_command Sample.env Sample.ctx (mkLibCtx 2)
             (mkScheduler [] []) Sample.w0 in
  returned o = Some 0%Z
  ∧ dest_dir Sample.ctx = ["out"]
  ∧ fs (final o) !! ["out"; "ansible.deps"] = Some (File "deps")
  ∧ fs (final o) !! ["out"; "CHANGELOG.rst"] = None
  ∧ fs (final o) !! ["out"; "porting_guide.rst"] = None
  ∧ fs (final o) !! ["data"; "CHANGELOG.rst"] = Some (File "changelog")
  ∧ fs (final o) !! ["data"; "porting_guide.rst"] = Some (File "porting guide")
  ∧ bool_decide (EvWriteChangelog ["out"] ∈ log (final o)) = false
  ∧ bool_decide (EvWritePortingGuide ["out"] ∈ log (final o)) = false.
Proof.
  intros o. repeat split; vm_compute; reflexivity.
Qed.

(** * Further properties of the build code *)

Section IdleLoop.
Context {St R : Type}.
Implicit Types (l : Asyncio.loop St R).

Lemma completes_idle picks l :
  Asyncio.running l = [] → Asyncio.completes picks l = l.
Proof.
  intros Hr. induction picks as [|p picks IH]; simpl; [done|].
  by rewrite complete_idle.
Qed.

Lemma gather_steps_idle children picks (g : Asyncio.gathering R) l :
  Asyncio.running l = [] →
  foldl (Asyncio.gather_step children) (g, l) picks = (g, l).
Proof.
  intros Hr. induction picks as [|p picks IH]; simpl; [done|].
  unfold Asyncio.gather_step at 2. simpl. by rewrite complete_idle.
Qed.

(** [asyncio.gather()] of no child is settled at once, with no result. *)
Lemma gather_nothing picks l :
  Asyncio.running l = [] → Asyncio.gather [] picks l = (Some (inr []), l).
Proof.
  intros Hr. unfold Asyncio.gather. cbv zeta. simpl.
  by rewrite gather_steps_idle.
Qed.
End IdleLoop.

Section EdgeCases.
Context {ChangelogData Changelog ReleaseNotes : Type}.
Context (env : Env ChangelogData Changelog ReleaseNotes).

(** X1. With no request, [download_collections] returns the empty mapping
    at once, whatever the size of the pool: nothing is fetched, and the
    file system and the log are as they were. *)
Theorem download_collections_nothing lib_ctx sched galaxy_url download_dir
        collection_cache w :
  download_collections env lib_ctx sched [] galaxy_url download_dir collection_cache w
  = Ok [] w.
Proof.
  unfold download_collections. cbv zeta. cbn [spawn_downloads]. cbv beta iota.
  change (PyDict.values PyDict.empty) with (@nil nat).
  by rewrite gather_nothing.
Qed.

(** X2. With a pool of no slot and at least one request,
    [download_collections] never returns: the first [pool.spawn] waits for
    ever, and no fetch is started. *)
Theorem download_collections_no_slot_hangs lib_ctx sched deps galaxy_url
        download_dir collection_cache w :
  thread_max lib_ctx = 0 → deps ≠ [] →
  download_collections env lib_ctx sched deps galaxy_url download_dir collection_cache w
  = Hang w.
Proof.
  intros Hsize Hdeps. unfold download_collections. cbv zeta. rewrite Hsize.
  destruct deps as [|[name spec] deps]; [done|].
  cbn [spawn_downloads]. unfold Asyncio.spawn. cbv zeta.
  destruct (decide (length (Asyncio.running (Asyncio.new_loop w)) < 0)) as [Hlt|_];
    [lia|].
  rewrite completes_idle by done.
  destruct (decide (length (Asyncio.running (Asyncio.new_loop w)) < 0)) as [Hlt|_];
    [lia|].
  done.
Qed.

(** X3. With no collection directory, [make_collection_dists] returns at
    once and does nothing. *)
Theorem make_collection_dists_nothing lib_ctx sched dest_dir w :
  make_collection_dists env lib_ctx sched dest_dir [] w = Ok tt w.
Proof.
  unfold make_collection_dists. cbn [spawn_dists]. cbv beta iota.
  by rewrite gather_nothing.
Qed.
End EdgeCases.

Lemma download_collections_no_slot_hangs_witness :
  thread_max (mkLibCtx 0) = 0 ∧ Sample.deps_cd ≠ []
  ∧ download_collections Sample.env (mkLibCtx 0) [] Sample.deps_cd
      "https://galaxy.ansible.com" ["tmp"; "collections"] None Sample.w0
    = Hang Sample.w0.
Proof.
  split; [reflexivity|]. split; [discriminate|].
  apply download_collections_no_slot_hangs; [reflexivity|discriminate].
Defined.

Section Listing.

Lemma join_dirname_basename (p : path) :
  p ≠ [] → OsPath.join (OsPath.dirname p) (OsPath.basename p) = p.
Proof.
  intros Hne. unfold OsPath.join, OsPath.dirname, OsPath.basename.
  symmetry. by apply app_removelast_last.
Qed.

Lemma children_spec (s : FS) (d p : path) :
  p ∈ Os.children s d ↔ ∃ f, p = OsPath.join d f ∧ is_Some (s !! p).
Proof.
  unfold Os.children. rewrite list_elem_of_filter, list_elem_of_fmap. split.
  - intros [[Hne <-] ([q n] & -> & Hq)]. simpl in *.
    apply elem_of_map_to_list in Hq.
    exists (OsPath.basename q). by rewrite join_dirname_basename.
  - intros (f & -> & [n Hn]). split.
    + split; [by destruct d|]. apply dirname_join.
    + exists (OsPath.join d f, n). split; [done|]. by apply elem_of_map_to_list.
Qed.

Lemma children_NoDup (s : FS) (d : path) : NoDup (Os.children s d).
Proof.
  unfold Os.children. apply NoDup_filter. apply NoDup_fst_map_to_list.
Qed.

Lemma listdir_spec (s : FS) (d : path) names :
  Os.listdir d s = inr names →
  NoDup names ∧ ∀ f, f ∈ names ↔ is_Some (s !! OsPath.join d f).
Proof.
  unfold Os.listdir. destruct (Os.isdir s d); [|done]. intros [= <-]. split.
  - apply NoDup_fmap_2_strong; [|apply children_NoDup].
    intros p q (f & -> & _)%children_spec (g & -> & _)%children_spec.
    rewrite !basename_join. by intros ->.
  - intros f. rewrite list_elem_of_fmap. split.
    + intros (p & -> & (g & -> & Hs)%children_spec). by rewrite basename_join.
    + intros Hs. exists (OsPath.join d f). rewrite basename_join. split; [done|].
      apply children_spec. eauto.
Qed.

(** X4. The files to install are the regular files directly in the
    download directory, each once: a directory there is left out. When the
    download directory is not a directory, the listing raises. *)
Theorem downloaded_files_spec (download_dir : path) w :
  (Os.isdir (fs w) download_dir = false →
   ∃ e, downloaded_files download_dir w = (inl e, w))
  ∧ (Os.isdir (fs w) download_dir = true →
     ∃ files,
       downloaded_files download_dir w = (inr files, w)
       ∧ NoDup files
       ∧ ∀ p, p ∈ files ↔
              ∃ f c, p = OsPath.join download_dir f ∧ fs w !! p = Some (File c)).
Proof.
  unfold downloaded_files, reads. split.
  - intros Hd. unfold Os.listdir. rewrite Hd. eauto.
  - intros Hd. destruct (Os.listdir download_dir (fs w)) as [e|names] eqn:Hl.
    { unfold Os.listdir in Hl. by rewrite Hd in Hl. }
    destruct (listdir_spec _ _ _ Hl) as [Hnd Hnames].
    eexists. split; [done|]. split.
    + apply NoDup_filter. apply NoDup_fmap_2; [|done].
      intros f g Hfg. unfold OsPath.join in Hfg.
      apply app_inj_tail in Hfg. tauto.
    + intros p. rewrite list_elem_of_filter, list_elem_of_fmap. unfold Os.isfile. split.
      * intros [Hfile (f & -> & _)]. destruct (fs w !! _) as [[c|]|] eqn:Hp; try done.
        eauto.
      * intros (f & c & -> & Hp). rewrite Hp. split; [done|].
        exists f. split; [done|]. apply Hnames. by rewrite Hp.
Qed.
End Listing.

Lemma downloaded_files_spec_witness :
  let s : FS := <[["dl"; "sub"] := Dir]> (<[["dl"; "a.tar.gz"] := File "a"]>
                 (<[["dl"] := Dir]> Sample.fs0)) in
  Os.isdir s ["dl"] = true
  ∧ ∃ files, downloaded_files ["dl"] (mkWorld s []) = (inr files, mkWorld s [])
             ∧ ["dl"; "a.tar.gz"] ∈ files ∧ ["dl"; "sub"] ∉ files.
Proof.
  intros s.
  assert (Os.isdir s ["dl"] = true) as Hd by (vm_compute; reflexivity).
  split; [exact Hd|].
  destruct (downloaded_files_spec ["dl"] (mkWorld s [])) as [_ Hdir].
  destruct (Hdir Hd) as (files & Heq & _ & Hin).
  exists files. split; [exact Heq|]. split.
  - apply Hin. exists "a.tar.gz", "a". split; [reflexivity|]. vm_compute. reflexivity.
  - intros (f & c & Hp & Hc)%Hin. rewrite Hp in Hc.
    injection Hp as <-. vm_compute in Hc. discriminate.
Defined.

Section StringOrder.

Lemma ascii_compare_eq a b : Ascii.compare a b = Eq → a = b.
Proof.
  unfold Ascii.compare. intros H%N.compare_eq_iff.
  rewrite <- (ascii_N_embedding a), <- (ascii_N_embedding b). by rewrite H.
Qed.

Lemma ascii_compare_refl a : Ascii.compare a a = Eq.
Proof. unfold Ascii.compare. apply N.compare_refl. Qed.

Lemma ascii_compare_lt_trans a b c :
  Ascii.compare a b = Lt → Ascii.compare b c = Lt → Ascii.compare a c = Lt.
Proof.
  unfold Ascii.compare. rewrite !N.compare_lt_iff. lia.
Qed.

Lemma string_compare_lt_trans s1 s2 s3 :
  String.compare s1 s2 = Lt → String.compare s2 s3 = Lt → String.compare s1 s3 = Lt.
Proof.
  revert s2 s3. induction s1 as [|a s1 IH]; intros [|b s2] [|c s3]; simpl; try done.
  destruct (Ascii.compare a b) eqn:Hab; try done;
    destruct (Ascii.compare b c) eqn:Hbc; try done; intros H12 H23.
  - apply ascii_compare_eq in Hab as ->. rewrite Hbc in *. by eapply IH.
  - apply ascii_compare_eq in Hab as ->. by rewrite Hbc.
  - apply ascii_compare_eq in Hbc as ->. by rewrite Hab.
  - by rewrite (ascii_compare_lt_trans _ _ _ Hab Hbc).
Qed.

Lemma string_leb_trans s1 s2 s3 :
  String.leb s1 s2 = true → String.leb s2 s3 = true → String.leb s1 s3 = true.
Proof.
  unfold String.leb.
  destruct (String.compare s1 s2) eqn:H12; try done;
    destruct (String.compare s2 s3) eqn:H23; try done; intros _ _.
  - apply String.compare_eq_iff in H12 as ->. by rewrite H23.
  - apply String.compare_eq_iff in H12 as ->. by rewrite H23.
  - apply String.compare_eq_iff in H23 as ->. by rewrite H12.
  - by rewrite (string_compare_lt_trans _ _ _ H12 H23).
Qed.

End StringOrder.

Section SortedItems.
Context {V : Type}.
Implicit Types (l : list (string * V)).

Lemma insert_item_sorted x l :
  StronglySorted by_key l → StronglySorted by_key (insert_item x l).
Proof.
  induction 1 as [|y r Hr IH Hy]; simpl; [by repeat constructor|].
  destruct (String.leb x.1 y.1) eqn:Hxy.
  - constructor; [by constructor|]. constructor; [done|].
    eapply Forall_impl; [exact Hy|]. intros z Hz. by eapply string_leb_trans.
  - constructor; [done|].
    rewrite insert_item_Permutation. constructor; [|done].
    destruct (String.leb_total x.1 y.1) as [H|H]; [congruence|done].
Qed.

Lemma sorted_sorted l : StronglySorted by_key (sorted l).
Proof.
  induction l as [|x l IH]; simpl; [constructor|]. by apply insert_item_sorted.
Qed.

(** Two sorted lists of the same items, no two of which have the same
    key, are the same list. *)
Lemma sorted_unique l1 l2 :
  NoDup l1.*1 → StronglySorted by_key l1 → StronglySorted by_key l2 →
  l1 ≡ₚ l2 → l1 = l2.
Proof.
  revert l2. induction l1 as [|x l1 IH]; intros l2 Hnd Hs1 Hs2 Hp.
  { by apply Permutation_nil_l in Hp. }
  destruct l2 as [|y l2]; [by apply Permutation_nil_r in Hp|].
  apply StronglySorted_inv in Hs1 as [Hs1 Hx].
  apply StronglySorted_inv in Hs2 as [Hs2 Hy].
  assert (x = y) as <-.
  { assert (x ∈ y :: l2) as Hxin by (rewrite <- Hp; left).
    assert (y ∈ x :: l1) as Hyin by (rewrite Hp; left).
    apply elem_of_cons in Hxin as [->|Hxin]; [done|].
    apply elem_of_cons in Hyin as [->|Hyin]; [done|].
    rewrite Forall_forall in Hx, Hy.
    assert (x.1 = y.1) as Hk
      by (apply String.leb_antisym; [by apply Hx|by apply Hy]).
    apply NoDup_cons in Hnd as [Hnin _]. exfalso. apply Hnin.
    rewrite Hk. apply list_elem_of_fmap. eauto. }
  f_equal. apply IH; [|done|done|by apply Permutation_cons_inv in Hp].
  simpl in Hnd. by apply NoDup_cons in Hnd as [_ ?].
Qed.

Lemma sorted_Permutation_eq l1 l2 :
  NoDup l1.*1 → l1 ≡ₚ l2 → sorted l1 = sorted l2.
Proof.
  intros Hnd Hp. apply sorted_unique.
  - by rewrite sorted_Permutation.
  - apply sorted_sorted.
  - apply sorted_sorted.
  - by rewrite !sorted_Permutation.
Qed.
End SortedItems.

(** X5. The list of dependent collection packages does not depend on the
    order of the mapping it is made from: its lines come by ascending
    collection name. *)
Theorem collection_deps_order_independent (included_versions included_versions'
                                             : list (string * SemVer)) :
  NoDup (PyDict.keys included_versions) →
  included_versions ≡ₚ included_versions' →
  collection_deps included_versions = collection_deps included_versions'
  ∧ StronglySorted (λ x y, String.leb x.1 y.1 = true)
      (sorted (PyDict.items included_versions))
  ∧ collection_deps_list included_versions
    = (λ cv, collection_dep cv.1 cv.2) <$> sorted (PyDict.items included_versions).
Proof.
  intros Hnd Hp. split; [|split; [apply sorted_sorted|done]].
  unfold collection_deps, collection_deps_list, PyDict.items.
  by rewrite (sorted_Permutation_eq _ _ Hnd Hp).
Qed.

Lemma collection_deps_order_independent_witness :
  let cd := [("c", Sample.v123); ("d", mkSemVer 2 0 0 ["rc1"] [])] in
  let dc := [("d", mkSemVer 2 0 0 ["rc1"] []); ("c", Sample.v123)] in
  NoDup (PyDict.keys cd) ∧ cd ≡ₚ dc
  ∧ collection_deps cd = collection_deps dc
  ∧ collection_deps_list dc
    = ["        'c>=1.2.3,<2.0.0'"; "        'd>=2.0.0-rc1,<2.0.0'"].
Proof.
  intros cd dc.
  assert (NoDup (PyDict.keys cd)) as Hnd
    by (apply (bool_decide_unpack _); vm_compute; exact I).
  assert (cd ≡ₚ dc) as Hp by apply Permutation_swap.
  split; [exact Hnd|]. split; [exact Hp|].
  destruct (collection_deps_order_independent cd dc Hnd Hp) as (Heq & _ & _).
  split; [exact Heq|]. vm_compute. reflexivity.
Defined.

Section ManifestContents.
Context {ChangelogData Changelog ReleaseNotes : Type}.
Context (env : Env ChangelogData Changelog ReleaseNotes).

Lemma resolved_fmap_keys (d : CollectionDownloader) (deps : list (string * string)) :
  all_resolved env d deps →
  PyDict.keys ((λ cv : string * SemVer, (cv.1, SemVer_str cv.2)) <$> resolved env d deps)
  = PyDict.keys deps.
Proof.
  intros Hall. rewrite <- (resolved_keys env d deps Hall).
  unfold PyDict.keys. rewrite <- list_fmap_compose. by apply list_fmap_ext.
Qed.

(** X6. When either command returns 0, the dependency file it has written
    is the file [deps_file] of the destination directory, and it records
    the version being built, the base version of the build file and, for
    each collection of the build file, in the order of the build file, the
    version it has been resolved to. *)
Theorem dependency_file_contents app_ctx lib_ctx sched s bav abv deps :
  BuildFile_parse env (build_file app_ctx) s = inr (bav, abv, deps) →
  NoDup (PyDict.keys deps) →
  ∀ o, o = build_single_command env app_ctx lib_ctx sched (mkWorld s [])
       ∨ o = build_multiple_command env app_ctx lib_ctx sched (mkWorld s []) →
       returned o = Some 0%Z →
       let d := mkCollectionDownloader (OsPath.join (mkdtemp env s) "collections")
                  (collection_cache app_ctx) (galaxy_url app_ctx) in
       let versions :=
         (λ cv : string * SemVer, (cv.1, SemVer_str cv.2)) <$> resolved env d deps in
       ∃ abv',
         PypiVer_of env abv = inr abv'
         ∧ PyDict.keys versions = PyDict.keys deps
         ∧ EvWriteDeps (OsPath.join (dest_dir app_ctx) (deps_file app_ctx))
             (PypiVer_str (ansible_version app_ctx)) (PypiVer_str abv') versions
           ∈ log (final o).
Proof.
  intros Hparse Hnd o Ho Hret d versions.
  destruct o as [z w'|e w'|w'] eqn:Hout; [|done|done].
  simpl in Hret. injection Hret as ->. destruct Ho as [Ho|Ho]; symmetry in Ho.
  - unfold build_single_command in Ho.
    apply bindM_lift_Ok in Ho as ([[bav' abv''] deps'] & w1 & Hread & Ho).
    unfold reads in Hread. cbn [fs] in Hread. rewrite Hparse in Hread.
    injection Hread as <- <- <- <-.
    apply bindM_lift_Ok in Ho as (abv' & w1 & [Habv ->]%pure_ok & Ho).
    destruct (negb _).
    { apply bindM_lift_Ok in Ho as (? & ? & _ & Ho). done. }
    apply bindM_Ok in Ho as ([[[nd cl] rn] dd] & w2 & Htd & Ho).
    apply bindM_lift_Ok in Ho as (u1 & w3 & (s3 & _ & ->)%effect__ok & Ho).
    apply bindM_lift_Ok in Ho as (u2 & w4 & (s4 & _ & ->)%effect__ok & Ho).
    apply bindM_lift_Ok in Ho as (u3 & w5 & (s5 & _ & ->)%effect__ok & Ho).
    apply bindM_lift_Ok in Ho as (u4 & w6 & (s6 & _ & ->)%effect__ok & Ho).
    assert (EvWriteDeps (OsPath.join (dest_dir app_ctx) (deps_file app_ctx))
              (data_ansible_version nd) (data_ansible_base_version nd) (data_deps nd)
            ∈ log w') as Hlog.
    { inversion Ho; subst. simpl. rewrite !elem_of_app, !list_elem_of_singleton. auto. }
    clear Ho.
    apply TemporaryDirectory_Ok in Htd as (fs1 & w2' & _ & Hbody & _).
    invert_ok Hbody.
    match goal with
    | H : download_collections _ _ _ _ _ _ _ _ = Ok _ _ |- _ =>
        pose proof (download_collections_Ok env _ _ _ _ _ _ _ _ _ Hnd H) as [Hiv Hfetched]
    end.
    inversion Hbody as [[Hnd' Hcl Hrn Hdd Hw2]]. rewrite <- Hnd' in Hlog.
    simpl in Hlog, Hiv, Hfetched. rewrite Hiv in Hlog.
    exists abv'. split; [done|]. split; [|exact Hlog].
    apply resolved_fmap_keys. intros name spec Hin.
    destruct (Hfetched name spec Hin) as (r & Hr & _). eauto.
  - unfold build_multiple_command in Ho.
    apply bindM_lift_Ok in Ho as ([[bav' abv''] deps'] & w1 & Hread & Ho).
    unfold reads in Hread. cbn [fs] in Hread. rewrite Hparse in Hread.
    injection Hread as <- <- <- <-.
    apply bindM_lift_Ok in Ho as (abv' & w1 & [Habv ->]%pure_ok & Ho).
    destruct (negb _).
    { apply bindM_lift_Ok in Ho as (? & ? & _ & Ho). done. }
    apply bindM_Ok in Ho as (iv & w2 & Htd & Ho).
    apply bindM_lift_Ok in Ho as (u & w3 & (s3 & _ & ->)%effect__ok & Ho).
    assert (EvWriteDeps (OsPath.join (dest_dir app_ctx) (deps_file app_ctx))
              (PypiVer_str (ansible_version app_ctx)) (PypiVer_str abv')
              ((λ cv : string * SemVer, (cv.1, SemVer_str cv.2)) <$> iv)
            ∈ log w') as Hlog.
    { inversion Ho; subst. simpl. rewrite !elem_of_app, !list_elem_of_singleton. auto. }
    clear Ho.
    apply TemporaryDirectory_Ok in Htd as (fs1 & w2' & _ & Hbody & _).
    invert_ok Hbody.
    match goal with
    | H : download_collections _ _ _ _ _ _ _ _ = Ok _ _ |- _ =>
        pose proof (download_collections_Ok env _ _ _ _ _ _ _ _ _ Hnd H) as [Hiv Hfetched]
    end.
    inversion Hbody as [[Hiv' Hw2]]. rewrite <- Hiv' in Hlog.
    simpl in Hlog, Hiv, Hfetched. rewrite Hiv in Hlog.
    exists abv'. split; [done|]. split; [|exact Hlog].
    apply resolved_fmap_keys. intros name spec Hin.
    destruct (Hfetched name spec Hin) as (r & Hr & _). eauto.
Qed.
End ManifestContents.

Lemma dependency_file_contents_witness :
  let single := build_single_command Sample.env Sample.ctx (mkLibCtx 2)
                  (mkScheduler [] []) Sample.w0 in
  let multiple := build_multiple_command Sample.env Sample.ctx (mkLibCtx 2)
                    (mkScheduler [] []) Sample.w0 in
  let ev := EvWriteDeps ["out"; "ansible.deps"] "2.11.0" "2.10.1"
              [("c", "1.2.3"); ("d", "1.2.3")] in
  NoDup (PyDict.keys Sample.deps_cd)
  ∧ returned single = Some 0%Z ∧ returned multiple = Some 0%Z
  ∧ ev ∈ log (final single) ∧ ev ∈ log (final multiple).
Proof.
  intros single multiple ev.
  assert (NoDup (PyDict.keys Sample.deps_cd)) as Hnd
    by (apply (bool_decide_unpack _); vm_compute; exact I).
  assert (returned single = Some 0%Z) as Hs by (vm_compute; reflexivity).
  assert (returned multiple = Some 0%Z) as Hm by (vm_compute; reflexivity).
  split; [exact Hnd|]. split; [exact Hs|]. split; [exact Hm|].
  pose proof (dependency_file_contents Sample.env Sample.ctx (mkLibCtx 2)
                (mkScheduler [] []) Sample.fs0 "2.1" "2.10.1" Sample.deps_cd
                eq_refl Hnd) as Hdeps.
  split.
  - destruct (Hdeps single (or_introl eq_refl) Hs) as (abv' & Habv & _ & Hev).
    injection Habv as <-. exact Hev.
  - destruct (Hdeps multiple (or_intror eq_refl) Hm) as (abv' & Habv & _ & Hev).
    injection Habv as <-. exact Hev.
Defined.

Section Cleanup.
Context {ChangelogData Changelog ReleaseNotes : Type}.
Context (env : Env ChangelogData Changelog ReleaseNotes).

Lemma rmtree_removed (d : path) (s : FS) : removed d (Os.rmtree d s).
Proof.
  intros p Hp. unfold Os.rmtree. apply map_lookup_filter_None. right.
  intros n _ Hn. apply Hn. exact Hp.
Qed.

(** The block of the temporary directory, once entered and left, has
    removed the directory. *)
Lemma TemporaryDirectory_left {A} (body : path → M A) w fs1 :
  Os.mkdir (mkdtemp env (fs w)) (fs w) = inr fs1 →
  ended (TemporaryDirectory env body w) →
  removed (mkdtemp env (fs w)) (fs (final (TemporaryDirectory env body w)))
  ∧ ∃ evs, log (final (TemporaryDirectory env body w))
           = evs ++ [EvRmtree (mkdtemp env (fs w))].
Proof.
  intros Hmk. unfold TemporaryDirectory. cbv zeta. rewrite Hmk.
  destruct (body _ _) as [a w'|e w'|w']; simpl; [| |done]; intros _;
    (split; [apply rmtree_removed|eauto]).
Qed.

(** X7. A run of either command that has made its temporary directory and
    has come to an end, by a return or by an exception, has removed the
    directory; and as long as the dependency file is not written, nothing
    is left at or below it. *)
Theorem temporary_directory_removed app_ctx lib_ctx sched s :
  let tmp_dir := mkdtemp env s in
  ∀ o, o = build_single_command env app_ctx lib_ctx sched (mkWorld s [])
       ∨ o = build_multiple_command env app_ctx lib_ctx sched (mkWorld s []) →
       ended o →
       EvMkdtemp tmp_dir ∈ log (final o) →
       EvRmtree tmp_dir ∈ log (final o)
       ∧ (Forall (λ ev, is_manifest ev = false) (log (final o)) →
          removed tmp_dir (fs (final o))).
Proof.
  intros tmp_dir o Ho Hend Hin.
  destruct (Os.mkdir tmp_dir s) as [e0|fs1] eqn:Hmk.
  { assert (∀ A (body : path → M A),
              TemporaryDirectory env body
                (mkWorld s [EvReadBuildFile (build_file app_ctx)])
              = Raise e0 (mkWorld s [EvReadBuildFile (build_file app_ctx)])) as Hno.
    { intros A body. unfold TemporaryDirectory. cbv zeta. simpl.
      fold tmp_dir. by rewrite Hmk. }
    exfalso. destruct Ho as [Ho|Ho].
    - unfold build_single_command in Ho.
      rewrite bindM_lift_eq in Ho. unfold reads at 1 in Ho. cbn [fs] in Ho.
      destruct (BuildFile_parse env (build_file app_ctx) s) as [e|[[bav abv] deps]].
      { subst o. simpl in Hin. by apply elem_of_nil in Hin. }
      cbv beta iota in Ho. rewrite bindM_lift_eq in Ho. unfold pure at 1 in Ho.
      destruct (PypiVer_of env abv) as [e|abv'].
      { subst o. simpl in Hin. by apply list_elem_of_singleton in Hin. }
      destruct (negb _).
      { rewrite bindM_lift_eq in Ho. subst o. simpl in Hin.
        apply elem_of_cons in Hin as [Hin|Hin]; [done|].
        by apply list_elem_of_singleton in Hin. }
      rewrite bindM_eq in Ho. unfold emit in Ho. simpl in Ho. rewrite Hno in Ho.
      subst o. simpl in Hin. by apply list_elem_of_singleton in Hin.
    - unfold build_multiple_command in Ho.
      rewrite bindM_lift_eq in Ho. unfold reads at 1 in Ho. cbn [fs] in Ho.
      destruct (BuildFile_parse env (build_file app_ctx) s) as [e|[[bav abv] deps]].
      { subst o. simpl in Hin. by apply elem_of_nil in Hin. }
      cbv beta iota in Ho. rewrite bindM_lift_eq in Ho. unfold pure at 1 in Ho.
      destruct (PypiVer_of env abv) as [e|abv'].
      { subst o. simpl in Hin. by apply list_elem_of_singleton in Hin. }
      destruct (negb _).
      { rewrite bindM_lift_eq in Ho. subst o. simpl in Hin.
        apply elem_of_cons in Hin as [Hin|Hin]; [done|].
        by apply list_elem_of_singleton in Hin. }
      rewrite bindM_eq in Ho. unfold emit in Ho. simpl in Ho. rewrite Hno in Ho.
      subst o. simpl in Hin. by apply list_elem_of_singleton in Hin. }
  destruct Ho as [Ho|Ho].
  - unfold build_single_command in Ho.
    rewrite bindM_lift_eq in Ho. unfold reads at 1 in Ho. cbn [fs] in Ho.
    destruct (BuildFile_parse env (build_file app_ctx) s) as [e|[[bav abv] deps]].
    { subst o. simpl in Hin. by apply elem_of_nil in Hin. }
    cbv beta iota in Ho. rewrite bindM_lift_eq in Ho. unfold pure at 1 in Ho.
    destruct (PypiVer_of env abv) as [e|abv'].
    { subst o. simpl in Hin. by apply list_elem_of_singleton in Hin. }
    destruct (negb _).
    { rewrite bindM_lift_eq in Ho. subst o. simpl in Hin.
      apply elem_of_cons in Hin as [Hin|Hin]; [done|].
      by apply list_elem_of_singleton in Hin. }
    rewrite bindM_eq in Ho.
    match type of Ho with context [TemporaryDirectory env ?b ?w] =>
      set (body := b) in Ho; set (w1 := w) in Ho end.
    pose proof (TemporaryDirectory_left body w1 fs1 Hmk) as Hleft.
    destruct (TemporaryDirectory env body w1) as [[[[nd cl] rn] dd] w2|e w2|w2].
    3: by subst o.
    2: { subst o. destruct Hleft as [Hrm [evs Hlog]]; [done|]. simpl in *.
         split; [|done]. rewrite Hlog. apply elem_of_app. right. left. }
    destruct Hleft as [Hrm [evs Hlog]]; [done|]. simpl in Hrm, Hlog.
    assert (EvRmtree tmp_dir ∈ log w2) as Hev.
    { rewrite Hlog. apply elem_of_app. right. left. }
    cbv beta iota in Ho.
    rewrite bindM_lift_eq in Ho. unfold effect_ at 1, effect at 1 in Ho.
    destruct (DepsFile_write _ _ _ _ _ _) as [e|s3].
    { by subst o. }
    assert (∀ o' : outcome Z,
              (∃ evs', log (final o')
                       = log w2 ++ EvWriteDeps
                           (OsPath.join (dest_dir app_ctx) (deps_file app_ctx))
                           (data_ansible_version nd) (data_ansible_base_version nd)
                           (data_deps nd) :: evs') →
              EvRmtree tmp_dir ∈ log (final o')
              ∧ (Forall (λ ev, is_manifest ev = false) (log (final o')) →
                 removed tmp_dir (fs (final o')))) as Hafter.
    { intros o' [evs' Hlog']. rewrite Hlog'. split.
      - apply elem_of_app. by left.
      - intros Hnm. apply Forall_app in Hnm as [_ Hnm].
        by apply Forall_cons in Hnm as [Hnm _]. }
    apply Hafter. clear Hafter.
    cbn [log fs] in Ho.
    rewrite bindM_lift_eq in Ho. unfold effect_ at 1, effect at 1 in Ho.
    cbn [log fs] in Ho.
    destruct (changes_save env cl s3) as [e|s4].
    { subst o. simpl. eauto. }
    rewrite bindM_lift_eq in Ho. unfold effect_ at 1, effect at 1 in Ho.
    cbn [log fs] in Ho.
    destruct (write_changelog_to env rn _ s4) as [e|s5].
    { subst o. simpl. rewrite <- !app_assoc. simpl. eauto. }
    rewrite bindM_lift_eq in Ho. unfold effect_ at 1, effect at 1 in Ho.
    cbn [log fs] in Ho.
    destruct (write_porting_guide_to env rn _ s5) as [e|s6].
    { subst o. simpl. rewrite <- !app_assoc. simpl. eauto. }
    subst o. simpl. rewrite <- !app_assoc. simpl. eauto.
  - unfold build_multiple_command in Ho.
    rewrite bindM_lift_eq in Ho. unfold reads at 1 in Ho. cbn [fs] in Ho.
    destruct (BuildFile_parse env (build_file app_ctx) s) as [e|[[bav abv] deps]].
    { subst o. simpl in Hin. by apply elem_of_nil in Hin. }
    cbv beta iota in Ho. rewrite bindM_lift_eq in Ho. unfold pure at 1 in Ho.
    destruct (PypiVer_of env abv) as [e|abv'].
    { subst o. simpl in Hin. by apply list_elem_of_singleton in Hin. }
    destruct (negb _).
    { rewrite bindM_lift_eq in Ho. subst o. simpl in Hin.
      apply elem_of_cons in Hin as [Hin|Hin]; [done|].
      by apply list_elem_of_singleton in Hin. }
    rewrite bindM_eq in Ho.
    match type of Ho with context [TemporaryDirectory env ?b ?w] =>
      set (body := b) in Ho; set (w1 := w) in Ho end.
    pose proof (TemporaryDirectory_left body w1 fs1 Hmk) as Hleft.
    destruct (TemporaryDirectory env body w1) as [iv w2|e w2|w2].
    3: by subst o.
    2: { subst o. destruct Hleft as [Hrm [evs Hlog]]; [done|]. simpl in *.
         split; [|done]. rewrite Hlog. apply elem_of_app. right. left. }
    destruct Hleft as [Hrm [evs Hlog]]; [done|]. simpl in Hrm, Hlog.
    assert (EvRmtree tmp_dir ∈ log w2) as Hev.
    { rewrite Hlog. apply elem_of_app. right. left. }
    rewrite bindM_lift_eq in Ho. unfold effect_, effect in Ho.
    destruct (DepsFile_write _ _ _ _ _ _) as [e|s3].
    { by subst o. }
    subst o. simpl. split; [apply elem_of_app; by left|].
    intros Hnm. apply Forall_app in Hnm as [_ Hnm].
    by apply Forall_cons in Hnm as [Hnm _].
Qed.
End Cleanup.

Lemma temporary_directory_removed_witness :
  let env := Sample.sample_env "2.1" Sample.deps_ab true [".tar.gz"] in
  let o := build_single_command env Sample.ctx (mkLibCtx 2) (mkScheduler [] [])
             Sample.w0 in
  (∃ e w, o = Raise e w)
  ∧ EvMkdtemp ["tmp"; "build"] ∈ log (final o)
  ∧ EvRmtree ["tmp"; "build"] ∈ log (final o)
  ∧ fs (final o) !! ["tmp"; "build"; "collections"] = None.
Proof.
  intros env o.
  assert (∃ e w, o = Raise e w) as Hraise by (eexists _, _; vm_compute; reflexivity).
  assert (EvMkdtemp ["tmp"; "build"] ∈ log (final o)) as Hin
    by (apply (bool_decide_unpack _); vm_compute; exact I).
  split; [exact Hraise|]. split; [exact Hin|].
  destruct (temporary_directory_removed env Sample.ctx (mkLibCtx 2) (mkScheduler [] [])
              Sample.fs0 o (or_introl eq_refl)) as [Hev Hrm].
  - destruct Hraise as (e & w & ->). exact I.
  - exact Hin.
  - split; [exact Hev|]. apply Hrm.
    + apply (bool_decide_unpack _); vm_compute; exact I.
    + by exists ["collections"].
Defined.

Section ExitCodes.
Context {ChangelogData Changelog ReleaseNotes : Type}.
Context (env : Env ChangelogData Changelog ReleaseNotes).

(** What a returned exit code tells about the run. *)
Lemma exit_code_conditions app_ctx lib_ctx sched s :
  ∀ o, o = build_single_command env app_ctx lib_ctx sched (mkWorld s [])
       ∨ o = build_multiple_command env app_ctx lib_ctx sched (mkWorld s []) →
       ∀ z, returned o = Some z →
            ∃ bav abv deps abv',
              BuildFile_parse env (build_file app_ctx) s = inr (bav, abv, deps)
              ∧ PypiVer_of env abv = inr abv'
              ∧ (if PyStr.startswith (PypiVer_str (ansible_version app_ctx)) bav
                 then z = 0%Z else z = 1%Z).
Proof.
  intros o Ho z Hret.
  destruct o as [z' w'|e w'|w'] eqn:Hout; [|done|done].
  simpl in Hret. injection Hret as ->. destruct Ho as [Ho|Ho]; symmetry in Ho.
  - unfold build_single_command in Ho.
    apply bindM_lift_Ok in Ho as ([[bav abv] deps] & w1 & Hread & Ho).
    unfold reads in Hread. cbn [fs] in Hread.
    destruct (BuildFile_parse _ _ _) as [e|parsed]; [done|].
    injection Hread as -> <-.
    apply bindM_lift_Ok in Ho as (abv' & w1 & [Habv ->]%pure_ok & Ho).
    exists bav, abv, deps, abv'. split; [done|]. split; [done|].
    destruct (PyStr.startswith _ _); cbn [negb] in Ho.
    + apply bindM_Ok in Ho as ([[[nd cl] rn] dd] & w2 & _ & Ho).
      invert_ok Ho. by inversion Ho.
    + apply bindM_lift_Ok in Ho as (? & ? & _ & Ho). by inversion Ho.
  - unfold build_multiple_command in Ho.
    apply bindM_lift_Ok in Ho as ([[bav abv] deps] & w1 & Hread & Ho).
    unfold reads in Hread. cbn [fs] in Hread.
    destruct (BuildFile_parse _ _ _) as [e|parsed]; [done|].
    injection Hread as -> <-.
    apply bindM_lift_Ok in Ho as (abv' & w1 & [Habv ->]%pure_ok & Ho).
    exists bav, abv, deps, abv'. split; [done|]. split; [done|].
    destruct (PyStr.startswith _ _); cbn [negb] in Ho.
    + apply bindM_Ok in Ho as (iv & w2 & _ & Ho).
      invert_ok Ho. by inversion Ho.
    + apply bindM_lift_Ok in Ho as (? & ? & _ & Ho). by inversion Ho.
Qed.

(** What the commands come to before the block of the temporary
    directory: the exception of the parser, the exception of an invalid
    base version, or the exit code 1 of a check that fails. *)
Lemma exit_before_the_build app_ctx lib_ctx sched s :
  ∀ o, o = build_single_command env app_ctx lib_ctx sched (mkWorld s [])
       ∨ o = build_multiple_command env app_ctx lib_ctx sched (mkWorld s []) →
       (∀ e, BuildFile_parse env (build_file app_ctx) s = inl e →
             o = Raise e (mkWorld s []))
       ∧ (∀ bav abv deps e,
            BuildFile_parse env (build_file app_ctx) s = inr (bav, abv, deps) →
            PypiVer_of env abv = inl e →
            o = Raise e (mkWorld s [EvReadBuildFile (build_file app_ctx)]))
       ∧ (∀ bav abv deps abv',
            BuildFile_parse env (build_file app_ctx) s = inr (bav, abv, deps) →
            PypiVer_of env abv = inr abv' →
            PyStr.startswith (PypiVer_str (ansible_version app_ctx)) bav = false →
            returned o = Some 1%Z).
Proof.
  intros o Ho. split; [|split].
  - intros e He.
    destruct Ho as [->| ->];
      [unfold build_single_command|unfold build_multiple_command];
      rewrite bindM_lift_eq; unfold reads at 1; cbn [fs]; by rewrite He.
  - intros bav abv deps e Hp He.
    destruct Ho as [->| ->];
      [unfold build_single_command|unfold build_multiple_command];
      rewrite bindM_lift_eq; unfold reads at 1; cbn [fs]; rewrite Hp;
      cbv beta iota; rewrite bindM_lift_eq; unfold pure at 1; by rewrite He.
  - intros bav abv deps abv' Hp Hb Hstart.
    destruct Ho as [->| ->];
      [unfold build_single_command|unfold build_multiple_command];
      rewrite bindM_lift_eq; unfold reads at 1; cbn [fs]; rewrite Hp;
      cbv beta iota; rewrite bindM_lift_eq; unfold pure at 1;
      rewrite Hb, Hstart; reflexivity.
Qed.

(** X8. The commands return 0 or 1 and nothing else. They return 1 exactly
    when the build file is parsed, its base version is a valid version
    and the string of the target version does not start with the version
    the build file declares; they return 0 only when the build file is
    parsed, its base version is valid and the target version does start
    with the declared one. Every other failure is an exception: so are a
    build file that cannot be parsed and a base version that is not
    valid, which are met before the check, whatever the check would
    give. *)
Theorem exit_codes app_ctx lib_ctx sched s :
  ∀ o, o = build_single_command env app_ctx lib_ctx sched (mkWorld s [])
       ∨ o = build_multiple_command env app_ctx lib_ctx sched (mkWorld s []) →
       (∀ z, returned o = Some z → z = 0%Z ∨ z = 1%Z)
       ∧ (returned o = Some 1%Z ↔
          ∃ bav abv deps abv',
            BuildFile_parse env (build_file app_ctx) s = inr (bav, abv, deps)
            ∧ PypiVer_of env abv = inr abv'
            ∧ PyStr.startswith (PypiVer_str (ansible_version app_ctx)) bav = false)
       ∧ (returned o = Some 0%Z →
          ∃ bav abv deps abv',
            BuildFile_parse env (build_file app_ctx) s = inr (bav, abv, deps)
            ∧ PypiVer_of env abv = inr abv'
            ∧ PyStr.startswith (PypiVer_str (ansible_version app_ctx)) bav = true)
       ∧ (∀ e, BuildFile_parse env (build_file app_ctx) s = inl e →
               o = Raise e (mkWorld s []))
       ∧ (∀ bav abv deps e,
            BuildFile_parse env (build_file app_ctx) s = inr (bav, abv, deps) →
            PypiVer_of env abv = inl e →
            o = Raise e (mkWorld s [EvReadBuildFile (build_file app_ctx)])).
Proof.
  intros o Ho.
  pose proof (exit_code_conditions app_ctx lib_ctx sched s o Ho) as Hcond.
  destruct (exit_before_the_build app_ctx lib_ctx sched s o Ho)
    as (Hparse & Hbase & Hone).
  split; [|split; [|split; [|split]]].
  - intros z Hz. destruct (Hcond z Hz) as (bav & abv & deps & abv' & _ & _ & Hc).
    destruct (PyStr.startswith _ _); auto.
  - split.
    + intros Hz. destruct (Hcond _ Hz) as (bav & abv & deps & abv' & Hp & Hb & Hc).
      exists bav, abv, deps, abv'. split; [done|]. split; [done|].
      by destruct (PyStr.startswith _ _).
    + intros (bav & abv & deps & abv' & Hp & Hb & Hc). by eapply Hone.
  - intros Hz. destruct (Hcond _ Hz) as (bav & abv & deps & abv' & Hp & Hb & Hc).
    exists bav, abv, deps, abv'. split; [done|]. split; [done|].
    by destruct (PyStr.startswith _ _).
  - exact Hparse.
  - exact Hbase.
Qed.
End ExitCodes.

Lemma exit_codes_witness :
  let env := Sample.sample_env "2.12" Sample.deps_cd true [".tar.gz"] in
  let o := build_multiple_command env Sample.ctx (mkLibCtx 2) (mkScheduler [] [])
             Sample.w0 in
  PyStr.startswith (PypiVer_str (ansible_version Sample.ctx)) "2.12" = false
  ∧ returned o = Some 1%Z.
Proof.
  intros env o.
  assert (PyStr.startswith (PypiVer_str (ansible_version Sample.ctx)) "2.12" = false)
    as Hstart by (vm_compute; reflexivity).
  split; [exact Hstart|].
  destruct (exit_codes env Sample.ctx (mkLibCtx 2) (mkScheduler [] []) Sample.fs0 o
              (or_intror eq_refl)) as (_ & Hone & _).
  apply Hone. exists "2.12", "2.10.1", Sample.deps_cd, (mkPypiVer 0 [2; 10; 1] "").
  split; [reflexivity|]. split; [reflexivity|]. exact Hstart.
Defined.

Section BuildFiles.
Context {ChangelogData Changelog ReleaseNotes : Type}.
Context (env : Env ChangelogData Changelog ReleaseNotes).

Lemma append_assoc (s1 s2 s3 : string) : (s1 +:+ s2) +:+ s3 = s1 +:+ (s2 +:+ s3).
Proof.
  induction s1 as [|a s1 IH]; [done|].
  change (String a ((s1 +:+ s2) +:+ s3) = String a (s1 +:+ (s2 +:+ s3))).
  by f_equal.
Qed.

Lemma write_file_ok (p : path) content w (u : unit) w' :
  write_file p content w = (inr u, w') →
  Os.isdir (fs w) (OsPath.dirname p) = true
  ∧ w' = mkWorld (<[p := File content]> (fs w)) (log w ++ [EvWrite p content]).
Proof.
  unfold write_file. intros (s' & Hs & ->)%effect__ok.
  unfold Os.write_text in Hs. destruct (Os.isdir (fs w) p); [done|].
  destruct (Os.isdir (fs w) (OsPath.dirname p)); [|done].
  by inversion Hs.
Qed.

Lemma isdir_insert_file (s : FS) (p q : path) c :
  Os.isdir (<[q := File c]> s) p = true → Os.isdir s p = true.
Proof.
  unfold Os.isdir. destruct (decide (q = p)) as [->|Hne].
  - by rewrite lookup_insert_eq.
  - by rewrite lookup_insert_ne.
Qed.

(** X9. When [write_python_build_files] returns, the package directory
    was a directory and holds [COPYING], [README.rst], [MANIFEST.in] and
    [setup.py]; nothing else has changed. [MANIFEST.in] has the three
    fixed includes (of [README], not of [README.rst]), the two files of
    the release notes when they are given, [debian/*] when asked for, and
    the collections. *)
Theorem write_python_build_files_effect ansible_version ansible_base_version
        collection_deps package_dir release_notes debian w (u : unit) w' :
  write_python_build_files env ansible_version ansible_base_version collection_deps
    package_dir release_notes debian w = (inr u, w') →
  ∃ gpl readme tmpl setup,
    get_antsibull_data env "gplv3.txt" = inr gpl
    ∧ get_antsibull_data env "ansible-readme.rst" = inr readme
    ∧ get_antsibull_data env "ansible-setup_py.j2" = inr tmpl
    ∧ render env tmpl [("version", PypiVer_str ansible_version);
                       ("ansible_base_version", PypiVer_str ansible_base_version);
                       ("collection_deps", collection_deps)] = inr setup
    ∧ Os.isdir (fs w) package_dir = true
    ∧ let manifest := lines_text (manifest_lines env release_notes debian) in
      fs w' = <[OsPath.join package_dir "setup.py" := File setup]>
                (<[OsPath.join package_dir "MANIFEST.in" := File manifest]>
                   (<[OsPath.join package_dir "README.rst" := File readme]>
                      (<[OsPath.join package_dir "COPYING" := File gpl]> (fs w))))
      ∧ log w' = log w ++ [EvWrite (OsPath.join package_dir "COPYING") gpl;
                           EvWrite (OsPath.join package_dir "README.rst") readme;
                           EvWrite (OsPath.join package_dir "MANIFEST.in") manifest;
                           EvWrite (OsPath.join package_dir "setup.py") setup].
Proof.
  unfold write_python_build_files, copy_boilerplate_files, write_manifest, write_setup.
  cbv zeta. intros H.
  apply bindE_ok in H as (u1 & w1 & H1 & H).
  apply bindE_ok in H1 as (gpl & w0 & [Hgpl ->]%pure_ok & H1).
  apply bindE_ok in H1 as (u0 & w0 & [Hdir ->]%write_file_ok & H1).
  apply bindE_ok in H1 as (readme & w0 & [Hreadme ->]%pure_ok & H1).
  apply write_file_ok in H1 as [_ ->].
  apply bindE_ok in H as (u2 & w2 & [_ ->]%write_file_ok & H).
  apply bindE_ok in H as (tmpl & w0 & [Htmpl ->]%pure_ok & H).
  apply bindE_ok in H as (setup & w0 & [Hsetup ->]%pure_ok & H).
  apply write_file_ok in H as [_ ->].
  rewrite dirname_join in Hdir.
  exists gpl, readme, tmpl, setup. repeat (split; [done|]).
  assert (lines_text (manifest_lines env release_notes debian)
          = "include COPYING" +:+ newline +:+ "include README" +:+ newline
            +:+ "include build-ansible.sh" +:+ newline
            +:+ match release_notes with
                | Some rn =>
                    "include " +:+ changelog_filename env rn +:+ newline
                    +:+ "include " +:+ porting_guide_filename env rn +:+ newline
                | None => ""
                end
            +:+ (if debian then "include debian/*" +:+ newline else "")
            +:+ "recursive-include ansible_collections/ **" +:+ newline) as ->.
  { unfold manifest_lines, lines_text.
    destruct release_notes as [rn|], debian; cbn [foldr app];
      rewrite ?append_assoc; reflexivity. }
  simpl. rewrite <- !app_assoc. done.
Qed.

(** X10. When [make_collection_dist] returns, it has written
    [README.rst], [setup.py] and [MANIFEST.in] to the directory of the
    collection, in this order and from the templates of collections, then
    built the sdist there, then moved the entry of [dist] to the
    destination with [shutil.move]: the [dist] directory that the sdist
    build left had this entry and no other. It has done nothing else. *)
Theorem make_collection_dist_trace name version package_dir dest_dir w (u : unit) w' :
  make_collection_dist env name version package_dir dest_dir w = (inr u, w') →
  ∃ readme_tmpl readme setup_tmpl setup built file0,
    get_antsibull_data env "collection-readme.j2" = inr readme_tmpl
    ∧ render env readme_tmpl [("collection_name", name)] = inr readme
    ∧ get_antsibull_data env "collection-setup_py.j2" = inr setup_tmpl
    ∧ render env setup_tmpl [("version", version); ("name", name)] = inr setup
    ∧ sdist env package_dir
        (<[OsPath.join package_dir "MANIFEST.in"
           := File (lines_text ["include README.rst";
                                "recursive-include ansible_collections/ **"])]>
           (<[OsPath.join package_dir "setup.py" := File setup]>
              (<[OsPath.join package_dir "README.rst" := File readme]> (fs w))))
      = inr built
    ∧ Os.listdir (OsPath.join package_dir "dist") built = inr [file0]
    ∧ Os.move (OsPath.join (OsPath.join package_dir "dist") file0) dest_dir built
      = inr (fs w')
    ∧ log w'
      = log w ++ [EvWrite (OsPath.join package_dir "README.rst") readme;
                  EvWrite (OsPath.join package_dir "setup.py") setup;
                  EvWrite (OsPath.join package_dir "MANIFEST.in")
                    (lines_text ["include README.rst";
                                 "recursive-include ansible_collections/ **"]);
                  EvSdist package_dir;
                  EvMove (OsPath.join (OsPath.join package_dir "dist") file0) dest_dir].
Proof.
  rewrite make_collection_dist_collect.
  unfold write_collection_readme, write_collection_setup, write_collection_manifest.
  cbv zeta. intros H.
  apply bindE_ok in H as (u1 & w1 & H1 & H).
  apply bindE_ok in H1 as (readme_tmpl & w0 & [Hrt ->]%pure_ok & H1).
  apply bindE_ok in H1 as (readme & w0 & [Hr ->]%pure_ok & H1).
  apply write_file_ok in H1 as [_ ->].
  apply bindE_ok in H as (u2 & w2 & H2 & H).
  apply bindE_ok in H2 as (setup_tmpl & w0 & [Hst ->]%pure_ok & H2).
  apply bindE_ok in H2 as (setup & w0 & [Hs ->]%pure_ok & H2).
  apply write_file_ok in H2 as [_ ->].
  apply bindE_ok in H as (u3 & w3 & [_ ->]%write_file_ok & H).
  apply bindE_ok in H as (u4 & w4 & (built & Hbuilt & ->)%effect__ok & H).
  unfold collect_dist in H.
  apply bindE_ok in H as (files & w5 & Hfiles & H).
  unfold reads in Hfiles. cbn [fs] in Hfiles.
  destruct (Os.listdir _ built) as [e|files'] eqn:Hlist; [done|].
  injection Hfiles as -> <-.
  destruct files as [|file0 [|? ?]]; [done| |done].
  apply effect__ok in H as (s5 & Hmove & ->).
  exists readme_tmpl, readme, setup_tmpl, setup, built, file0.
  cbn [fs] in Hbuilt, Hmove.
  repeat (split; [done|]). simpl. rewrite <- !app_assoc. done.
Qed.
End BuildFiles.

Lemma write_python_build_files_effect_witness :
  let v := mkPypiVer 0 [2; 11; 0] "" in
  let w := mkWorld (<[["pkg"] := Dir]> Sample.fs0) [] in
  let r := write_python_build_files Sample.env v v "" ["pkg"] None true w in
  r = (inr tt, r.2)
  ∧ fs r.2 !! ["pkg"; "MANIFEST.in"]
    = Some (File (lines_text ["include COPYING"; "include README";
                              "include build-ansible.sh"; "include debian/*";
                              "recursive-include ansible_collections/ **"]))
  ∧ fs r.2 !! ["pkg"; "README.rst"] = Some (File "ansible-readme.rst")
  ∧ fs r.2 !! ["out"] = Some Dir.
Proof.
  intros v w r.
  assert (r = (inr tt, r.2)) as Hr by (vm_compute; reflexivity).
  split; [exact Hr|].
  destruct (write_python_build_files_effect Sample.env v v "" ["pkg"] None true
              w tt r.2 Hr)
    as (gpl & readme & tmpl & setup & _ & Hreadme & _ & _ & _ & Hfs & _).
  injection Hreadme as <-. rewrite Hfs.
  split; [|split]; vm_compute; reflexivity.
Defined.

Lemma make_collection_dist_trace_witness :
  let r := make_collection_dist Sample.env "community.general" "1.2.3"
             ["tmp"] ["out"] Sample.w0 in
  r = (inr tt, r.2)
  ∧ log r.2
    = [EvWrite ["tmp"; "README.rst"] "collection-readme.j2";
       EvWrite ["tmp"; "setup.py"] "collection-setup_py.j2";
       EvWrite ["tmp"; "MANIFEST.in"]
         (lines_text ["include README.rst"; "recursive-include ansible_collections/ **"]);
       EvSdist ["tmp"];
       EvMove ["tmp"; "dist"; "tmp.tar.gz"] ["out"]]
  ∧ ∃ built, Os.listdir ["tmp"; "dist"] built = inr ["tmp.tar.gz"].
Proof.
  intros r.
  assert (r = (inr tt, r.2)) as Hr by (vm_compute; reflexivity).
  split; [exact Hr|].
  destruct (make_collection_dist_trace Sample.env "community.general" "1.2.3"
              ["tmp"] ["out"] Sample.w0 tt r.2 Hr)
    as (rt & readme & st & setup & built & file0 & _ & _ & _ & _ & _ & Hlist
        & _ & Hlog).
  assert (log r.2
          = [EvWrite ["tmp"; "README.rst"] "collection-readme.j2";
             EvWrite ["tmp"; "setup.py"] "collection-setup_py.j2";
             EvWrite ["tmp"; "MANIFEST.in"]
               (lines_text ["include README.rst";
                            "recursive-include ansible_collections/ **"]);
             EvSdist ["tmp"];
             EvMove ["tmp"; "dist"; "tmp.tar.gz"] ["out"]]) as Hc
    by (vm_compute; reflexivity).
  split; [exact Hc|].
  exists built.
  rewrite Hc in Hlog.
  assert (file0 = "tmp.tar.gz") as ->.
  { apply (f_equal (λ l, last l)) in Hlog. cbn in Hlog.
    by injection Hlog as <-. }
  exact Hlist.
Defined.

Section Debian.
Context {ChangelogData Changelog ReleaseNotes : Type}.
Context (env : Env ChangelogData Changelog ReleaseNotes).

Lemma mkdir_ok (p : path) w (u : unit) w' :
  mkdir p w = (inr u, w') →
  Os.exists_ (fs w) p = false
  ∧ Os.isdir (fs w) (OsPath.dirname p) = true
  ∧ w' = mkWorld (<[p := Dir]> (fs w)) (log w ++ [EvMkdir p]).
Proof.
  unfold mkdir. intros (s' & Hs & ->)%effect__ok.
  unfold Os.mkdir in Hs. destruct (Os.exists_ (fs w) p); [done|].
  destruct (Os.isdir (fs w) (OsPath.dirname p)); [|done].
  by inversion Hs.
Qed.

(** X11. When [write_debian_directory] returns, it has made the directory
    [debian] of the package directory, which did not exist, and written
    four files to it: [changelog], rendered from the template
    [debian/changelog.j2] with the version and the date, and [control],
    [copyright] and [rules] as they are in the package data. Nothing else
    has changed. When [debian] exists already, it raises and writes
    nothing. *)
Theorem write_debian_directory_effect ansible_version package_dir w :
  let debian_dir := OsPath.join package_dir "debian" in
  (Os.exists_ (fs w) debian_dir = true →
   write_debian_directory env ansible_version package_dir w
   = (inl (OSError "mkdir: file exists"), w))
  ∧ ∀ (u : unit) w',
      write_debian_directory env ansible_version package_dir w = (inr u, w') →
      ∃ tmpl changelog control copyright rules,
        get_antsibull_data env "debian/changelog.j2" = inr tmpl
        ∧ render env tmpl [("version", PypiVer_str ansible_version);
                           ("date", utcnow env)] = inr changelog
        ∧ get_antsibull_data env "debian/control" = inr control
        ∧ get_antsibull_data env "debian/copyright" = inr copyright
        ∧ get_antsibull_data env "debian/rules" = inr rules
        ∧ Os.exists_ (fs w) debian_dir = false
        ∧ Os.isdir (fs w) package_dir = true
        ∧ fs w' = <[OsPath.join debian_dir "rules" := File rules]>
                    (<[OsPath.join debian_dir "copyright" := File copyright]>
                       (<[OsPath.join debian_dir "control" := File control]>
                          (<[OsPath.join debian_dir "changelog" := File changelog]>
                             (<[debian_dir := Dir]> (fs w)))))
        ∧ log w' = log w ++ [EvMkdir debian_dir;
                             EvWrite (OsPath.join debian_dir "changelog") changelog;
                             EvWrite (OsPath.join debian_dir "control") control;
                             EvWrite (OsPath.join debian_dir "copyright") copyright;
                             EvWrite (OsPath.join debian_dir "rules") rules].
Proof.
  intros debian_dir. unfold write_debian_directory. cbv zeta. fold debian_dir. split.
  - intros Hex. unfold bindE, mkdir, effect_, effect, Os.mkdir. by rewrite Hex.
  - intros u w' H.
    apply bindE_ok in H as (u0 & w0 & (Hnew & Hdir & ->)%mkdir_ok & H).
    cbn [for_each] in H.
    change (PyStr2.endswith "changelog.j2" ".j2") with true in H.
    change (PyStr2.endswith "control" ".j2") with false in H.
    change (PyStr2.endswith "copyright" ".j2") with false in H.
    change (PyStr2.endswith "rules" ".j2") with false in H.
    change (PyStr2.replace "changelog.j2" ".j2" "") with "changelog" in H.
    cbv beta iota in H.
    apply bindE_ok in H as (u1 & w1 & H1 & H).
    apply bindE_ok in H1 as (tmpl & w0 & [Htmpl ->]%pure_ok & H1).
    apply bindE_ok in H1 as (changelog & w0 & [Hchangelog ->]%pure_ok & H1).
    apply write_file_ok in H1 as [_ ->].
    apply bindE_ok in H as (u2 & w2 & H2 & H).
    apply bindE_ok in H2 as (control & w0 & [Hcontrol ->]%pure_ok & H2).
    apply write_file_ok in H2 as [_ ->].
    apply bindE_ok in H as (u3 & w3 & H3 & H).
    apply bindE_ok in H3 as (copyright & w0 & [Hcopyright ->]%pure_ok & H3).
    apply write_file_ok in H3 as [_ ->].
    apply bindE_ok in H as (u4 & w4 & H4 & H).
    apply bindE_ok in H4 as (rules & w0 & [Hrules ->]%pure_ok & H4).
    apply write_file_ok in H4 as [_ ->].
    unfold retE in H. injection H as _ <-.
    unfold debian_dir in Hdir. rewrite dirname_join in Hdir.
    exists tmpl, changelog, control, copyright, rules.
    repeat (split; [done|]). simpl. rewrite <- !app_assoc. done.
Qed.
End Debian.

Lemma write_debian_directory_effect_witness :
  let v := mkPypiVer 0 [2; 11; 0] "" in
  let w := mkWorld (<[["pkg"] := Dir]> Sample.fs0) [] in
  let r := write_debian_directory Sample.env v ["pkg"] w in
  r = (inr tt, r.2)
  ∧ log r.2 = [EvMkdir ["pkg"; "debian"];
               EvWrite ["pkg"; "debian"; "changelog"] "debian/changelog.j2";
               EvWrite ["pkg"; "debian"; "control"] "debian/control";
               EvWrite ["pkg"; "debian"; "copyright"] "debian/copyright";
               EvWrite ["pkg"; "debian"; "rules"] "debian/rules"]
  ∧ write_debian_directory Sample.env v ["pkg"] r.2
    = (inl (OSError "mkdir: file exists"), r.2).
Proof.
  intros v w r.
  assert (r = (inr tt, r.2)) as Hr by (vm_compute; reflexivity).
  split; [exact Hr|].
  destruct (write_debian_directory_effect Sample.env v ["pkg"] w) as [_ Hok].
  destruct (Hok tt r.2 Hr)
    as (tmpl & cl & co & cp & ru & Ht & Hcl & Hco & Hcp & Hru & _ & _ & _ & Hlog).
  injection Ht as <-. injection Hcl as <-. injection Hco as <-.
  injection Hcp as <-. injection Hru as <-.
  split; [exact Hlog|].
  destruct (write_debian_directory_effect Sample.env v ["pkg"] r.2) as [Hagain _].
  apply Hagain. vm_compute. reflexivity.
Defined.

Section Liveness.
Context {ChangelogData Changelog ReleaseNotes : Type}.
Context (env : Env ChangelogData Changelog ReleaseNotes).

Lemma fetch_events_requests d (deps : list (string * string)) :
  fetch_event env d deps <$> seq 0 (length deps) = request_event env d <$> deps.
Proof.
  apply list_eq. intros i. rewrite !list_lookup_fmap.
  destruct (deps !! i) as [[name spec]|] eqn:Hi; simpl.
  - rewrite lookup_seq_lt by (by eapply lookup_lt_Some). simpl.
    unfold fetch_event. by rewrite Hi.
  - rewrite lookup_seq_ge; [done|]. by apply lookup_ge_None.
Qed.

(** X12. On a pool with at least one slot, [download_collections] always
    comes to an end, by a return or by an exception, and by then every
    request has been fetched exactly once: the fetches are what it has
    added to the log, in the order in which they finished. *)
Theorem download_collections_ends lib_ctx sched deps galaxy_url download_dir
        collection_cache w :
  0 < thread_max lib_ctx → NoDup (PyDict.keys deps) →
  let d := mkCollectionDownloader download_dir collection_cache galaxy_url in
  let o := download_collections env lib_ctx sched deps galaxy_url download_dir
             collection_cache w in
  ended o
  ∧ ∃ evs, log (final o) = log w ++ evs ∧ evs ≡ₚ request_event env d <$> deps.
Proof.
  intros Hsize Hnd d o.
  destruct (download_collections_spec env lib_ctx sched deps galaxy_url
              download_dir collection_cache w Hsize Hnd)
    as (sched' & l & l' & _ & _ & Hinv & _ & Hfin & _ & Hrun).
  fold d in Hinv, Hrun. fold o in Hrun.
  pose proof (inv_trace _ _ _ _ _ Hinv) as Hlog.
  assert (final o = Asyncio.shared l' ∧ ended o) as [Hfinal Hend].
  { rewrite Hrun. by destruct (first_failure _ _). }
  split; [done|]. rewrite Hfinal. eexists. split; [exact Hlog|].
  rewrite Hfin. by rewrite fetch_events_requests.
Qed.
End Liveness.

Lemma download_collections_ends_witness :
  let o := download_collections Sample.env (mkLibCtx 1) [] Sample.deps_abc
             "https://galaxy.ansible.com" ["tmp"; "collections"] None Sample.w0 in
  0 < thread_max (mkLibCtx 1) ∧ NoDup (PyDict.keys Sample.deps_abc)
  ∧ ended o
  ∧ ∃ evs, log (final o) = log Sample.w0 ++ evs
           ∧ evs ≡ₚ [EvFetch "a" "*" (inl (External "a failed"));
                     EvFetch "b" "*" (inl (External "b failed"));
                     EvFetch "c" ">=1.0.0" (inr Sample.v123)].
Proof.
  intros o.
  assert (0 < thread_max (mkLibCtx 1)) as Hsize by (simpl; lia).
  assert (NoDup (PyDict.keys Sample.deps_abc)) as Hnd
    by (apply (bool_decide_unpack _); vm_compute; exact I).
  split; [exact Hsize|]. split; [exact Hnd|].
  exact (download_collections_ends Sample.env (mkLibCtx 1) [] Sample.deps_abc
           "https://galaxy.ansible.com" ["tmp"; "collections"] None Sample.w0
           Hsize Hnd).
Defined.
